(** * grok2api: streaming translation engine and conversation store

    A shallow embedding of the TypeScript sources, one module per source
    unit, followed by the theorems about them:

    - [JsString]       the string primitives the sources rely on
    - [Conversations]  src/repo/conversations.ts (the D1 table and its queries)
    - [Sha256]         the digest behind [sha256Hex]
    - [History]        [extractText] and [computeHistoryHash]
    - [GrpcWeb]        the gRPC-Web frame codec
    - [Json]           JSON values as [JSON.parse] returns them
    - [ToolUsageCard]  src/grok/rateLimits.ts, the tool-usage card parser
    - [GrokStream]     [createOpenAiStreamFromGrokNdjson] and
                       [parseOpenAiFromGrokNdjson]
    - [AccountSettings] src/grok/accountSettings.ts, the callers of the codec

    - [ConversationsProofs], [HistoryProofs], [GrpcWebProofs],
      [ToolUsageCardProofs], [GrokStreamProofs]
    - [StoreMore], [HistoryMore], [GrpcMore], [CardMore], [Collecting],
      [AccountSettingsProofs]

    Conventions.  A JavaScript string is a [string]; every [ascii] stands for
    one UTF-16 code unit below 256, so [trim] and [toLowerCase] are the
    ECMAScript ones restricted to that range.  A search that returns [-1] in
    the source returns [None] here.  Numbers that the sources use as
    integers (epoch milliseconds, counts, limits) are [Z].  The stream is
    one whose consumer does not cancel it, so that the calls of its
    controller do not throw. *)

From Stdlib Require Import List ZArith Lia Bool String Ascii Permutation.
From Stdlib Require Import Sorted DecimalString.
Import ListNotations.

Set Warnings "-register-all".


(* ===================================================================== *)
(** ** String primitives                                                  *)
(* ===================================================================== *)

Module JsString.

Local Open Scope string_scope.

Definition code (c : ascii) : N := N_of_ascii c.

(** WhiteSpace and LineTerminator code units below 256:
    TAB, LF, VT, FF, CR, SP and NBSP. *)
Definition isWhiteSpace (c : ascii) : bool :=
  let n := code c in
  (((9 <=? n) && (n <=? 13)) || (n =? 32) || (n =? 160))%N.

Fixpoint trimStart (s : string) : string :=
  match s with
  | EmptyString => EmptyString
  | String c r => if isWhiteSpace c then trimStart r else s
  end.

Fixpoint trimEnd (s : string) : string :=
  match s with
  | EmptyString => EmptyString
  | String c r =>
      match trimEnd r with
      | EmptyString => if isWhiteSpace c then EmptyString else String c EmptyString
      | r' => String c r'
      end
  end.

Definition trim (s : string) : string := trimEnd (trimStart s).

(** Truthiness of a string: non-empty. *)
Definition nonEmpty (s : string) : bool :=
  match s with EmptyString => false | _ => true end.

(** [a || b] on strings. *)
Definition orElse (a b : string) : string := if nonEmpty a then a else b.

(** [toLowerCase] on one code unit below 256: it gives one code unit, so
    that lower-casing keeps every character of such a string at its
    index. *)
Definition lowerChar (c : ascii) : ascii :=
  let n := code c in
  if (((65 <=? n) && (n <=? 90))
      || ((192 <=? n) && (n <=? 222) && negb (n =? 215)))%N
  then ascii_of_N (n + 32) else c.

Fixpoint toLowerCase (s : string) : string :=
  match s with
  | EmptyString => EmptyString
  | String c r => String (lowerChar c) (toLowerCase r)
  end.

Fixpoint startsWith (p s : string) : bool :=
  match p, s with
  | EmptyString, _ => true
  | String a p', String b s' => Ascii.eqb a b && startsWith p' s'
  | String _ _, EmptyString => false
  end.

(** [s.indexOf(needle)]. *)
Fixpoint indexOf (needle s : string) : option nat :=
  if startsWith needle s then Some 0%nat
  else match s with
       | EmptyString => None
       | String _ r => option_map S (indexOf needle r)
       end.

(** [s.lastIndexOf(needle)]. *)
Fixpoint lastIndexOf (needle s : string) : option nat :=
  match s with
  | EmptyString => if startsWith needle s then Some 0%nat else None
  | String _ r =>
      match lastIndexOf needle r with
      | Some i => Some (S i)
      | None => if startsWith needle s then Some 0%nat else None
      end
  end.

Definition includes (needle s : string) : bool :=
  match indexOf needle s with Some _ => true | None => false end.

(** [s.slice(n)] and [s.slice(0, n)] for [0 <= n]. *)
Fixpoint sliceFrom (n : nat) (s : string) : string :=
  match n, s with
  | O, _ => s
  | S n', String _ r => sliceFrom n' r
  | S _, EmptyString => EmptyString
  end.

Fixpoint sliceTo (n : nat) (s : string) : string :=
  match n, s with
  | O, _ => EmptyString
  | S n', String c r => String c (sliceTo n' r)
  | S _, EmptyString => EmptyString
  end.

(** [s.indexOf(needle, from)] for [from <= s.length]. *)
Definition indexOfFrom (needle s : string) (from : nat) : option nat :=
  option_map (Nat.add from) (indexOf needle (sliceFrom from s)).

(** [s.split(sep)] for a one-character separator. *)
Fixpoint splitOn (sep : ascii) (s : string) : list string :=
  match s with
  | EmptyString => [EmptyString]
  | String c r =>
      if Ascii.eqb c sep then EmptyString :: splitOn sep r
      else match splitOn sep r with
           | [] => [String c EmptyString]
           | h :: t => String c h :: t
           end
  end.

(** [parts.join(sep)]. *)
Fixpoint join (sep : string) (parts : list string) : string :=
  match parts with
  | [] => EmptyString
  | [p] => p
  | p :: rest => p ++ sep ++ join sep rest
  end.

Definition LF : ascii := ascii_of_N 10.
Definition CR : ascii := ascii_of_N 13.
Definition nl : string := String LF EmptyString.

(** The double quote, which a string literal cannot hold. *)
Definition dq : string := String (ascii_of_N 34) EmptyString.

(** [s] between double quotes. *)
Definition quoted (s : string) : string := dq ++ s ++ dq.

(** [s.replace(/\r\n/g, "\n")] *)
Fixpoint crlfToLf (s : string) : string :=
  match s with
  | EmptyString => EmptyString
  | String c r =>
      match r with
      | String d r' =>
          if Ascii.eqb c CR && Ascii.eqb d LF then String LF (crlfToLf r')
          else String c (crlfToLf r)
      | EmptyString => s
      end
  end.

(** The outcome of a call that may throw; [message] is the error's text. *)
Inductive Outcome (A : Type) :=
| Returned (a : A)
| Thrown (message : string).
Arguments Returned {A} a.
Arguments Thrown {A} message.

Definition bind {A B : Type} (x : Outcome A) (k : A -> Outcome B) : Outcome B :=
  match x with
  | Returned a => k a
  | Thrown m => Thrown m
  end.

End JsString.

(* ===================================================================== *)
(** ** Conversation store (src/repo/conversations.ts)                     *)
(* ===================================================================== *)

Module Conversations.

Import JsString.
Local Open Scope Z_scope.

Record ConversationRow := {
  scope : string;
  openai_conversation_id : string;
  grok_conversation_id : string;
  last_response_id : string;
  share_link_id : string;
  token : string;
  history_hash : string;
  created_at : Z;
  updated_at : Z;
  expires_at : Z
}.

(** The optional fields of the source are [option]s: [None] is
    [undefined]. *)
Record UpsertConversationInput := {
  in_scope : string;
  in_openai_conversation_id : string;
  in_grok_conversation_id : string;
  in_last_response_id : string;
  in_share_link_id : option string;
  in_token : string;
  in_history_hash : option string;
  in_created_at : option Z;
  in_updated_at : option Z;
  in_expires_at : Z
}.

(** The table [conversations]: its rows in rowid order.  The primary key
    [(scope, openai_conversation_id)] is the invariant [pk_unique]. *)
Definition Table := list ConversationRow.

Definition pk (r : ConversationRow) : string * string :=
  (scope r, openai_conversation_id r).

Definition pk_unique (db : Table) : Prop := NoDup (map pk db).

(** [WHERE scope = ? AND openai_conversation_id = ?] *)
Definition has_pk (s id : string) (r : ConversationRow) : bool :=
  String.eqb (scope r) s && String.eqb (openai_conversation_id r) id.

(** [ON CONFLICT(scope, openai_conversation_id) DO UPDATE SET ...]: the
    seven listed columns take the values of the excluded row. *)
Definition do_update (old excluded : ConversationRow) : ConversationRow :=
  {| scope := scope old;
     openai_conversation_id := openai_conversation_id old;
     grok_conversation_id := grok_conversation_id excluded;
     last_response_id := last_response_id excluded;
     share_link_id := share_link_id excluded;
     token := token excluded;
     history_hash := history_hash excluded;
     created_at := created_at old;
     updated_at := updated_at excluded;
     expires_at := expires_at excluded |}.

(** [INSERT INTO conversations(...) VALUES(...) ON CONFLICT ... DO UPDATE] *)
Definition insert_on_conflict_update (new : ConversationRow) (db : Table) : Table :=
  if existsb (has_pk (scope new) (openai_conversation_id new)) db
  then map (fun r => if has_pk (scope new) (openai_conversation_id new) r
                     then do_update r new else r) db
  else db ++ [new].

(** [String(x ?? "").trim()] *)
Definition trimmedOrEmpty (x : option string) : string :=
  trim (match x with Some s => s | None => EmptyString end).

(** [Number.isFinite(x) ? Number(x) : nowMs()] *)
Definition finiteOr (x : option Z) (nowMs : Z) : Z :=
  match x with Some v => v | None => nowMs end.

(** The row bound to the ten placeholders of the INSERT.  [nowMs] is what
    [nowMs()] returns in both of its calls, taken to fall in the same
    millisecond. *)
Definition bound_row (nowMs : Z) (row : UpsertConversationInput) : ConversationRow :=
  let createdAt := finiteOr (in_created_at row) nowMs in
  let updatedAt := finiteOr (in_updated_at row) nowMs in
  let historyHash := trimmedOrEmpty (in_history_hash row) in
  let shareLink := trimmedOrEmpty (in_share_link_id row) in
  {| scope := in_scope row;
     openai_conversation_id := in_openai_conversation_id row;
     grok_conversation_id := in_grok_conversation_id row;
     last_response_id := in_last_response_id row;
     share_link_id := shareLink;
     token := in_token row;
     history_hash := historyHash;
     created_at := createdAt;
     updated_at := updatedAt;
     expires_at := in_expires_at row |}.

Definition upsertConversation (nowMs : Z) (db : Table)
    (row : UpsertConversationInput) : Table :=
  insert_on_conflict_update (bound_row nowMs row) db.

(** [DELETE FROM conversations WHERE scope = ? AND openai_conversation_id = ?] *)
Definition delete_by_pk (s id : string) (db : Table) : Table :=
  filter (fun r => negb (has_pk s id r)) db.

Definition deleteConversationById (db : Table) (s id : string) : Table :=
  delete_by_pk s id db.

(** [db.batch(deletes)]: the statements run in order. *)
Definition batch_delete (keys : list (string * string)) (db : Table) : Table :=
  fold_left (fun d k => delete_by_pk (fst k) (snd k) d) keys db.

(** [ORDER BY key ASC]: an insertion sort.  SQL leaves the order of rows
    with equal keys open; here they come out in reverse table order. *)
Fixpoint insert_asc (key : ConversationRow -> Z) (r : ConversationRow)
    (l : list ConversationRow) : list ConversationRow :=
  match l with
  | [] => [r]
  | x :: t => if key r <? key x then r :: l else x :: insert_asc key r t
  end.

Definition order_by_asc (key : ConversationRow -> Z) (l : list ConversationRow) :=
  fold_right (insert_asc key) [] l.

(** [ORDER BY key DESC] *)
Definition order_by_desc (key : ConversationRow -> Z) (l : list ConversationRow) :=
  order_by_asc (fun r => - key r) l.

(** [getConversationById]: purge-on-read, then [SELECT ... LIMIT 1]. *)
Definition getConversationById (db : Table) (s id : string) (atMs : Z)
    : Table * option ConversationRow :=
  let db' := filter (fun r => negb (has_pk s id r && (expires_at r <=? atMs))) db in
  (db', find (fun r => has_pk s id r && (atMs <? expires_at r)) db').

(** [x || d] on numbers: [0] is falsy. *)
Definition numOr (x d : Z) : Z := if x =? 0 then d else x.

(** [WHERE expires_at <= ?] *)
Definition expired (atMs : Z) (r : ConversationRow) : bool := expires_at r <=? atMs.

Definition cleanupBatch (limit : Z) : Z := Z.max 1 (Z.min 500 (numOr limit 100)).

(** Returns the table after the batch and the reported count. *)
Definition cleanupExpiredConversations (db : Table) (limit atMs : Z) : Table * Z :=
  let batch := cleanupBatch limit in
  let rows := firstn (Z.to_nat batch)
                (order_by_asc expires_at (filter (expired atMs) db)) in
  match rows with
  | [] => (db, 0)
  | _ => (batch_delete (map pk rows) db, Z.of_nat (List.length rows))
  end.

(** [WHERE scope = ? AND token = ?] *)
Definition for_token (s t : string) (r : ConversationRow) : bool :=
  String.eqb (scope r) s && String.eqb (token r) t.

Definition keepCount (keep : Z) : Z := Z.max 1 (numOr keep 1).

Definition trimConversationsForToken (db : Table) (s t : string) (keep : Z)
    : Table * Z :=
  let keepCount := keepCount keep in
  let rows := map openai_conversation_id
                (order_by_desc updated_at (filter (for_token s t) db)) in
  if Z.of_nat (List.length rows) <=? keepCount then (db, 0)
  else
    let stale := skipn (Z.to_nat keepCount) rows in
    (batch_delete (map (fun id => (s, id)) stale) db, Z.of_nat (List.length stale)).

(** [tokenSuffix]: the last six characters, or the whole token when it is
    shorter. *)
Definition tokenSuffix (token : string) : string :=
  if negb (nonEmpty token) then EmptyString
  else if (6 <=? String.length token)%nat
       then sliceFrom (String.length token - 6) token
       else token.

(** [findConversationByHistoryHash]: nothing is done for a blank hash;
    otherwise the expired rows of the scope are purged, then
    [SELECT ... WHERE scope = ? AND history_hash = ? AND expires_at > ?
     ORDER BY updated_at DESC LIMIT 1]. *)
Definition findConversationByHistoryHash (db : Table) (s historyHash : string)
    (atMs : Z) : Table * option ConversationRow :=
  let hash := trim historyHash in
  if negb (nonEmpty hash) then (db, None)
  else
    let db' := filter (fun r => negb (String.eqb (scope r) s && (expires_at r <=? atMs)))
                      db in
    (db',
     hd_error
       (order_by_desc updated_at
          (filter (fun r => String.eqb (scope r) s && String.eqb (history_hash r) hash
                            && (atMs <? expires_at r)) db'))).

(** [GROUP BY token] with [COUNT(1)]: one group per distinct token. *)
Fixpoint distinct (l : list string) : list string :=
  match l with
  | [] => []
  | x :: t => x :: filter (fun y => negb (String.eqb y x)) (distinct t)
  end.

Definition count_of (x : string) (l : list string) : Z :=
  Z.of_nat (List.length (filter (String.eqb x) l)).

Definition group_by_token (rows : list ConversationRow) : list (string * Z) :=
  let tokens := map token rows in
  map (fun t => (t, count_of t tokens)) (distinct tokens).

(** [ORDER BY c DESC], stable. *)
Fixpoint insert_desc (g : string * Z) (l : list (string * Z)) : list (string * Z) :=
  match l with
  | [] => [g]
  | x :: t => if snd x <? snd g then g :: l else x :: insert_desc g t
  end.

Definition order_by_count_desc (l : list (string * Z)) : list (string * Z) :=
  fold_right insert_desc [] l.

Record TopToken := {
  token_suffix : string;
  count : Z
}.

Record ConversationStats := {
  active_total : Z;
  expired_total : Z;
  top_tokens : list TopToken
}.

(** [Math.max(1, Math.min(100, Math.floor(topN || 20)))] *)
Definition topLimit (topN : Z) : Z := Z.max 1 (Z.min 100 (numOr topN 20)).

Definition getConversationStats (db : Table) (topN atMs : Z) : ConversationStats :=
  let active := filter (fun r => atMs <? expires_at r) db in
  let topRows := firstn (Z.to_nat (topLimit topN))
                   (order_by_count_desc (group_by_token active)) in
  {| active_total := Z.of_nat (List.length active);
     expired_total := Z.of_nat (List.length (filter (expired atMs) db));
     top_tokens := map (fun row => {| token_suffix := tokenSuffix (fst row);
                                      count := snd row |}) topRows |}.

End Conversations.

(* ===================================================================== *)
(** ** History hash (src/repo/conversations.ts, second unit)              *)
(* ===================================================================== *)

Module Sha256.

Local Open Scope N_scope.

Definition w32 (x : N) : N := N.land x 0xFFFFFFFF.
Definition add32 (x y : N) : N := w32 (x + y).
Definition not32 (x : N) : N := N.lxor x 0xFFFFFFFF.
Definition rotr (n x : N) : N :=
  N.lor (N.shiftr x n) (w32 (N.shiftl x (32 - n))).

Definition Ch (x y z : N) : N := N.lxor (N.land x y) (N.land (not32 x) z).
Definition Maj (x y z : N) : N :=
  N.lxor (N.lxor (N.land x y) (N.land x z)) (N.land y z).
Definition Sigma0 (x : N) : N := N.lxor (N.lxor (rotr 2 x) (rotr 13 x)) (rotr 22 x).
Definition Sigma1 (x : N) : N := N.lxor (N.lxor (rotr 6 x) (rotr 11 x)) (rotr 25 x).
Definition sigma0 (x : N) : N := N.lxor (N.lxor (rotr 7 x) (rotr 18 x)) (N.shiftr x 3).
Definition sigma1 (x : N) : N := N.lxor (N.lxor (rotr 17 x) (rotr 19 x)) (N.shiftr x 10).

(** The round constants: the first 32 bits of the fractional parts of the
    cube roots of the first 64 primes. *)
Definition K : list N :=
  [ 1116352408; 1899447441; 3049323471; 3921009573; 961987163;
    1508970993; 2453635748; 2870763221; 3624381080; 310598401;
    607225278; 1426881987; 1925078388; 2162078206; 2614888103;
    3248222580; 3835390401; 4022224774; 264347078; 604807628;
    770255983; 1249150122; 1555081692; 1996064986; 2554220882;
    2821834349; 2952996808; 3210313671; 3336571891; 3584528711;
    113926993; 338241895; 666307205; 773529912; 1294757372;
    1396182291; 1695183700; 1986661051; 2177026350; 2456956037;
    2730485921; 2820302411; 3259730800; 3345764771; 3516065817;
    3600352804; 4094571909; 275423344; 430227734; 506948616;
    659060556; 883997877; 958139571; 1322822218; 1537002063;
    1747873779; 1955562222; 2024104815; 2227730452; 2361852424;
    2428436474; 2756734187; 3204031479; 3329325298 ].

(** The initial hash value: likewise for the square roots of the first 8
    primes. *)
Definition H0 : list N :=
  [ 1779033703; 3144134277; 1013904242; 2773480762;
    1359893119; 2600822924; 528734635; 1541459225 ].

(** Big-endian bytes of [x], [n] of them. *)
Fixpoint be_bytes (n : nat) (x : N) : list N :=
  match n with
  | O => []
  | S n' => N.land (N.shiftr x (8 * N.of_nat n')) 0xFF :: be_bytes n' x
  end.

(** Message padding: a [1] bit, zeros up to 56 mod 64, the bit length. *)
Definition pad (msg : list N) : list N :=
  let len := N.of_nat (List.length msg) in
  let zeros := N.to_nat ((119 - len mod 64) mod 64) in
  msg ++ [0x80] ++ repeat 0 zeros ++ be_bytes 8 (8 * len).

Fixpoint words (fuel : nat) (bytes : list N) : list N :=
  match fuel, bytes with
  | S f, a :: b :: c :: d :: rest =>
      (N.shiftl a 24 + N.shiftl b 16 + N.shiftl c 8 + d) :: words f rest
  | _, _ => []
  end.

Fixpoint blocks (fuel : nat) (ws : list N) : list (list N) :=
  match fuel, ws with
  | S f, _ :: _ => firstn 16 ws :: blocks f (skipn 16 ws)
  | _, _ => []
  end.

(** The message schedule, most recent word first. *)
Fixpoint schedule (n : nat) (rev_w : list N) : list N :=
  match n with
  | O => rev_w
  | S n' =>
      let w := add32 (add32 (sigma1 (nth 1 rev_w 0)) (nth 6 rev_w 0))
                     (add32 (sigma0 (nth 14 rev_w 0)) (nth 15 rev_w 0)) in
      schedule n' (w :: rev_w)
  end.

Definition round (st : list N) (kw : N * N) : list N :=
  match st with
  | [a; b; c; d; e; f; g; h] =>
      let t1 := add32 (add32 (add32 h (Sigma1 e)) (add32 (Ch e f g) (fst kw))) (snd kw) in
      let t2 := add32 (Sigma0 a) (Maj a b c) in
      [add32 t1 t2; a; b; c; add32 d t1; e; f; g]
  | _ => st
  end.

Definition compress (h : list N) (block : list N) : list N :=
  let w := rev (schedule 48 (rev block)) in
  map (fun p => add32 (fst p) (snd p))
      (combine h (fold_left round (combine K w) h)).

Definition sha256 (msg : list N) : list N :=
  let bytes := pad msg in
  let ws := words (List.length bytes) bytes in
  fold_left compress (blocks (List.length ws) ws) H0.

Definition hexDigit (d : N) : ascii :=
  if d <? 10 then ascii_of_N (48 + d) else ascii_of_N (87 + d).

Fixpoint hex (n : nat) (x : N) : string :=
  match n with
  | O => EmptyString
  | S n' => String (hexDigit (N.land (N.shiftr x (4 * N.of_nat n')) 0xF)) (hex n' x)
  end.

(** [TextEncoder.encode] on code units below 256. *)
Fixpoint utf8 (s : string) : list N :=
  match s with
  | EmptyString => []
  | String c r =>
      let n := N_of_ascii c in
      if n <? 128 then n :: utf8 r
      else (0xC0 + N.shiftr n 6) :: (0x80 + N.land n 0x3F) :: utf8 r
  end.

(** Modelled from the spec: [sha256Hex] of [./crypto] is not among the
    sources; the specification names it as SHA-256 rendered in lowercase
    hex over the UTF-8 bytes of the input (FIPS 180-4). *)
Definition sha256Hex (s : string) : string :=
  fold_right (fun w acc => (hex 8 w ++ acc)%string) EmptyString (sha256 (utf8 s)).

End Sha256.

Module History.

Import JsString.
Local Open Scope string_scope.

(** An element of array content: [type] and [text], each possibly absent. *)
Record ContentItem := {
  item_type : option string;
  item_text : option string
}.

Inductive MessageContent :=
| ContentString (s : string)
| ContentArray (items : list ContentItem)
| ContentAbsent.

Record GenericMessage := {
  role : option string;
  content : MessageContent
}.

(** [x ?? ""] *)
Definition orEmpty (x : option string) : string :=
  match x with Some s => s | None => "" end.

Definition isText (item : ContentItem) : bool :=
  match item_type item with Some t => String.eqb t "text" | None => false end.

(** The loop of [extractText] over the items, [parts] being the array
    built so far. *)
Fixpoint extractItems (items : list ContentItem) (parts : list string) : list string :=
  match items with
  | [] => parts
  | item :: rest =>
      if negb (isText item) then extractItems rest parts
      else
        let text := orEmpty (item_text item) in
        if nonEmpty (trim text) then extractItems rest (parts ++ [text])%list
        else extractItems rest parts
  end.

Definition extractText (c : MessageContent) : string :=
  match c with
  | ContentString s => s
  | ContentArray items => join "" (extractItems items [])
  | ContentAbsent => ""
  end.

(** The three locals of [computeHistoryHash] that its loop updates. *)
Record Parts := {
  systemParts : list string;
  userParts : list string;
  hasAssistant : bool
}.

(** One iteration of [for (const msg of messages)]. *)
Definition visit (st : Parts) (msg : GenericMessage) : Parts :=
  let role := orEmpty (role msg) in
  if String.eqb role "assistant" then
    {| systemParts := systemParts st; userParts := userParts st; hasAssistant := true |}
  else
    let text := trim (extractText (content msg)) in
    if negb (nonEmpty text) then st
    else if String.eqb role "system" then
      {| systemParts := (systemParts st ++ [("system:" ++ text)%string])%list;
         userParts := userParts st; hasAssistant := hasAssistant st |}
    else if String.eqb role "user" then
      {| systemParts := systemParts st;
         userParts := (userParts st ++ [("user:" ++ text)%string])%list;
         hasAssistant := hasAssistant st |}
    else st.

Definition computeHistoryHash (messages : list GenericMessage)
    (excludeLastUser : bool) : string :=
  match messages with
  | [] => ""
  | _ =>
      let st := fold_left visit messages
                  {| systemParts := []; userParts := []; hasAssistant := false |} in
      let usedUsers :=
        if excludeLastUser && hasAssistant st && (0 <? List.length (userParts st))%nat
        then firstn (List.length (userParts st) - 1) (userParts st)
        else userParts st in
      let parts := (systemParts st ++ usedUsers)%list in
      match parts with
      | [] => ""
      | _ => Sha256.sha256Hex (join nl parts)
      end
  end.

End History.

(* ===================================================================== *)
(** ** gRPC-Web codec (the third unit of src/unnamed/part_000)            *)
(* ===================================================================== *)

Module GrpcWeb.

Import JsString.
Local Open Scope Z_scope.

(** A [Uint8Array]. *)
Definition Bytes := list Byte.byte.

Definition byteToZ (b : Byte.byte) : Z := Z.of_N (Byte.to_N b).

(** Storing a number into a [Uint8Array] keeps its low eight bits. *)
Definition byteOfZ (z : Z) : Byte.byte :=
  match Byte.of_N (Z.to_N (Z.land z 255)) with
  | Some b => b
  | None => Byte.x00
  end.

(** [ToInt32]: the value of the low 32 bits read as a signed integer. *)
Definition toInt32 (z : Z) : Z := (z + 2 ^ 31) mod 2 ^ 32 - 2 ^ 31.

(** [x >>> n] on a length: [ToUint32] then a logical shift. *)
Definition ushr (x n : Z) : Z := Z.shiftr (x mod 2 ^ 32) n.

(** [x << n] and [x | y] on 32-bit integers. *)
Definition shl32 (x n : Z) : Z := toInt32 (Z.shiftl x n).
Definition or32 (x y : Z) : Z := toInt32 (Z.lor x y).

(** The platform functions the codec calls: [TextDecoder.decode], [atob]
    (its binary string as bytes; [None] when it throws),
    [decodeURIComponent] ([None] when it throws) and, for
    [parseGrpcStatus], [Number(raw)] when [Number.isInteger] accepts it. *)
Record Platform := {
  textDecode : Bytes -> string;
  atob : string -> option Bytes;
  decodeURIComponent : string -> option string;
  integerOf : string -> option Z
}.

Record GrpcWebParseResult := {
  messages : list Bytes;
  trailers : list (string * string);
  grpc_status : option Z;
  grpc_message : string
}.

(** A [Record<string, string>], as property lists: lookup and assignment,
    for keys other than [__proto__] and the array indices, which a
    JavaScript object treats apart. *)
Fixpoint getProp (key : string) (o : list (string * string)) : option string :=
  match o with
  | [] => None
  | (k, v) :: rest => if String.eqb k key then Some v else getProp key rest
  end.

Fixpoint setProp (key value : string) (o : list (string * string))
    : list (string * string) :=
  match o with
  | [] => [(key, value)]
  | (k, v) :: rest =>
      if String.eqb k key then (k, value) :: rest
      else (k, v) :: setProp key value rest
  end.

(** [Object.assign(target, source)] *)
Definition assign (target source : list (string * string)) : list (string * string) :=
  fold_left (fun o kv => setProp (fst kv) (snd kv) o) source target.

(** [readHeader] on a plain record of headers ([None]: no headers given). *)
Fixpoint findHeader (key : string) (headers : list (string * string)) : string :=
  match headers with
  | [] => EmptyString
  | (k, v) :: rest =>
      if String.eqb (toLowerCase k) key then trim v else findHeader key rest
  end.

Definition readHeader (headers : option (list (string * string))) (name : string)
    : string :=
  match headers with
  | None => EmptyString
  | Some hs => findHeader (toLowerCase name) hs
  end.

Definition decodeGrpcMessage (p : Platform) (value : string) : string :=
  let raw := trim value in
  if negb (nonEmpty raw) then EmptyString
  else match decodeURIComponent p raw with
       | Some s => s
       | None => raw
       end.

(** The character class of [BASE64_BODY_RE]. *)
Definition isBase64Char (b : Byte.byte) : bool :=
  let n := byteToZ b in
  ((65 <=? n) && (n <=? 90)) || ((97 <=? n) && (n <=? 122))
  || ((48 <=? n) && (n <=? 57))
  || (n =? 43) || (n =? 47) || (n =? 61) || (n =? 13) || (n =? 10).

Definition isProbablyBase64Body (body : Bytes) : bool :=
  match body with
  | [] => false
  | _ => forallb isBase64Char (firstn 1024 body)
  end.

(** [text.replace(/\s+/g, "")] *)
Fixpoint stripWhiteSpace (s : string) : string :=
  match s with
  | EmptyString => EmptyString
  | String c r => if isWhiteSpace c then stripWhiteSpace r
                  else String c (stripWhiteSpace r)
  end.

Definition maybeDecodeGrpcWebText (p : Platform) (body : Bytes)
    (contentType : string) : Bytes :=
  let contentTypeLower := toLowerCase contentType in
  let shouldDecodeText := includes "grpc-web-text" contentTypeLower in
  let shouldTryHeuristic := negb shouldDecodeText && isProbablyBase64Body body in
  if negb shouldDecodeText && negb shouldTryHeuristic then body
  else
    let compact := stripWhiteSpace (textDecode p body) in
    if negb (nonEmpty compact) then body
    else match atob p compact with
         | Some decoded => decoded
         | None => body
         end.

(** [text.split(/\r?\n/)]: split at line feeds, a carriage return just
    before one being part of the separator. *)
Fixpoint dropFinalCR (s : string) : string :=
  match s with
  | EmptyString => EmptyString
  | String c EmptyString => if Ascii.eqb c CR then EmptyString else s
  | String c r => String c (dropFinalCR r)
  end.

Fixpoint dropSeparatorCRs (pieces : list string) : list string :=
  match pieces with
  | [] => []
  | [last] => [last]
  | piece :: rest => dropFinalCR piece :: dropSeparatorCRs rest
  end.

Definition splitLines (text : string) : list string :=
  dropSeparatorCRs (splitOn LF text).

Definition parseTrailerLine (p : Platform) (trailers : list (string * string))
    (line : string) : list (string * string) :=
  match indexOf ":" line with
  | None => trailers
  | Some index =>
      let key := toLowerCase (trim (sliceTo index line)) in
      let value := trim (sliceFrom (S index) line) in
      if negb (nonEmpty key) then trailers
      else setProp key
             (if String.eqb key "grpc-message" then decodeGrpcMessage p value else value)
             trailers
  end.

Definition parseTrailerBlock (p : Platform) (payload : Bytes) : list (string * string) :=
  fold_left (parseTrailerLine p) (splitLines (textDecode p payload)) [].

Definition parseGrpcStatus (p : Platform) (value : string) : option Z :=
  let raw := trim value in
  if negb (nonEmpty raw) then None else integerOf p raw.

Definition encodeGrpcWebFrame (payload : Bytes) : Bytes :=
  let length := Z.of_nat (List.length payload) in
  Byte.x00
    :: byteOfZ (Z.land (ushr length 24) 255)
    :: byteOfZ (Z.land (ushr length 16) 255)
    :: byteOfZ (Z.land (ushr length 8) 255)
    :: byteOfZ (Z.land (length mod 2 ^ 32) 255)
    :: payload.

(** [body[i] ?? 0] *)
Definition at_ (body : Bytes) (i : nat) : Z := byteToZ (nth i body Byte.x00).

(** The four length bytes after the flag at [offset], combined as the loop
    does: [(b1 << 24) | (b2 << 16) | (b3 << 8) | b4]. *)
Definition frameLength (body : Bytes) (offset : nat) : Z :=
  or32 (or32 (or32 (shl32 (at_ body (offset + 1)) 24)
                   (shl32 (at_ body (offset + 2)) 16))
             (shl32 (at_ body (offset + 3)) 8))
       (at_ body (offset + 4)).

Inductive Walk :=
| Walked (messages : list Bytes) (trailers : list (string * string))
| Unsupported (message : string)
| OutOfFuel.

(** The [while (offset + 5 <= decodedBody.length)] loop; every turn moves
    [offset] by five or more, so [fuel] turns suffice once [fuel] exceeds
    the body length. *)
Fixpoint walk (p : Platform) (fuel : nat) (body : Bytes) (offset : nat)
    (messages : list Bytes) (trailers : list (string * string)) : Walk :=
  if Z.of_nat offset + 5 <=? Z.of_nat (List.length body) then
    match fuel with
    | O => OutOfFuel
    | S fuel' =>
        let flag := at_ body offset in
        let length := frameLength body offset in
        let offset := (offset + 5)%nat in
        if (length <? 0) || (Z.of_nat (List.length body) <? Z.of_nat offset + length)
        then Walked messages trailers
        else
          let payload := firstn (Z.to_nat length) (skipn offset body) in
          let offset := (offset + Z.to_nat length)%nat in
          if negb (Z.land flag 128 =? 0) then
            walk p fuel' body offset messages (assign trailers (parseTrailerBlock p payload))
          else if negb (Z.land flag 1 =? 0) then
            Unsupported "grpc-web compressed frame is not supported"
          else walk p fuel' body offset (messages ++ [payload]) trailers
    end
  else Walked messages trailers.

Definition truthy (x : option string) : bool :=
  match x with Some s => nonEmpty s | None => false end.

Definition orEmpty (x : option string) : string :=
  match x with Some s => s | None => EmptyString end.

(** [args.contentType ?? readHeader(sourceHeaders, "content-type")] and the
    rest of [parseGrpcWebResponse]; [Thrown] is the compressed-frame error. *)
Definition parseGrpcWebResponse (p : Platform) (body : Bytes)
    (headers : option (list (string * string))) (contentTypeArg : option string)
    : Outcome GrpcWebParseResult :=
  let sourceHeaders := headers in
  let contentType :=
    match contentTypeArg with
    | Some c => c
    | None => readHeader sourceHeaders "content-type"
    end in
  let decodedBody := maybeDecodeGrpcWebText p body contentType in
  match walk p (S (List.length decodedBody)) decodedBody 0 [] [] with
  | OutOfFuel => Thrown "out of fuel"
  | Unsupported m => Thrown m
  | Walked messages trailers =>
      let trailers :=
        if negb (truthy (getProp "grpc-status" trailers)) then
          let headerStatus := readHeader sourceHeaders "grpc-status" in
          if nonEmpty headerStatus then setProp "grpc-status" headerStatus trailers
          else trailers
        else trailers in
      let trailers :=
        if negb (truthy (getProp "grpc-message" trailers)) then
          let headerMessage := readHeader sourceHeaders "grpc-message" in
          if nonEmpty headerMessage
          then setProp "grpc-message" (decodeGrpcMessage p headerMessage) trailers
          else trailers
        else trailers in
      Returned {| messages := messages;
                  trailers := trailers;
                  grpc_status := parseGrpcStatus p (orEmpty (getProp "grpc-status" trailers));
                  grpc_message := orEmpty (getProp "grpc-message" trailers) |}
  end.

End GrpcWeb.

(* ===================================================================== *)
(** ** JSON values                                                        *)
(* ===================================================================== *)

Module Json.

Import JsString.
Local Open Scope string_scope.

(** What [JSON.parse] returns.  Numbers are integers; the properties of an
    object come in [Object.keys] order, each key once. *)
Inductive value :=
| JNull
| JBool (b : bool)
| JNum (n : Z)
| JStr (s : string)
| JArr (items : list value)
| JObj (props : list (string * value)).

(** [String(n)] for an integer below [1e21] in absolute value. *)
Definition numberToString (n : Z) : string :=
  DecimalString.NilZero.string_of_int (Z.to_int n).

(** Truthiness; [None] is [undefined]. *)
Definition truthy (v : option value) : bool :=
  match v with
  | None | Some JNull => false
  | Some (JBool b) => b
  | Some (JNum n) => negb (Z.eqb n 0)
  | Some (JStr s) => nonEmpty s
  | Some (JArr _) | Some (JObj _) => true
  end.

Fixpoint lookup (name : string) (props : list (string * value)) : option value :=
  match props with
  | [] => None
  | (k, v) :: rest => if String.eqb k name then Some v else lookup name rest
  end.

(** [v.name] for a [v] that is neither [null] nor [undefined]: none of the
    names the sources read is a property of a string, number, boolean or
    array. *)
Definition prop (name : string) (v : value) : option value :=
  match v with
  | JObj props => lookup name props
  | _ => None
  end.

(** [v?.name] *)
Definition optProp (name : string) (v : option value) : option value :=
  match v with
  | None | Some JNull => None
  | Some w => prop name w
  end.

(** [asObj] / [asObject]: the value when it is an object that is no array. *)
Definition asObj (v : option value) : option (list (string * value)) :=
  match v with
  | Some (JObj props) => Some props
  | _ => None
  end.

(** [typeof v === "string" ? v : absent] *)
Definition asString (v : option value) : option string :=
  match v with
  | Some (JStr s) => Some s
  | _ => None
  end.

(** [asStr]: the trimmed string, or the empty string for any other value. *)
Definition asStr (v : option value) : string :=
  match asString v with Some s => trim s | None => "" end.

(** [String(v)] *)
Fixpoint toString (v : value) : string :=
  match v with
  | JNull => "null"
  | JBool true => "true"
  | JBool false => "false"
  | JNum n => numberToString n
  | JStr s => s
  | JArr items =>
      join "," (map (fun item => match item with JNull => "" | _ => toString item end) items)
  | JObj _ => "[object Object]"
  end.

End Json.

(* ===================================================================== *)
(** ** Tool-usage cards (the second unit of src/grok/rateLimits.ts)       *)
(* ===================================================================== *)

Module ToolUsageCard.

Import JsString Json.
Local Open Scope string_scope.

Record ToolUsageCard := {
  rolloutId : string;
  type : string;
  content : string
}.

Record ToolUsageCardConsumeOptions := {
  emitLines : bool;
  fallbackRolloutId : option string
}.

Record ToolUsageCardConsumeResult := {
  text : string;
  lines : list string
}.

Definition TOOL_USAGE_OPEN : string := "<xai:tool_usage_card".
Definition TOOL_USAGE_CLOSE : string := "</xai:tool_usage_card>".
Definition TOOL_NAME_OPEN : string := "<xai:tool_name>".
Definition TOOL_NAME_CLOSE : string := "</xai:tool_name>".
Definition TOOL_ARGS_OPEN : string := "<xai:tool_args>".
Definition TOOL_ARGS_CLOSE : string := "</xai:tool_args>".
Definition CDATA_OPEN : string := "<![cdata[".
Definition CDATA_CLOSE : string := "]]>".
Definition PARTIAL_MARKER : string := "<xai:".

Definition ROLLOUT_KEYS : list string :=
  ["rollout_id"; "rolloutid"; "rollout-id"; "rollout"].

Definition METADATA_KEYS : list string :=
  ["id"; "tool"; "tool_name"; "name"; "type"] ++ ROLLOUT_KEYS.

Definition normalizeText (value : string) : string := trim (crlfToLf value).

Definition asScalarText (v : value) : string :=
  match v with
  | JStr s => trim s
  | JNum n => numberToString n
  | JBool true => "true"
  | JBool false => "false"
  | _ => ""
  end.

Definition isOneOf (s : string) (l : list string) : bool :=
  existsb (String.eqb s) l.

Definition normalizeToolType (toolName : string) : string :=
  let raw := trim toolName in
  let normalized := toLowerCase raw in
  if isOneOf normalized ["web_search"; "web-search"; "websearch"] then "WebSearch"
  else if isOneOf normalized
            ["search_image"; "search_images"; "search-image"; "searchimage"; "image_search"]
  then "SearchImage"
  else if isOneOf normalized
            ["agent_think"; "agent-think"; "agentthink"; "chatroom_send"; "chatroom-send"]
  then "AgentThink"
  else orElse raw "Unknown".

Section WithJsonParse.

(** [JSON.parse]; [None] when it throws. *)
Variable JSON_parse : string -> option value.

Definition parseToolArgs (raw : string) : value :=
  let text := trim raw in
  if negb (nonEmpty text) then JStr ""
  else match JSON_parse text with
       | Some v => v
       | None => JStr text
       end.

End WithJsonParse.

(** The first non-empty string of a list, else the empty string: the
    [if (found) return found] of the search loops. *)
Fixpoint firstFound (l : list (Outcome string)) : Outcome string :=
  match l with
  | [] => Returned ""
  | x :: rest =>
      bind x (fun s => if nonEmpty s then Returned s else firstFound rest)
  end.

(** The value of [keys] in [findByPreferredKeys]: an array of names, or a
    value that [for ... of] cannot iterate. *)
Inductive PreferredKeys :=
| Keys (names : list string)
| NotIterable.

(** [v.map((item) => asScalarText(item)).filter(Boolean).join(", ").trim()] *)
Definition joinedScalars (items : list value) : string :=
  trim (join ", " (filter nonEmpty (map asScalarText items))).

(** The inner [for (const entryKey of Object.keys(obj))] for one [key]. *)
Fixpoint directHitFor (key : string) (props : list (string * value)) : option string :=
  match props with
  | [] => None
  | (entryKey, v) :: rest =>
      if negb (String.eqb (toLowerCase entryKey) (toLowerCase key))
      then directHitFor key rest
      else
        let direct := asScalarText v in
        if nonEmpty direct then Some direct
        else match v with
             | JArr items =>
                 let joined := joinedScalars items in
                 if nonEmpty joined then Some joined else directHitFor key rest
             | _ => directHitFor key rest
             end
  end.

(** The outer [for (const key of keys)]. *)
Fixpoint directHit (keys : list string) (props : list (string * value)) : option string :=
  match keys with
  | [] => None
  | key :: rest =>
      match directHitFor key props with
      | Some s => Some s
      | None => directHit rest props
      end
  end.

(** [findByPreferredKeys]; the recursion stops at [depth > 6], so [fuel]
    eight is enough from depth zero. *)
Fixpoint findByPreferredKeys (fuel : nat) (v : value) (keys : PreferredKeys)
    (depth : nat) : Outcome string :=
  match fuel with
  | O => Returned ""
  | S fuel' =>
      if (6 <? depth)%nat then Returned ""
      else if nonEmpty (asScalarText v) && (0 <? depth)%nat then Returned ""
      else
        match v with
        | JArr items =>
            firstFound
              (map (fun item => findByPreferredKeys fuel' item keys (depth + 1)) items)
        | JObj props =>
            match keys with
            | NotIterable => Thrown "keys is not iterable"
            | Keys names =>
                match directHit names props with
                | Some s => Returned s
                | None =>
                    firstFound
                      (map (fun kv => findByPreferredKeys fuel' (snd kv) keys (depth + 1))
                           props)
                end
            end
        | _ => Returned ""
        end
  end.

Fixpoint firstNonEmpty (l : list string) : string :=
  match l with
  | [] => ""
  | s :: rest => if nonEmpty s then s else firstNonEmpty rest
  end.

Fixpoint findFirstScalar (fuel : nat) (v : value) (depth : nat) : string :=
  match fuel with
  | O => ""
  | S fuel' =>
      if (6 <? depth)%nat then ""
      else
        let direct := asScalarText v in
        if nonEmpty direct then direct
        else
          match v with
          | JArr items =>
              firstNonEmpty (map (fun item => findFirstScalar fuel' item (depth + 1)) items)
          | JObj props =>
              firstNonEmpty
                (map (fun kv => findFirstScalar fuel' (snd kv) (depth + 1))
                     (filter (fun kv => negb (isOneOf (toLowerCase (fst kv)) METADATA_KEYS))
                             props))
          | _ => ""
          end
  end.

Definition resolveRolloutId (parsedArgs : value) (fallbackRolloutId : string)
    : Outcome string :=
  bind (findByPreferredKeys 8 parsedArgs (Keys ROLLOUT_KEYS) 0) (fun fromArgs =>
  if nonEmpty fromArgs then Returned fromArgs
  else Returned (orElse (trim fallbackRolloutId) "-")).

(** The names every object literal inherits from [Object.prototype]. *)
Definition OBJECT_PROTOTYPE_NAMES : list string :=
  ["constructor"; "toString"; "toLocaleString"; "valueOf"; "hasOwnProperty";
   "isPrototypeOf"; "propertyIsEnumerable"; "__proto__"; "__defineGetter__";
   "__defineSetter__"; "__lookupGetter__"; "__lookupSetter__"].

(** [keysByType[type] ?? [...]]: [keysByType] is an object literal, so a
    [type] that names an inherited property yields that property, and it
    is neither nullish nor iterable. *)
Definition preferredKeysFor (type : string) : PreferredKeys :=
  if String.eqb type "WebSearch"
  then Keys ["query"; "queries"; "keyword"; "keywords"; "prompt"; "text"]
  else if String.eqb type "SearchImage"
  then Keys ["query"; "prompt"; "description"; "keyword"; "keywords"; "text"]
  else if String.eqb type "AgentThink"
  then Keys ["thought"; "reason"; "reasoning"; "content"; "text"; "summary"; "plan"]
  else if isOneOf type OBJECT_PROTOTYPE_NAMES then NotIterable
  else Keys ["content"; "text"; "query"; "prompt"; "message"].

Definition resolveContent (type : string) (parsedArgs : value) (rawArgs : string)
    : Outcome string :=
  let preferredKeys := preferredKeysFor type in
  bind (findByPreferredKeys 8 parsedArgs preferredKeys 0) (fun preferred =>
  if nonEmpty preferred then Returned (normalizeText preferred)
  else
    let fallback := findFirstScalar 8 parsedArgs 0 in
    if nonEmpty fallback then Returned (normalizeText fallback)
    else Returned (normalizeText rawArgs)).

Definition formatCardLine (card : ToolUsageCard) : string :=
  let prefix := "[" ++ orElse (rolloutId card) "-" ++ "][" ++ type card ++ "]" in
  let text := normalizeText (content card) in
  if negb (nonEmpty text) then prefix
  else
    match filter nonEmpty (map trim (splitOn LF text)) with
    | [] => prefix
    | lines => join nl (map (fun line => prefix ++ " " ++ line) lines)
    end.

(** *** The two patterns of [parseCard]

    [/<xai:tool_name>\s*([^<]+?)\s*<\/xai:tool_name>/i]: neither [\s] nor
    [[^<]] takes a [<], so at a given opening tag the closing tag has to
    stand at the next [<]; the group is the text in between without its
    outer whitespace, or its last character when it is all whitespace. *)

Fixpoint untilLt (s : string) : option (string * string) :=
  match s with
  | EmptyString => None
  | String c r =>
      if Ascii.eqb c "<"%char then Some (EmptyString, s)
      else match untilLt r with
           | Some (t, rest) => Some (String c t, rest)
           | None => None
           end
  end.

Fixpoint lastCharOf (s : string) : string :=
  match s with
  | EmptyString => EmptyString
  | String c EmptyString => s
  | String _ r => lastCharOf r
  end.

(** The group when the opening tag ends just before [s]. *)
Definition toolNameAt (s : string) : option string :=
  match untilLt s with
  | Some (between, rest) =>
      if nonEmpty between && startsWith TOOL_NAME_CLOSE (toLowerCase rest)
      then Some (if nonEmpty (trim between) then trim between else lastCharOf between)
      else None
  | None => None
  end.

(** The leftmost match: group 1 of the tool-name pattern. *)
Fixpoint matchToolName (s : string) : option string :=
  match (if startsWith TOOL_NAME_OPEN (toLowerCase s)
         then toolNameAt (sliceFrom (String.length TOOL_NAME_OPEN) s) else None) with
  | Some g => Some g
  | None => match s with
            | EmptyString => None
            | String _ r => matchToolName r
            end
  end.

(** [/<xai:tool_args>\s*<!\[CDATA\[([\s\S]*?)\]\]>\s*<\/xai:tool_args>/i]:
    the lazy group ends at the first [\]\]>] that whitespace and the closing
    tag follow. *)
Fixpoint cdataBody (s : string) : option string :=
  if startsWith CDATA_CLOSE s
     && startsWith TOOL_ARGS_CLOSE
          (toLowerCase (trimStart (sliceFrom (String.length CDATA_CLOSE) s)))
  then Some EmptyString
  else match s with
       | EmptyString => None
       | String c r => match cdataBody r with
                       | Some body => Some (String c body)
                       | None => None
                       end
       end.

Definition toolArgsAt (s : string) : option string :=
  let s' := trimStart s in
  if startsWith CDATA_OPEN (toLowerCase s')
  then cdataBody (sliceFrom (String.length CDATA_OPEN) s')
  else None.

(** The leftmost match: group 1 of the tool-args pattern. *)
Fixpoint matchToolArgs (s : string) : option string :=
  match (if startsWith TOOL_ARGS_OPEN (toLowerCase s)
         then toolArgsAt (sliceFrom (String.length TOOL_ARGS_OPEN) s) else None) with
  | Some g => Some g
  | None => match s with
            | EmptyString => None
            | String _ r => matchToolArgs r
            end
  end.

Definition dropPrefix (p s : string) : string :=
  if startsWith p s then sliceFrom (String.length p) s else s.

Fixpoint dropSuffix (suffix s : string) : string :=
  if String.eqb s suffix then EmptyString
  else match s with
       | EmptyString => EmptyString
       | String c r => String c (dropSuffix suffix r)
       end.

(** [s.replace(/^<!\[CDATA\[|\]\]>$/g, "")] *)
Definition stripCdataWrappers (s : string) : string :=
  dropSuffix "]]>" (dropPrefix "<![CDATA[" s).

Section Parser.

Variable JSON_parse : string -> option value.

(** [null] is [Returned None]. *)
Definition parseCard (fragment fallbackRolloutId : string)
    : Outcome (option ToolUsageCard) :=
  match matchToolName fragment, matchToolArgs fragment with
  | Some toolMatch1, Some argsMatch1 =>
      if negb (nonEmpty toolMatch1) || negb (nonEmpty argsMatch1) then Returned None
      else
        let toolName := trim (stripCdataWrappers toolMatch1) in
        if negb (nonEmpty toolName) then Returned None
        else
          let rawArgs := trim argsMatch1 in
          let parsedArgs := parseToolArgs JSON_parse rawArgs in
          let type := normalizeToolType toolName in
          bind (resolveRolloutId parsedArgs fallbackRolloutId) (fun rolloutId =>
          bind (resolveContent type parsedArgs rawArgs) (fun content =>
          Returned (Some {| rolloutId := rolloutId; type := type; content := content |})))
  | _, _ => Returned None
  end.

Definition findCardStart (buffer : string) : option nat :=
  let lower := toLowerCase buffer in
  let usageIdx := indexOf TOOL_USAGE_OPEN lower in
  let nameIdx := indexOf TOOL_NAME_OPEN lower in
  match usageIdx, nameIdx with
  | None, _ => nameIdx
  | _, None => usageIdx
  | Some u, Some n => Some (Nat.min u n)
  end.

Definition findPartialStart (buffer : string) : option nat :=
  let lower := toLowerCase buffer in
  match lastIndexOf PARTIAL_MARKER lower with
  | None => None
  | Some idx => if (64 <? String.length lower - idx)%nat then None else Some idx
  end.

(** The fragment and its end, or [None] for [null]. *)
Definition extractCardFragment (buffer : string) : option (string * nat) :=
  let lower := toLowerCase buffer in
  if startsWith TOOL_USAGE_OPEN lower then
    match indexOf TOOL_USAGE_CLOSE lower with
    | None => None
    | Some closeIdx =>
        let end_ := (closeIdx + String.length TOOL_USAGE_CLOSE)%nat in
        Some (sliceTo end_ buffer, end_)
    end
  else if startsWith TOOL_NAME_OPEN lower then
    match indexOf TOOL_NAME_CLOSE lower with
    | None => None
    | Some nameCloseIdx =>
        match indexOfFrom TOOL_ARGS_CLOSE lower
                (nameCloseIdx + String.length TOOL_NAME_CLOSE) with
        | None => None
        | Some argsCloseIdx =>
            let end_ := (argsCloseIdx + String.length TOOL_ARGS_CLOSE)%nat in
            let trailing := sliceFrom end_ buffer in
            let trimmedLeading :=
              (String.length trailing - String.length (trimStart trailing))%nat in
            let maybeUsageClose :=
              toLowerCase (sliceTo (String.length TOOL_USAGE_CLOSE)
                                   (sliceFrom trimmedLeading trailing)) in
            let end_ :=
              if String.eqb maybeUsageClose TOOL_USAGE_CLOSE
              then (end_ + (trimmedLeading + String.length TOOL_USAGE_CLOSE))%nat
              else end_ in
            Some (sliceTo end_ buffer, end_)
        end
    end
  else None.

(** What a call leaves behind: its result, or the error it threw, and the
    parser's buffer afterwards. *)
Record Consumed := {
  result : Outcome ToolUsageCardConsumeResult;
  parserBuffer : string
}.

(** The [while (this.buffer)] loop of [consume].  Every turn that does not
    leave the loop shortens the buffer, so [fuel] above its length is
    enough. *)
Fixpoint consumeLoop (fuel : nat) (opts : ToolUsageCardConsumeOptions)
    (fallbackRolloutId : string) (buffer : string)
    (outText outLines : list string) : Consumed :=
  let finished buffer outText :=
    {| result := Returned {| text := join "" outText; lines := outLines |};
       parserBuffer := buffer |} in
  match fuel with
  | O => finished buffer outText
  | S fuel' =>
      if negb (nonEmpty buffer) then finished buffer outText
      else
        match findCardStart buffer with
        | None =>
            match findPartialStart buffer with
            | None => finished EmptyString (outText ++ [buffer])%list
            | Some O => finished buffer outText
            | Some partialStart =>
                finished (sliceFrom partialStart buffer)
                         (outText ++ [sliceTo partialStart buffer])%list
            end
        | Some (S _ as start) =>
            consumeLoop fuel' opts fallbackRolloutId (sliceFrom start buffer)
              (outText ++ [sliceTo start buffer])%list outLines
        | Some O =>
            match extractCardFragment buffer with
            | None => finished buffer outText
            | Some (fragment, end_) =>
                match parseCard fragment fallbackRolloutId with
                | Thrown m => {| result := Thrown m; parserBuffer := buffer |}
                | Returned None =>
                    consumeLoop fuel' opts fallbackRolloutId (sliceFrom end_ buffer)
                      (outText ++ [fragment])%list outLines
                | Returned (Some card) =>
                    consumeLoop fuel' opts fallbackRolloutId (sliceFrom end_ buffer)
                      outText
                      (if emitLines opts then (outLines ++ [formatCardLine card])%list
                       else outLines)
                end
            end
        end
  end.

(** [parser.consume(input, opts)] on a parser whose buffer is [buffer]. *)
Definition consume (buffer : string) (input : string)
    (opts : ToolUsageCardConsumeOptions) : Consumed :=
  let buffer := if nonEmpty input then buffer ++ input else buffer in
  let fallbackRolloutId :=
    trim (match fallbackRolloutId opts with Some s => s | None => EmptyString end) in
  consumeLoop (S (String.length buffer)) opts fallbackRolloutId buffer [] [].

(** [parser.flush({ ...opts, emitIncompleteAsText })] *)
Definition flush (buffer : string) (opts : ToolUsageCardConsumeOptions)
    (emitIncompleteAsText : bool) : Consumed :=
  let c := consume buffer EmptyString opts in
  match result c with
  | Thrown m => c
  | Returned r =>
      if emitIncompleteAsText && nonEmpty (parserBuffer c)
      then {| result := Returned {| text := text r ++ parserBuffer c;
                                    lines := lines r |};
              parserBuffer := EmptyString |}
      else c
  end.

Definition replaceToolUsageCardsInText (input : string)
    (opts : ToolUsageCardConsumeOptions) : Outcome ToolUsageCardConsumeResult :=
  let c1 := consume EmptyString input opts in
  bind (result c1) (fun first =>
  bind (result (flush (parserBuffer c1) opts true)) (fun tail =>
  Returned {| text := text first ++ text tail;
              lines := (lines first ++ lines tail)%list |})).

End Parser.

End ToolUsageCard.

(* ===================================================================== *)
(** ** NDJSON to SSE transformer (the first unit of src/unnamed/part_000) *)
(* ===================================================================== *)

Module GrokStream.

Import JsString Json.
Local Open Scope string_scope.

Record GrokConversationMeta := {
  grokConversationId : string;
  lastResponseId : string
}.

(** [duration] is kept in milliseconds; the source divides it by 1000. *)
Record StreamFinishResult := {
  status : Z;
  duration : Z;
  meta : GrokConversationMeta
}.

(** The settings the transformer reads; [None] is an unset field.  The
    three timeouts are in seconds. *)
Record GrokSettings := {
  filtered_tags : option string;
  show_thinking : option bool;
  show_search : option bool;
  stream_first_response_timeout : option Z;
  stream_chunk_timeout : option Z;
  stream_total_timeout : option Z;
  video_poster_preview : option bool
}.

Record GlobalSettings := {
  base_url : option string
}.

(** *** Output frames

    Every chunk of one stream carries the same [id] and [created]; a frame
    keeps what varies: the model, the content ([""] gives the empty delta)
    and the finish reason. *)

Inductive FinishReason := Stop | Error.

Inductive Frame :=
| Chunk (model content : string) (finish_reason : option FinishReason)
| Done.

Definition makeChunk (model content : string) (finish_reason : option FinishReason)
    : Frame := Chunk model content finish_reason.

Definition makeDone : Frame := Done.

(** *** The upstream body

    One [reader.read()]: how long it takes to settle, in milliseconds, and
    what it settles to.  After the last entry a read stays pending. *)

Inductive ReadResult :=
| Value (chunk : string)
| NoValue
| EndOfStream
| ReadError (message : string).

Record Read := {
  delay : Z;
  settles : ReadResult
}.

(** *** Platform functions and callbacks *)

Record Url := {
  href : string;
  pathname : string;
  search : string;
  hash : string
}.

(** [JSON.parse] and [new URL] ([None] when they throw) and the
    [btoa]-based encoding of the UTF-8 bytes of a string. *)
Record Platform := {
  JSON_parse : string -> option value;
  URL_parse : string -> option Url;
  btoaUtf8 : string -> string
}.

(** The two hooks; each call returns or throws. *)
Record Hooks := {
  onMeta : option (GrokConversationMeta -> Outcome unit);
  onFinish : option (StreamFinishResult -> Outcome unit)
}.

(** *** Pure helpers *)

Fixpoint replaceChar (c : ascii) (by_ : string) (s : string) : string :=
  match s with
  | EmptyString => EmptyString
  | String d r => if Ascii.eqb d c then by_ ++ replaceChar c by_ r
                  else String d (replaceChar c by_ r)
  end.

Definition toImgProxyUrl (globalCfg : GlobalSettings) (origin path : string) : string :=
  let baseUrl :=
    orElse (trim (match base_url globalCfg with Some b => b | None => "" end)) origin in
  baseUrl ++ "/images/" ++ path.

Definition attr (name value : string) : string := name ++ "=" ++ quoted value.

Definition buildVideoTag (src : string) : string :=
  "<video " ++ attr "src" src ++ " " ++ attr "controls" "controls" ++ " "
    ++ attr "width" "500" ++ " " ++ attr "height" "300" ++ "></video>" ++ nl.

Definition escapeQuotes (s : string) : string := replaceChar (ascii_of_N 34) "&quot;" s.

Definition buildVideoPosterPreview (videoUrl : string) (posterUrl : option string)
    : string :=
  let href := escapeQuotes videoUrl in
  let poster := escapeQuotes (match posterUrl with Some p => p | None => "" end) in
  let anchor := "<a " ++ attr "href" href ++ " " ++ attr "target" "_blank" ++ " "
                  ++ attr "rel" "noopener noreferrer" in
  if negb (nonEmpty href) then ""
  else if negb (nonEmpty poster) then anchor ++ ">" ++ href ++ "</a>" ++ nl
  else
    anchor ++ " "
      ++ attr "style" "display:inline-block;position:relative;max-width:100%;text-decoration:none;"
      ++ ">" ++ nl
      ++ "  <img " ++ attr "src" poster ++ " " ++ attr "alt" "video" ++ " "
      ++ attr "style" "max-width:100%;height:auto;border-radius:12px;display:block;"
      ++ " />" ++ nl
      ++ "  <span "
      ++ attr "style" "position:absolute;inset:0;display:flex;align-items:center;justify-content:center;"
      ++ ">" ++ nl
      ++ "    <span "
      ++ attr "style" "width:64px;height:64px;border-radius:9999px;background:rgba(0,0,0,.55);display:flex;align-items:center;justify-content:center;"
      ++ ">" ++ nl
      ++ "      <span "
      ++ attr "style" "width:0;height:0;border-top:12px solid transparent;border-bottom:12px solid transparent;border-left:18px solid #fff;margin-left:4px;"
      ++ "></span>" ++ nl
      ++ "    </span>" ++ nl
      ++ "  </span>" ++ nl
      ++ "</a>" ++ nl.

Definition buildVideoHtml (videoUrl : string) (posterUrl : option string)
    (posterPreview : bool) : string :=
  if posterPreview then buildVideoPosterPreview videoUrl posterUrl
  else buildVideoTag videoUrl.

(** [btoa(...).replace(/\+/g, "-").replace(/\//g, "_").replace(/=+$/g, "")] *)
Fixpoint dropTrailing (c : ascii) (s : string) : string :=
  match s with
  | EmptyString => EmptyString
  | String d r =>
      match dropTrailing c r with
      | EmptyString => if Ascii.eqb d c then EmptyString else String d EmptyString
      | r' => String d r'
      end
  end.

Definition base64UrlEncode (p : Platform) (input : string) : string :=
  dropTrailing "="%char
    (replaceChar "/"%char "_" (replaceChar "+"%char "-" (btoaUtf8 p input))).

Definition encodeAssetPath (p : Platform) (raw : string) : string :=
  match URL_parse p raw with
  | Some u => "u_" ++ base64UrlEncode p (href u)
  | None =>
      let path := if startsWith "/" raw then raw else "/" ++ raw in
      "p_" ++ base64UrlEncode p path
  end.

(** The loop of [normalizeGeneratedAssetUrls] over the elements. *)
Fixpoint keepAssetUrls (p : Platform) (input : list value) : list string :=
  match input with
  | [] => []
  | v :: rest =>
      match v with
      | JStr raw =>
          let s := trim raw in
          if negb (nonEmpty s) then keepAssetUrls p rest
          else if String.eqb s "/" then keepAssetUrls p rest
          else
            match URL_parse p s with
            | Some u =>
                if String.eqb (pathname u) "/" && negb (nonEmpty (search u))
                   && negb (nonEmpty (hash u))
                then keepAssetUrls p rest
                else s :: keepAssetUrls p rest
            | None => s :: keepAssetUrls p rest
            end
      | _ => keepAssetUrls p rest
      end
  end.

Definition normalizeGeneratedAssetUrls (p : Platform) (input : option value)
    : list string :=
  match input with
  | Some (JArr items) => keepAssetUrls p items
  | _ => []
  end.

(** The object when the value is one, as [asObj] then optional chaining
    use it. *)
Definition objectOnly (v : option value) : option value :=
  match v with
  | Some (JObj props) => Some (JObj props)
  | _ => None
  end.

(** [extractMetaFromLine]: reading [.result] of [null] throws; an absent
    field is the empty string, which [updateMeta] ignores alike. *)
Definition extractMetaFromLine (data : value) : Outcome GrokConversationMeta :=
  match data with
  | JNull => Thrown "Cannot read properties of null (reading 'result')"
  | _ =>
      match objectOnly (prop "result" data) with
      | None => Returned {| grokConversationId := ""; lastResponseId := "" |}
      | Some result =>
          let conversation := objectOnly (prop "conversation" result) in
          let response := objectOnly (prop "response" result) in
          let userResponse := objectOnly (prop "userResponse" result) in
          let modelResponse := objectOnly (prop "modelResponse" result) in
          let responseModel := objectOnly (optProp "modelResponse" response) in
          Returned
            {| grokConversationId := asStr (optProp "conversationId" conversation);
               lastResponseId :=
                 orElse (asStr (optProp "responseId" response))
                   (orElse (asStr (optProp "responseId" responseModel))
                      (orElse (asStr (optProp "responseId" modelResponse))
                              (asStr (optProp "responseId" userResponse)))) |}
      end
  end.

(** *** The state of one stream

    The locals of [start] that the frame handlers update, and what the
    stream has done to the outside: the frames enqueued, whether the
    controller was closed, and the calls made to the two hooks. *)

Record State := {
  finalStatus : Z;
  currentModel : string;
  isImage : bool;
  thinkTagOpen : bool;
  lastIsThinking : bool;
  videoProgressStarted : bool;
  lastVideoProgress : Z;
  lastToolRolloutId : string;
  toolUsageParser : string;
  streamMeta : GrokConversationMeta;
  enqueued : list Frame;
  closed : bool;
  metaCalls : list GrokConversationMeta;
  finishCalls : list StreamFinishResult
}.

Definition initialState : State :=
  {| finalStatus := 200;
     currentModel := "grok-4-mini-thinking-tahoe";
     isImage := false;
     thinkTagOpen := false;
     lastIsThinking := false;
     videoProgressStarted := false;
     lastVideoProgress := -1;
     lastToolRolloutId := "";
     toolUsageParser := "";
     streamMeta := {| grokConversationId := ""; lastResponseId := "" |};
     enqueued := [];
     closed := false;
     metaCalls := [];
     finishCalls := [] |}.

Definition set_finalStatus (v : Z) (s : State) : State :=
  {| finalStatus := v; currentModel := currentModel s; isImage := isImage s;
     thinkTagOpen := thinkTagOpen s; lastIsThinking := lastIsThinking s;
     videoProgressStarted := videoProgressStarted s;
     lastVideoProgress := lastVideoProgress s; lastToolRolloutId := lastToolRolloutId s;
     toolUsageParser := toolUsageParser s; streamMeta := streamMeta s;
     enqueued := enqueued s; closed := closed s; metaCalls := metaCalls s;
     finishCalls := finishCalls s |}.

Definition set_currentModel (v : string) (s : State) : State :=
  {| finalStatus := finalStatus s; currentModel := v; isImage := isImage s;
     thinkTagOpen := thinkTagOpen s; lastIsThinking := lastIsThinking s;
     videoProgressStarted := videoProgressStarted s;
     lastVideoProgress := lastVideoProgress s; lastToolRolloutId := lastToolRolloutId s;
     toolUsageParser := toolUsageParser s; streamMeta := streamMeta s;
     enqueued := enqueued s; closed := closed s; metaCalls := metaCalls s;
     finishCalls := finishCalls s |}.

Definition set_isImage (v : bool) (s : State) : State :=
  {| finalStatus := finalStatus s; currentModel := currentModel s; isImage := v;
     thinkTagOpen := thinkTagOpen s; lastIsThinking := lastIsThinking s;
     videoProgressStarted := videoProgressStarted s;
     lastVideoProgress := lastVideoProgress s; lastToolRolloutId := lastToolRolloutId s;
     toolUsageParser := toolUsageParser s; streamMeta := streamMeta s;
     enqueued := enqueued s; closed := closed s; metaCalls := metaCalls s;
     finishCalls := finishCalls s |}.

Definition set_thinkTagOpen (v : bool) (s : State) : State :=
  {| finalStatus := finalStatus s; currentModel := currentModel s; isImage := isImage s;
     thinkTagOpen := v; lastIsThinking := lastIsThinking s;
     videoProgressStarted := videoProgressStarted s;
     lastVideoProgress := lastVideoProgress s; lastToolRolloutId := lastToolRolloutId s;
     toolUsageParser := toolUsageParser s; streamMeta := streamMeta s;
     enqueued := enqueued s; closed := closed s; metaCalls := metaCalls s;
     finishCalls := finishCalls s |}.

Definition set_lastIsThinking (v : bool) (s : State) : State :=
  {| finalStatus := finalStatus s; currentModel := currentModel s; isImage := isImage s;
     thinkTagOpen := thinkTagOpen s; lastIsThinking := v;
     videoProgressStarted := videoProgressStarted s;
     lastVideoProgress := lastVideoProgress s; lastToolRolloutId := lastToolRolloutId s;
     toolUsageParser := toolUsageParser s; streamMeta := streamMeta s;
     enqueued := enqueued s; closed := closed s; metaCalls := metaCalls s;
     finishCalls := finishCalls s |}.

Definition set_videoProgressStarted (v : bool) (s : State) : State :=
  {| finalStatus := finalStatus s; currentModel := currentModel s; isImage := isImage s;
     thinkTagOpen := thinkTagOpen s; lastIsThinking := lastIsThinking s;
     videoProgressStarted := v;
     lastVideoProgress := lastVideoProgress s; lastToolRolloutId := lastToolRolloutId s;
     toolUsageParser := toolUsageParser s; streamMeta := streamMeta s;
     enqueued := enqueued s; closed := closed s; metaCalls := metaCalls s;
     finishCalls := finishCalls s |}.

Definition set_lastVideoProgress (v : Z) (s : State) : State :=
  {| finalStatus := finalStatus s; currentModel := currentModel s; isImage := isImage s;
     thinkTagOpen := thinkTagOpen s; lastIsThinking := lastIsThinking s;
     videoProgressStarted := videoProgressStarted s;
     lastVideoProgress := v; lastToolRolloutId := lastToolRolloutId s;
     toolUsageParser := toolUsageParser s; streamMeta := streamMeta s;
     enqueued := enqueued s; closed := closed s; metaCalls := metaCalls s;
     finishCalls := finishCalls s |}.

Definition set_lastToolRolloutId (v : string) (s : State) : State :=
  {| finalStatus := finalStatus s; currentModel := currentModel s; isImage := isImage s;
     thinkTagOpen := thinkTagOpen s; lastIsThinking := lastIsThinking s;
     videoProgressStarted := videoProgressStarted s;
     lastVideoProgress := lastVideoProgress s; lastToolRolloutId := v;
     toolUsageParser := toolUsageParser s; streamMeta := streamMeta s;
     enqueued := enqueued s; closed := closed s; metaCalls := metaCalls s;
     finishCalls := finishCalls s |}.

Definition set_toolUsageParser (v : string) (s : State) : State :=
  {| finalStatus := finalStatus s; currentModel := currentModel s; isImage := isImage s;
     thinkTagOpen := thinkTagOpen s; lastIsThinking := lastIsThinking s;
     videoProgressStarted := videoProgressStarted s;
     lastVideoProgress := lastVideoProgress s; lastToolRolloutId := lastToolRolloutId s;
     toolUsageParser := v; streamMeta := streamMeta s;
     enqueued := enqueued s; closed := closed s; metaCalls := metaCalls s;
     finishCalls := finishCalls s |}.

Definition set_streamMeta (v : GrokConversationMeta) (s : State) : State :=
  {| finalStatus := finalStatus s; currentModel := currentModel s; isImage := isImage s;
     thinkTagOpen := thinkTagOpen s; lastIsThinking := lastIsThinking s;
     videoProgressStarted := videoProgressStarted s;
     lastVideoProgress := lastVideoProgress s; lastToolRolloutId := lastToolRolloutId s;
     toolUsageParser := toolUsageParser s; streamMeta := v;
     enqueued := enqueued s; closed := closed s; metaCalls := metaCalls s;
     finishCalls := finishCalls s |}.

Definition set_enqueued (v : list Frame) (s : State) : State :=
  {| finalStatus := finalStatus s; currentModel := currentModel s; isImage := isImage s;
     thinkTagOpen := thinkTagOpen s; lastIsThinking := lastIsThinking s;
     videoProgressStarted := videoProgressStarted s;
     lastVideoProgress := lastVideoProgress s; lastToolRolloutId := lastToolRolloutId s;
     toolUsageParser := toolUsageParser s; streamMeta := streamMeta s;
     enqueued := v; closed := closed s; metaCalls := metaCalls s;
     finishCalls := finishCalls s |}.

Definition set_closed (v : bool) (s : State) : State :=
  {| finalStatus := finalStatus s; currentModel := currentModel s; isImage := isImage s;
     thinkTagOpen := thinkTagOpen s; lastIsThinking := lastIsThinking s;
     videoProgressStarted := videoProgressStarted s;
     lastVideoProgress := lastVideoProgress s; lastToolRolloutId := lastToolRolloutId s;
     toolUsageParser := toolUsageParser s; streamMeta := streamMeta s;
     enqueued := enqueued s; closed := v; metaCalls := metaCalls s;
     finishCalls := finishCalls s |}.

Definition set_metaCalls (v : list GrokConversationMeta) (s : State) : State :=
  {| finalStatus := finalStatus s; currentModel := currentModel s; isImage := isImage s;
     thinkTagOpen := thinkTagOpen s; lastIsThinking := lastIsThinking s;
     videoProgressStarted := videoProgressStarted s;
     lastVideoProgress := lastVideoProgress s; lastToolRolloutId := lastToolRolloutId s;
     toolUsageParser := toolUsageParser s; streamMeta := streamMeta s;
     enqueued := enqueued s; closed := closed s; metaCalls := v;
     finishCalls := finishCalls s |}.

Definition set_finishCalls (v : list StreamFinishResult) (s : State) : State :=
  {| finalStatus := finalStatus s; currentModel := currentModel s; isImage := isImage s;
     thinkTagOpen := thinkTagOpen s; lastIsThinking := lastIsThinking s;
     videoProgressStarted := videoProgressStarted s;
     lastVideoProgress := lastVideoProgress s; lastToolRolloutId := lastToolRolloutId s;
     toolUsageParser := toolUsageParser s; streamMeta := streamMeta s;
     enqueued := enqueued s; closed := closed s; metaCalls := metaCalls s;
     finishCalls := v |}.

(** *** A state and exception monad for the body of [start] *)

Definition M (A : Type) : Type := State -> Outcome A * State.

Definition ret {A : Type} (a : A) : M A := fun s => (Returned a, s).

Definition throw {A : Type} (message : string) : M A := fun s => (Thrown message, s).

Definition seq {A B : Type} (x : M A) (k : A -> M B) : M B :=
  fun s =>
    match x s with
    | (Returned a, s') => k a s'
    | (Thrown m, s') => (Thrown m, s')
    end.

Definition gets {A : Type} (f : State -> A) : M A := fun s => (Returned (f s), s).

Definition modify (f : State -> State) : M unit := fun s => (Returned tt, f s).

Definition when (b : bool) (x : M unit) : M unit := if b then x else ret tt.

Declare Scope stream_scope.
Delimit Scope stream_scope with stream.
Notation "x <- c ;; k" := (seq c (fun x => k))
  (at level 61, c at next level, right associativity) : stream_scope.
Notation "c ;; k" := (seq c (fun _ => k))
  (at level 61, right associativity) : stream_scope.

(** How a frame handler leaves the loop: on to the next line, or out of
    [start] by [return]. *)
Inductive Flow := Next | Finished.

(** The two locals that only the timeout checks read. *)
Record Timing := {
  firstReceived : bool;
  lastChunkTime : Z
}.

(** What the inner loop leaves: the rest of the line buffer, or the end of
    the stream. *)
Inductive Drained :=
| Pending (buffer : string)
| Ended.

(** The UTF-8 text of the two labels the source writes in Chinese. *)
Definition VIDEO_PROGRESS_LABEL : string := "视频已生成".
Definition PROCESSING_ERROR_LABEL : string := "处理错误: ".

Section Stream.

Variable platform : Platform.
Variable hooks : Hooks.
Variable settings : GrokSettings.
Variable globalCfg : GlobalSettings.
Variable origin : string.

(** [Date.now()] when [start] took its [startTime]. *)
Variable startTime : Z.

Local Open Scope stream_scope.

Definition filteredTags : list string :=
  filter nonEmpty
    (map trim (splitOn ","%char
                 (match filtered_tags settings with Some t => t | None => "" end))).

(** [settings.show_thinking !== false] *)
Definition showThinking : bool :=
  match show_thinking settings with Some false => false | _ => true end.

(** [settings.show_search === true] *)
Definition showSearch : bool :=
  match show_search settings with Some true => true | _ => false end.

Definition secondsOr (x : option Z) (d : Z) : Z :=
  match x with Some v => v | None => d end.

Definition firstTimeoutMs : Z :=
  Z.max 0 (secondsOr (stream_first_response_timeout settings) 30 * 1000).
Definition chunkTimeoutMs : Z :=
  Z.max 0 (secondsOr (stream_chunk_timeout settings) 120 * 1000).
Definition totalTimeoutMs : Z :=
  Z.max 0 (secondsOr (stream_total_timeout settings) 600 * 1000).

Definition passthroughFilteredTags : list string :=
  filter (fun tag => negb (String.eqb (toLowerCase tag) "xai:tool_usage_card"))
         filteredTags.

Definition shouldEmitToolLines : bool := showThinking && showSearch.

Definition posterPreview : bool :=
  match video_poster_preview settings with Some true => true | _ => false end.

(** [controller.enqueue(encoder.encode(frame))], on a stream that its
    consumer has not cancelled: the call does not throw. *)
Definition enqueue (f : Frame) : M unit :=
  modify (fun s => set_enqueued (List.app (enqueued s) [f]) s).

(** [makeChunk(id, created, currentModel, content, finish_reason)], enqueued. *)
Definition enqueueChunk (content : string) (finish_reason : option FinishReason)
    : M unit :=
  model <- gets currentModel ;;
  enqueue (makeChunk model content finish_reason).

Definition emitTextDelta (text : string) (lines : list string) (isThinking : bool)
    (messageTag : option value) : M unit :=
  open <- gets thinkTagOpen ;;
  pieces1 <-
    (if showThinking then
       if isThinking && negb open then
         modify (set_thinkTagOpen true) ;; ret ["<think>" ++ nl]
       else if negb isThinking && open then
         modify (set_thinkTagOpen false) ;; ret [nl ++ "</think>" ++ nl]
       else ret []
     else ret []) ;;
  let body :=
    match messageTag with
    | Some (JStr "header") => nl ++ nl ++ text ++ nl ++ nl
    | _ => text
    end in
  let pieces2 :=
    if negb isThinking || showThinking then
      List.app (map (fun line => line ++ nl) lines)
               (if nonEmpty text then [body] else [])
    else [] in
  let payload := join "" (List.app pieces1 pieces2) in
  when (nonEmpty payload) (enqueueChunk payload None) ;;
  modify (set_lastIsThinking isThinking).

Definition toolOptions (s : State) : ToolUsageCard.ToolUsageCardConsumeOptions :=
  {| ToolUsageCard.emitLines := shouldEmitToolLines;
     ToolUsageCard.fallbackRolloutId := Some (lastToolRolloutId s) |}.

(** A call on [toolUsageParser]: its buffer moves on, its error is thrown. *)
Definition onParser (call : string -> ToolUsageCard.ToolUsageCardConsumeOptions
                            -> ToolUsageCard.Consumed)
    : M ToolUsageCard.ToolUsageCardConsumeResult :=
  fun s =>
    let c := call (toolUsageParser s) (toolOptions s) in
    (ToolUsageCard.result c, set_toolUsageParser (ToolUsageCard.parserBuffer c) s).

Definition flushToolBuffer (isThinkingFrame : bool) : M unit :=
  flushed <- onParser (fun buffer opts =>
               ToolUsageCard.flush (JSON_parse platform) buffer opts true) ;;
  if negb (nonEmpty (ToolUsageCard.text flushed))
     && (match ToolUsageCard.lines flushed with [] => true | _ => false end)
  then ret tt
  else emitTextDelta (ToolUsageCard.text flushed) (ToolUsageCard.lines flushed)
         isThinkingFrame None.

Definition closeThinkWrappers : M unit :=
  open <- gets thinkTagOpen ;;
  when (showThinking && open)
    (enqueueChunk (nl ++ "</think>" ++ nl) None ;; modify (set_thinkTagOpen false)) ;;
  started <- gets videoProgressStarted ;;
  when (showThinking && started)
    (enqueueChunk ("</think>" ++ nl) None ;; modify (set_videoProgressStarted false)).

Definition flushStop : M unit :=
  last <- gets lastIsThinking ;;
  flushToolBuffer last ;;
  closeThinkWrappers ;;
  enqueueChunk "" (Some Stop) ;;
  enqueue makeDone.

Definition updateMeta (part : GrokConversationMeta) : M unit :=
  m <- gets streamMeta ;;
  let changed1 := nonEmpty (grokConversationId part)
                  && negb (String.eqb (grokConversationId part) (grokConversationId m)) in
  let m1 := if changed1
            then {| grokConversationId := grokConversationId part;
                    lastResponseId := lastResponseId m |}
            else m in
  let changed2 := nonEmpty (lastResponseId part)
                  && negb (String.eqb (lastResponseId part) (lastResponseId m1)) in
  let m2 := if changed2
            then {| grokConversationId := grokConversationId m1;
                    lastResponseId := lastResponseId part |}
            else m1 in
  modify (set_streamMeta m2) ;;
  if changed1 || changed2 then
    match onMeta hooks with
    | Some f =>
        modify (fun s => set_metaCalls (List.app (metaCalls s) [m2]) s) ;;
        (fun s => (f m2, s))
    | None => ret tt
    end
  else ret tt.

(** [if (opts.onFinish) await opts.onFinish({ status, duration, meta })] at
    the time [now]. *)
Definition finish (now : Z) : M unit :=
  match onFinish hooks with
  | Some f =>
      st <- gets finalStatus ;;
      m <- gets streamMeta ;;
      let r := {| status := st; duration := now - startTime; meta := m |} in
      modify (fun s => set_finishCalls (List.app (finishCalls s) [r]) s) ;;
      (fun s => (f r, s))
  | None => ret tt
  end.

(** [controller.close()], on a stream that its consumer has not cancelled:
    the call does not throw. *)
Definition close : M unit := modify (set_closed true).

(** The tail every timeout branch and the end of the body share. *)
Definition stopAndClose (now : Z) : M Flow :=
  flushStop ;; finish now ;; close ;; ret Finished.

(** *** One parsed line *)

(** [await updateMeta(extractMetaFromLine(data))] *)
Definition noteMeta (data : value) : M unit :=
  part <- (fun s => (extractMetaFromLine data, s)) ;;
  updateMeta part.

(** The branch for an upstream error frame. *)
Definition onErrorFrame (now : Z) (message : value) : M Flow :=
  modify (set_finalStatus 500) ;;
  last <- gets lastIsThinking ;;
  flushToolBuffer last ;;
  closeThinkWrappers ;;
  enqueueChunk ("Error: " ++ toString message) (Some Stop) ;;
  enqueue makeDone ;;
  finish now ;;
  close ;;
  ret Finished.

(** The video-generation branch. *)
Definition onVideo (videoResp : value) : M Flow :=
  let progress := match prop "progress" videoResp with Some (JNum n) => n | _ => 0%Z end in
  let videoUrl := match prop "videoUrl" videoResp with Some (JStr u) => u | _ => "" end in
  let thumbUrl :=
    match prop "thumbnailImageUrl" videoResp with Some (JStr u) => u | _ => "" end in
  lastProgress <- gets lastVideoProgress ;;
  when (lastProgress <? progress)%Z
    (modify (set_lastVideoProgress progress) ;;
     when showThinking
       (started <- gets videoProgressStarted ;;
        msg <-
          (if negb started then
             modify (set_videoProgressStarted true) ;;
             ret ("<think>" ++ VIDEO_PROGRESS_LABEL ++ numberToString progress ++ "%" ++ nl)
           else if (progress <? 100)%Z then
             ret (VIDEO_PROGRESS_LABEL ++ numberToString progress ++ "%" ++ nl)
           else
             modify (set_videoProgressStarted false) ;;
             ret (VIDEO_PROGRESS_LABEL ++ numberToString progress ++ "%</think>" ++ nl)) ;;
        enqueueChunk msg None)) ;;
  when (nonEmpty videoUrl)
    (let videoPath := encodeAssetPath platform videoUrl in
     let src := toImgProxyUrl globalCfg origin videoPath in
     let poster :=
       if nonEmpty thumbUrl
       then
         let p := toImgProxyUrl globalCfg origin (encodeAssetPath platform thumbUrl) in
         if nonEmpty p then Some p else None
       else None in
     enqueueChunk (buildVideoHtml src poster posterPreview) None) ;;
  ret Next.

(** The image branch, once [isImage] holds. *)
Definition onImage (now : Z) (grok : value) (rawToken : option value) : M Flow :=
  let modelResp := prop "modelResponse" grok in
  if truthy modelResp then
    let urls := normalizeGeneratedAssetUrls platform (optProp "generatedImageUrls" modelResp) in
    match urls with
    | [] => ret Next
    | _ =>
        let linesOut :=
          map (fun u => "![Generated Image]("
                        ++ toImgProxyUrl globalCfg origin (encodeAssetPath platform u)
                        ++ ")") urls in
        enqueueChunk (join nl linesOut) (Some Stop) ;;
        closeThinkWrappers ;;
        enqueue makeDone ;;
        finish now ;;
        close ;;
        ret Finished
    end
  else
    match rawToken with
    | Some (JStr t) => when (nonEmpty t) (enqueueChunk t None) ;; ret Next
    | _ => ret Next
    end.

(** The text chat branch. *)
Definition onText (grok : value) (rawToken : option value) : M Flow :=
  let currentIsThinking := truthy (prop "isThinking" grok) in
  let messageTag := prop "messageTag" grok in
  let rolloutId := asStr (prop "rolloutId" grok) in
  let toolCardId := asStr (prop "toolUsageCardId" grok) in
  (if nonEmpty rolloutId then modify (set_lastToolRolloutId rolloutId)
   else if nonEmpty toolCardId then modify (set_lastToolRolloutId toolCardId)
   else ret tt) ;;
  let token := match rawToken with Some (JStr t) => t | _ => "" end in
  let token :=
    if nonEmpty token && existsb (fun tag => includes tag token) passthroughFilteredTags
    then "" else token in
  parsed <- onParser (fun buffer opts =>
              ToolUsageCard.consume (JSON_parse platform) buffer token opts) ;;
  emitTextDelta (ToolUsageCard.text parsed) (ToolUsageCard.lines parsed)
    currentIsThinking messageTag ;;
  ret Next.

(** What the inner loop does with a parsed line once it has marked the
    first frame: the error frame, then the video, image and text branches. *)
Definition handleFrame (now : Z) (data : value) : M Flow :=
  let err := prop "error" data in
  let message := optProp "message" err in
  if truthy message
  then onErrorFrame now (match message with Some m => m | None => JNull end)
  else
    let grok := optProp "response" (prop "result" data) in
    if negb (truthy grok) then ret Next
    else
      let grok := match grok with Some g => g | None => JNull end in
      (match optProp "model" (prop "userResponse" grok) with
       | Some (JStr m) => when (nonEmpty (trim m)) (modify (set_currentModel (trim m)))
       | _ => ret tt
       end) ;;
      let videoResp := prop "streamingVideoGenerationResponse" grok in
      if truthy videoResp
      then onVideo (match videoResp with Some v => v | None => JNull end)
      else
        when (truthy (prop "imageAttachmentInfo" grok)) (modify (set_isImage true)) ;;
        let rawToken := prop "token" grok in
        image <- gets isImage ;;
        if image then onImage now grok rawToken else onText grok rawToken.

(** *** The two loops *)

(** [while ((idx = buffer.indexOf("\n")) !== -1)]: every turn takes at
    least one character off the buffer, so [fuel] from its length on is
    enough. *)
Fixpoint drain (fuel : nat) (now : Z) (buffer : string) (t : Timing)
    : M (Drained * Timing) :=
  match indexOf nl buffer with
  | None => ret (Pending buffer, t)
  | Some idx =>
      match fuel with
      | O => ret (Pending buffer, t)
      | S fuel' =>
          let line := trim (sliceTo idx buffer) in
          let buffer := sliceFrom (S idx) buffer in
          if negb (nonEmpty line) then drain fuel' now buffer t
          else
            match JSON_parse platform line with
            | None => drain fuel' now buffer t
            | Some data =>
                noteMeta data ;;
                let t := {| firstReceived := true; lastChunkTime := now |} in
                flow <- handleFrame now data ;;
                match flow with
                | Finished => ret (Ended, t)
                | Next => drain fuel' now buffer t
                end
            end
      end
  end.

(** The timeout of one read:
    [Math.min(firstReceived ? chunkTimeoutMs : firstTimeoutMs,
              totalTimeoutMs > 0 ? Math.max(0, totalTimeoutMs - elapsed) : Infinity)]. *)
Definition perReadTimeout (t : Timing) (elapsed : Z) : Z :=
  let bound := if firstReceived t then chunkTimeoutMs else firstTimeoutMs in
  if (0 <? totalTimeoutMs)%Z
  then Z.min bound (Z.max 0 (totalTimeoutMs - elapsed))
  else bound.

(** What [readWithTimeout] resolves to, and the time then: a timeout that
    is not positive times out at once without reading; otherwise the read
    wins when it settles before the timer.  [None] is a read that stays
    pending. *)
Inductive Raced :=
| TimedOut (now : Z)
| Settled (now : Z) (r : ReadResult).

Definition readWithTimeout (next : option Read) (ms now : Z) : Raced :=
  if (ms <=? 0)%Z then TimedOut now
  else
    match next with
    | None => TimedOut (now + ms)
    | Some r =>
        if (delay r <? ms)%Z then Settled (now + delay r) (settles r)
        else TimedOut (now + ms)
    end.

(** How the [try] block of [start] ends: it ran to a [return], or it
    threw, and [catch] got the error at the time [now]. *)
Inductive Tried :=
| Completed
| Caught (message : string) (now : Z).

(** A step of the [try] block at the time [now], then the rest. *)
Definition attempt {A : Type} (now : Z) (x : M A)
    (k : A -> State -> Tried * State) : State -> Tried * State :=
  fun s =>
    match x s with
    | (Returned a, s') => k a s'
    | (Thrown m, s') => (Caught m now, s')
    end.

Definition completed {A : Type} (_ : A) : State -> Tried * State :=
  fun s => (Completed, s).

(** [while (true)] of [start], one turn per read, and the code after the
    loop when the body is done. *)
Fixpoint loop (reads : list Read) (now : Z) (buffer : string) (t : Timing)
    : State -> Tried * State :=
  let elapsed := (now - startTime)%Z in
  if negb (firstReceived t) && (firstTimeoutMs <? elapsed)%Z
  then attempt now (stopAndClose now) completed
  else if (0 <? totalTimeoutMs)%Z && (totalTimeoutMs <? elapsed)%Z
  then attempt now (stopAndClose now) completed
  else
    let idle := (now - lastChunkTime t)%Z in
    if firstReceived t && (chunkTimeoutMs <? idle)%Z
    then attempt now (stopAndClose now) completed
    else
      let ms := perReadTimeout t elapsed in
      match reads with
      | [] =>
          match readWithTimeout None ms now with
          | TimedOut now' | Settled now' _ => attempt now' (stopAndClose now') completed
          end
      | r :: rest =>
          match readWithTimeout (Some r) ms now with
          | TimedOut now' => attempt now' (stopAndClose now') completed
          | Settled now' (ReadError m) => fun s => (Caught m now', s)
          | Settled now' EndOfStream => attempt now' (stopAndClose now') completed
          | Settled now' NoValue => loop rest now' buffer t
          | Settled now' (Value chunk) =>
              attempt now'
                (drain (String.length (buffer ++ chunk)) now' (buffer ++ chunk) t)
                (fun d =>
                   match d with
                   | (Ended, _) => completed tt
                   | (Pending buffer', t') => loop rest now' buffer' t'
                   end)
          end
      end.

(** The [catch] block. *)
Definition onException (now : Z) (message : string) : M unit :=
  modify (set_finalStatus 500) ;;
  last <- gets lastIsThinking ;;
  flushToolBuffer last ;;
  closeThinkWrappers ;;
  enqueueChunk (PROCESSING_ERROR_LABEL ++ message) (Some Error) ;;
  enqueue makeDone ;;
  finish now ;;
  close.

(** What a stream comes to: its last state, and the error [start] rejected
    with when one escaped the [catch] block. *)
Record Stream := {
  state : State;
  failure : option string
}.

(** The frames a consumer of the stream is handed, in order. *)
Definition frames (r : Stream) : list Frame := enqueued (state r).

(** [createOpenAiStreamFromGrokNdjson(grokResp, opts)], run to its end;
    [body] is [grokResp.body], [None] for [null]. *)
Definition createOpenAiStreamFromGrokNdjson (body : option (list Read)) : Stream :=
  match body with
  | None =>
      let run :=
        enqueue (makeChunk "grok-4-mini-thinking-tahoe" "Empty response" (Some Error)) ;;
        enqueue makeDone ;;
        close in
      {| state := snd (run initialState); failure := None |}
  | Some reads =>
      match loop reads startTime ""
              {| firstReceived := false; lastChunkTime := startTime |} initialState with
      | (Completed, s) => {| state := s; failure := None |}
      | (Caught e now, s) =>
          match onException now e s with
          | (Returned _, s') => {| state := s'; failure := None |}
          | (Thrown e', s') => {| state := s'; failure := Some e' |}
          end
      end
  end.

End Stream.

(** *** The response that is not streamed *)

(** The locals of [parseOpenAiFromGrokNdjson] that its loop updates. *)
Record Collected := {
  model : string;
  latestMessage : string;
  latestToolLines : list string;
  tokenParts : list string;
  mergedContent : option string;
  toolRolloutId : string;
  collectedMeta : GrokConversationMeta
}.

(** What it returns, [id], [created] and the constant fields left out, and
    the argument of its call of [onMeta]. *)
Record Completion := {
  completionModel : string;
  completionContent : string;
  reportedMeta : option GrokConversationMeta
}.

Section Collect.

Variable platform : Platform.
Variable onMeta : option (GrokConversationMeta -> Outcome unit).
Variable settings : GrokSettings.
Variable globalCfg : GlobalSettings.
Variable origin : string.
Variable requestedModel : string.

(** The part of the loop body after [const modelResp = grok.modelResponse]. *)
Definition collectModelResponse (st : Collected) (modelResp : value)
    : Outcome Collected :=
  bind
    (match prop "error" modelResp with
     | Some (JStr e) => if nonEmpty e then Thrown e else Returned st
     | _ => Returned st
     end)
    (fun st =>
  let st :=
    match prop "model" modelResp with
    | Some (JStr m) =>
        if nonEmpty m
        then {| model := m; latestMessage := latestMessage st;
                latestToolLines := latestToolLines st; tokenParts := tokenParts st;
                mergedContent := mergedContent st; toolRolloutId := toolRolloutId st;
                collectedMeta := collectedMeta st |}
        else st
    | _ => st
    end in
  bind
    (match prop "message" modelResp with
     | Some (JStr message) =>
         bind
           (ToolUsageCard.replaceToolUsageCardsInText (JSON_parse platform) message
              {| ToolUsageCard.emitLines := shouldEmitToolLines settings;
                 ToolUsageCard.fallbackRolloutId := Some (toolRolloutId st) |})
           (fun parsed =>
              if nonEmpty message
                 || match ToolUsageCard.lines parsed with [] => false | _ => true end
              then Returned
                     {| model := model st; latestMessage := ToolUsageCard.text parsed;
                        latestToolLines := ToolUsageCard.lines parsed;
                        tokenParts := tokenParts st; mergedContent := mergedContent st;
                        toolRolloutId := toolRolloutId st;
                        collectedMeta := collectedMeta st |}
              else Returned st)
     | _ => Returned st
     end)
    (fun st =>
  let urls :=
    normalizeGeneratedAssetUrls platform (prop "generatedImageUrls" modelResp) in
  match urls with
  | [] => Returned st
  | _ =>
      let imageLines :=
        map (fun u => "![Generated Image]("
                      ++ toImgProxyUrl globalCfg origin (encodeAssetPath platform u)
                      ++ ")") urls in
      let prefix := if nonEmpty (latestMessage st) then latestMessage st ++ nl else "" in
      Returned
        {| model := model st; latestMessage := latestMessage st;
           latestToolLines := latestToolLines st; tokenParts := tokenParts st;
           mergedContent := Some (prefix ++ join nl imageLines);
           toolRolloutId := toolRolloutId st; collectedMeta := collectedMeta st |}
  end)).

(** One turn of [for (const line of lines)]. *)
Definition collectLine (st : Collected) (line : string) : Outcome Collected :=
  match JSON_parse platform line with
  | None => Returned st
  | Some data =>
      bind (extractMetaFromLine data) (fun lineMeta =>
      let meta :=
        {| grokConversationId :=
             if nonEmpty (grokConversationId lineMeta) then grokConversationId lineMeta
             else grokConversationId (collectedMeta st);
           lastResponseId :=
             if nonEmpty (lastResponseId lineMeta) then lastResponseId lineMeta
             else lastResponseId (collectedMeta st) |} in
      let message := optProp "message" (prop "error" data) in
      if truthy message
      then Thrown (toString (match message with Some m => m | None => JNull end))
      else
        let grok := optProp "response" (prop "result" data) in
        if negb (truthy grok)
        then Returned
               {| model := model st; latestMessage := latestMessage st;
                  latestToolLines := latestToolLines st; tokenParts := tokenParts st;
                  mergedContent := mergedContent st; toolRolloutId := toolRolloutId st;
                  collectedMeta := meta |}
        else
          let grok := match grok with Some g => g | None => JNull end in
          let rawToken := match prop "token" grok with Some (JStr t) => t | _ => "" end in
          let tokens :=
            if nonEmpty rawToken
               && negb (existsb (fun t => includes t rawToken) (filteredTags settings))
            then (tokenParts st ++ [rawToken])%list else tokenParts st in
          let rolloutId := asStr (prop "rolloutId" grok) in
          let toolCardId := asStr (prop "toolUsageCardId" grok) in
          let rollout :=
            if nonEmpty rolloutId then rolloutId
            else if nonEmpty toolCardId then toolCardId
            else toolRolloutId st in
          let st :=
            {| model := model st; latestMessage := latestMessage st;
               latestToolLines := latestToolLines st; tokenParts := tokens;
               mergedContent := mergedContent st; toolRolloutId := rollout;
               collectedMeta := meta |} in
          let videoResp := prop "streamingVideoGenerationResponse" grok in
          match optProp "videoUrl" videoResp with
          | Some (JStr (String c u)) =>
              let videoUrl := String c u in
              let src := toImgProxyUrl globalCfg origin (encodeAssetPath platform videoUrl) in
              let poster :=
                match optProp "thumbnailImageUrl" videoResp with
                | Some (JStr (String d t)) =>
                    let p := toImgProxyUrl globalCfg origin
                               (encodeAssetPath platform (String d t)) in
                    if nonEmpty p then Some p else None
                | _ => None
                end in
              Returned
                {| model := requestedModel; latestMessage := latestMessage st;
                   latestToolLines := latestToolLines st; tokenParts := tokenParts st;
                   mergedContent := Some (buildVideoHtml src poster (posterPreview settings));
                   toolRolloutId := toolRolloutId st; collectedMeta := collectedMeta st |}
          | _ =>
              let modelResp := prop "modelResponse" grok in
              if negb (truthy modelResp) then Returned st
              else collectModelResponse st
                     (match modelResp with Some m => m | None => JNull end)
          end)
  end.

Fixpoint collectLines (st : Collected) (lines : list string) : Outcome Collected :=
  match lines with
  | [] => Returned st
  | line :: rest => bind (collectLine st line) (fun st' => collectLines st' rest)
  end.

(** [parseOpenAiFromGrokNdjson(grokResp, opts)] on the text of the body. *)
Definition parseOpenAiFromGrokNdjson (text : string) : Outcome Completion :=
  let lines := filter nonEmpty (map trim (splitOn LF text)) in
  bind
    (collectLines
       {| model := requestedModel; latestMessage := ""; latestToolLines := [];
          tokenParts := []; mergedContent := None; toolRolloutId := "";
          collectedMeta := {| grokConversationId := ""; lastResponseId := "" |} |}
       lines)
    (fun st =>
  let content := match mergedContent st with Some c => c | None => latestMessage st end in
  let content :=
    if negb (nonEmpty content)
       && match tokenParts st with [] => false | _ => true end
    then join "" (tokenParts st) else content in
  let content :=
    match latestToolLines st with
    | [] => content
    | toolLines =>
        let toolBlock := join nl toolLines in
        if nonEmpty content
        then "<think>" ++ nl ++ toolBlock ++ nl ++ "</think>" ++ nl ++ content
        else "<think>" ++ nl ++ toolBlock ++ nl ++ "</think>"
    end in
  match onMeta with
  | Some f =>
      bind (f (collectedMeta st)) (fun _ =>
      Returned {| completionModel := model st; completionContent := content;
                  reportedMeta := Some (collectedMeta st) |})
  | None =>
      Returned {| completionModel := model st; completionContent := content;
                  reportedMeta := None |}
  end).

End Collect.

End GrokStream.

(* ===================================================================== *)
(** ** Account settings over gRPC-Web (src/grok/accountSettings.ts)       *)
(* ===================================================================== *)

Module AccountSettings.

Import JsString GrpcWeb.
Local Open Scope string_scope.
Local Open Scope Z_scope.

Definition ACCEPT_TOS_URL : string :=
  "https://accounts.x.ai/auth_mgmt.AuthManagement/SetTosAcceptedVersion".
Definition SET_BIRTH_DATE_URL : string := "https://grok.com/rest/auth/set-birth-date".
Definition UPDATE_FEATURE_CONTROLS_URL : string :=
  "https://grok.com/auth_mgmt.AuthManagement/UpdateUserFeatureControls".

Definition PATH_ACCEPT_TOS : string := "/auth_mgmt.AuthManagement/SetTosAcceptedVersion".
Definition PATH_SET_BIRTH : string := "/rest/auth/set-birth-date".
Definition PATH_UPDATE_FEATURE_CONTROLS : string :=
  "/auth_mgmt.AuthManagement/UpdateUserFeatureControls".

Definition NSFW_FEATURE_NAME : string := "always_show_nsfw_content".

Inductive AccountSettingsStep := accept_tos | set_birth | nsfw.

Record AccountSettingsStepResult := {
  step : AccountSettingsStep;
  ok : bool;
  status : option Z;
  grpc_status : option Z;
  error : option string
}.

(** The flow's [ok] is [flow_ok]: a field name is used once in a module. *)
Record AccountSettingsFlowResult := {
  flow_ok : bool;
  steps : list AccountSettingsStepResult
}.

(** The body of a request: the bytes of a gRPC-Web frame, or
    [JSON.stringify({ birthDate })]. *)
Inductive Body :=
| FrameBody (bytes : Bytes)
| BirthDateBody (birthDate : string).

(** What [fetch] is called with; the method is [POST] in every call. *)
Record Request := {
  url : string;
  headers : list (string * string);
  body : Body
}.

(** What the steps read of a [Response]: its status, the entries of its
    [Headers], and what [arrayBuffer()] and [text()] settle with. *)
Record Response := {
  responseStatus : Z;
  responseHeaders : list (string * string);
  arrayBuffer : Outcome Bytes;
  responseText : Outcome string
}.

(** [response.ok] *)
Definition responseOk (r : Response) : bool :=
  (200 <=? responseStatus r) && (responseStatus r <=? 299).

(** The outside of the module: the codec's platform, [getDynamicHeaders]
    of ./headers for the settings of the call, [fetch] ([Thrown] when it
    rejects; a function of the request, the three requests of a flow
    differing by their URL), and the date [randomBirthDateIso] draws. *)
Record World := {
  platform : Platform;
  getDynamicHeaders : string -> list (string * string);
  fetch : Request -> Outcome Response;
  randomBirthDateIso : string
}.

(** A call with the requests it sent, in order. *)
Definition Sent (A : Type) : Type := A * list Request.

Definition stepResult (step : AccountSettingsStep) (ok : bool) (status : option Z)
    (grpcStatus : option Z) (error : option string) : AccountSettingsStepResult :=
  {| step := step;
     ok := ok;
     status := status;
     grpc_status := grpcStatus;
     error := match error with
              | Some e => if nonEmpty e then Some e else None
              | None => None
              end |}.

Definition trimText (text : string) : string :=
  let cleaned := trim text in
  if negb (nonEmpty cleaned) then "" else sliceTo 200 cleaned.

Definition buildGrpcHeaders (w : World) (pathname cookie origin referer : string)
    : list (string * string) :=
  let headers := getDynamicHeaders w pathname in
  let headers := setProp "Cookie" cookie headers in
  let headers := setProp "Origin" origin headers in
  let headers := setProp "Referer" referer headers in
  let headers := setProp "Content-Type" "application/grpc-web+proto" headers in
  let headers := setProp "x-grpc-web" "1" headers in
  let headers := setProp "x-user-agent" "connect-es/2.1.1" headers in
  let headers := setProp "Cache-Control" "no-cache" headers in
  let headers := setProp "Pragma" "no-cache" headers in
  let headers := setProp "Accept" "*/*" headers in
  let headers := setProp "Sec-Fetch-Dest" "empty" headers in
  setProp "Sec-Fetch-Site" "same-site" headers.

Definition buildNsfwPayload : Bytes :=
  let name := list_byte_of_string NSFW_FEATURE_NAME in
  let inner := Byte.x0a :: byteOfZ (Z.of_nat (List.length name)) :: name in
  ([Byte.x0a; Byte.x02; Byte.x10; Byte.x01; Byte.x12;
    byteOfZ (Z.of_nat (List.length inner))] ++ inner)%list.

(** [String(n)] for an integer below [1e21] in absolute value. *)
Definition numberToString (n : Z) : string :=
  DecimalString.NilZero.string_of_int (Z.to_int n).

Definition grpcErrorText (status : Z) (grpcStatus : option Z) (grpcMessage : string)
    : string :=
  match grpcStatus with
  | Some g =>
      if negb (g =? 0)
      then if nonEmpty grpcMessage
           then "gRPC " ++ numberToString g ++ ": " ++ grpcMessage
           else "gRPC " ++ numberToString g
      else "HTTP " ++ numberToString status
  | None => "HTTP " ++ numberToString status
  end.

(** [response.headers.get(name)] *)
Fixpoint headersGet (name : string) (entries : list (string * string)) : option string :=
  match entries with
  | [] => None
  | (k, v) :: rest =>
      if String.eqb (toLowerCase k) (toLowerCase name) then Some v
      else headersGet name rest
  end.

(** [parseGrpcWebFetchResponse] of the codec, on the entries of the
    response's [Headers]. *)
Definition parseGrpcWebFetchResponse (w : World) (response : Response)
    : Outcome GrpcWebParseResult :=
  bind (arrayBuffer response) (fun body =>
  parseGrpcWebResponse (platform w) body (Some (responseHeaders response))
    (headersGet "content-type" (responseHeaders response))).

Definition callGrpcStep (w : World) (step : AccountSettingsStep)
    (url pathname cookie origin referer : string) (payload : Bytes)
    : Sent AccountSettingsStepResult :=
  let headers := buildGrpcHeaders w pathname cookie origin referer in
  let request :=
    {| url := url; headers := headers; body := FrameBody (encodeGrpcWebFrame payload) |} in
  (match bind (fetch w request) (fun response =>
         bind (parseGrpcWebFetchResponse w response) (fun parsed =>
         Returned (response, parsed))) with
   | Returned (response, parsed) =>
       let grpcStatus := GrpcWeb.grpc_status parsed in
       let ok := responseOk response
                 && match grpcStatus with None => true | Some g => g =? 0 end in
       if negb ok
       then stepResult step false (Some (responseStatus response)) grpcStatus
              (Some (grpcErrorText (responseStatus response) grpcStatus
                       (grpc_message parsed)))
       else stepResult step true (Some (responseStatus response)) grpcStatus None
   | Thrown message => stepResult step false None None (Some message)
   end,
   [request]).

Definition setTosAcceptedVersion (w : World) (cookie : string)
    : Sent AccountSettingsStepResult :=
  callGrpcStep w accept_tos ACCEPT_TOS_URL PATH_ACCEPT_TOS cookie
    "https://accounts.x.ai" "https://accounts.x.ai/accept-tos" [Byte.x10; Byte.x01].

Definition setBirthDate (w : World) (cookie : string) (birthDate : option string)
    : Sent AccountSettingsStepResult :=
  let headers := getDynamicHeaders w PATH_SET_BIRTH in
  let headers := setProp "Cookie" cookie headers in
  let headers := setProp "Origin" "https://grok.com" headers in
  let headers := setProp "Referer" "https://grok.com/?_s=home" headers in
  let headers := setProp "Content-Type" "application/json" headers in
  let headers := setProp "Accept" "*/*" headers in
  let headers := setProp "Sec-Fetch-Dest" "empty" headers in
  let headers := setProp "Sec-Fetch-Site" "same-origin" headers in
  let birthDate :=
    orElse (trim (match birthDate with Some b => b | None => "" end))
           (randomBirthDateIso w) in
  let request :=
    {| url := SET_BIRTH_DATE_URL; headers := headers; body := BirthDateBody birthDate |} in
  (match fetch w request with
   | Returned response =>
       if negb (responseStatus response =? 200) && negb (responseStatus response =? 204)
       then
         let bodyText :=
           trimText (match responseText response with
                     | Returned t => t
                     | Thrown _ => ""
                     end) in
         let error :=
           if nonEmpty bodyText
           then "HTTP " ++ numberToString (responseStatus response) ++ ": " ++ bodyText
           else "HTTP " ++ numberToString (responseStatus response) in
         stepResult set_birth false (Some (responseStatus response)) None (Some error)
       else stepResult set_birth true (Some (responseStatus response)) None None
   | Thrown message => stepResult set_birth false None None (Some message)
   end,
   [request]).

Definition updateUserFeatureControls (w : World) (cookie : string)
    : Sent AccountSettingsStepResult :=
  callGrpcStep w nsfw UPDATE_FEATURE_CONTROLS_URL PATH_UPDATE_FEATURE_CONTROLS cookie
    "https://grok.com" "https://grok.com/?_s=data" buildNsfwPayload.

Definition runAccountSettingsFlow (w : World) (cookie : string)
    (birthDate : option string) : Sent AccountSettingsFlowResult :=
  let (tos, sent1) := setTosAcceptedVersion w cookie in
  if negb (ok tos) then ({| flow_ok := false; steps := [tos] |}, sent1)
  else
    let (birth, sent2) := setBirthDate w cookie birthDate in
    if negb (ok birth)
    then ({| flow_ok := false; steps := [tos; birth] |}, (sent1 ++ sent2)%list)
    else
      let (nsfw_, sent3) := updateUserFeatureControls w cookie in
      ({| flow_ok := ok nsfw_; steps := [tos; birth; nsfw_] |},
       (sent1 ++ sent2 ++ sent3)%list).

End AccountSettings.

(* ===================================================================== *)
(** ** The conversation store                                            *)
(* ===================================================================== *)

Module ConversationsProofs.

Import JsString Conversations.
Local Open Scope Z_scope.

(** *** Generic list facts *)

Lemma filter_filter {A} (f g : A -> bool) (l : list A) :
  filter f (filter g l) = filter (fun x => g x && f x) l.
Proof.
  induction l as [|x l IH]; simpl; [reflexivity|].
  destruct (g x); simpl; [destruct (f x)|]; now rewrite IH.
Qed.

Lemma filter_perm {A} (f : A -> bool) (l1 l2 : list A) :
  Permutation l1 l2 -> Permutation (filter f l1) (filter f l2).
Proof.
  induction 1 as [| x l l' _ IH | x y l | l l' l'' _ IH1 _ IH2]; simpl.
  - constructor.
  - destruct (f x); [now constructor | exact IH].
  - destruct (f x), (f y); try apply Permutation_refl.
    apply perm_swap.
  - now transitivity (filter f l').
Qed.

Lemma filter_none {A} (f : A -> bool) (l : list A) :
  (forall x, In x l -> f x = false) -> filter f l = [].
Proof.
  induction l as [|x l IH]; simpl; intros H; [reflexivity|].
  rewrite (H x (or_introl eq_refl)). apply IH. intros; apply H; now right.
Qed.

Lemma filter_all {A} (f : A -> bool) (l : list A) :
  (forall x, In x l -> f x = true) -> filter f l = l.
Proof.
  induction l as [|x l IH]; simpl; intros H; [reflexivity|].
  rewrite (H x (or_introl eq_refl)). f_equal. apply IH. intros; apply H; now right.
Qed.

Lemma filter_split_length {A} (f : A -> bool) (l : list A) :
  (List.length (filter f l) + List.length (filter (fun x => negb (f x)) l)
   = List.length l)%nat.
Proof.
  induction l as [|x l IH]; simpl; [reflexivity|].
  destruct (f x); simpl; lia.
Qed.

(** *** Primary key *)

Lemma has_pk_iff s id r : has_pk s id r = true <-> pk r = (s, id).
Proof.
  unfold has_pk, pk. rewrite andb_true_iff, !String.eqb_eq.
  split; [intros [-> ->]; reflexivity | intros H; now inversion H].
Qed.

Lemma pk_inj db r d :
  pk_unique db -> In r db -> In d db -> pk r = pk d -> r = d.
Proof.
  unfold pk_unique. induction db as [|x db IH]; simpl; [tauto|].
  intros Hnd Hr Hd Heq. inversion Hnd as [|? ? Hx Hnd']; subst.
  destruct Hr as [->|Hr], Hd as [->|Hd]; auto.
  - exfalso. apply Hx. rewrite Heq. now apply in_map.
  - exfalso. apply Hx. rewrite <- Heq. now apply in_map.
Qed.

Lemma pk_unique_NoDup db : pk_unique db -> NoDup db.
Proof. apply NoDup_map_inv. Qed.

(** *** Batched deletes *)

Definition hit (keys : list (string * string)) (r : ConversationRow) : bool :=
  existsb (fun k => has_pk (fst k) (snd k) r) keys.

Lemma batch_delete_filter keys db :
  batch_delete keys db = filter (fun r => negb (hit keys r)) db.
Proof.
  revert db. induction keys as [|k keys IH]; intros db; simpl.
  - symmetry. now apply filter_all.
  - unfold batch_delete in *. simpl. rewrite IH. unfold delete_by_pk.
    rewrite filter_filter. apply filter_ext. intros r.
    now rewrite negb_orb.
Qed.

Lemma hit_rows db rows r :
  pk_unique db -> incl rows db -> In r db ->
  hit (map pk rows) r = true <-> In r rows.
Proof.
  intros Hu Hin Hr. unfold hit. rewrite existsb_exists. split.
  - intros [k [Hk Hpk]]. apply in_map_iff in Hk. destruct Hk as [d [<- Hd]].
    simpl in Hpk. apply has_pk_iff in Hpk. fold (pk d) in Hpk.
    rewrite (pk_inj db r d Hu Hr (Hin d Hd) Hpk). exact Hd.
  - intros Hd. exists (pk r). split; [now apply in_map|].
    apply has_pk_iff. reflexivity.
Qed.


Lemma batch_delete_rows db del (f : ConversationRow -> bool) :
  pk_unique db -> incl del db -> NoDup del ->
  (forall r, In r (batch_delete (map pk del) db) <-> In r db /\ ~ In r del)
  /\ (List.length (filter f (batch_delete (map pk del) db))
      + List.length (filter f del)
      = List.length (filter f db))%nat.
Proof.
  intros Hu Hin Hnd. rewrite batch_delete_filter. split.
  - intros r. rewrite filter_In, negb_true_iff. split.
    + intros [Hr Hh]. split; [exact Hr|]. intros Hd.
      apply (hit_rows db del r Hu Hin Hr) in Hd. congruence.
    + intros [Hr Hd]. split; [exact Hr|].
      destruct (hit (map pk del) r) eqn:E; [|reflexivity].
      exfalso. apply Hd. now apply (hit_rows db del r Hu Hin Hr).
  - pose proof (filter_split_length (hit (map pk del)) (filter f db)) as Hsplit.
    assert (E1 : filter f (filter (fun r => negb (hit (map pk del) r)) db)
                 = filter (fun x => negb (hit (map pk del) x)) (filter f db)).
    { rewrite !filter_filter. apply filter_ext. intros r. apply andb_comm. }
    assert (E2 : List.length (filter (hit (map pk del)) (filter f db))
                 = List.length (filter f del)).
    { apply Permutation_length. apply NoDup_Permutation.
      - apply NoDup_filter, NoDup_filter. now apply pk_unique_NoDup.
      - now apply NoDup_filter.
      - intros r. rewrite !filter_In. split.
        + intros [[Hr Hf] Hh]. split; [|exact Hf].
          now apply (hit_rows db del r Hu Hin Hr).
        + intros [Hd Hf]. repeat split; auto.
          apply (hit_rows db del r Hu Hin (Hin r Hd)). exact Hd. }
    rewrite E1, <- E2. lia.
Qed.

(** *** ORDER BY *)

Definition ascending (key : ConversationRow -> Z) : list ConversationRow -> Prop :=
  StronglySorted (fun a b => key a <= key b).

Lemma insert_asc_perm key r l : Permutation (r :: l) (insert_asc key r l).
Proof.
  induction l as [|x l IH]; simpl; [apply Permutation_refl|].
  destruct (key r <? key x); [apply Permutation_refl|].
  rewrite perm_swap. now constructor.
Qed.

Lemma order_by_asc_perm key l : Permutation l (order_by_asc key l).
Proof.
  induction l as [|x l IH]; simpl; [constructor|].
  rewrite <- insert_asc_perm. now constructor.
Qed.

Lemma insert_asc_sorted key r l :
  ascending key l -> ascending key (insert_asc key r l).
Proof.
  unfold ascending. induction 1 as [|x l Hs IH Hall]; simpl.
  - repeat constructor.
  - destruct (key r <? key x) eqn:E.
    + apply Z.ltb_lt in E. constructor; [now constructor|].
      constructor; [lia|]. eapply Forall_impl; [|exact Hall]. simpl; intros; lia.
    + apply Z.ltb_ge in E. constructor; [exact IH|].
      rewrite <- insert_asc_perm. now constructor.
Qed.

Lemma order_by_asc_sorted key l : ascending key (order_by_asc key l).
Proof.
  induction l as [|x l IH]; simpl; [constructor|]. now apply insert_asc_sorted.
Qed.

Lemma ascending_split key l n a b :
  ascending key l -> In a (firstn n l) -> In b (skipn n l) -> key a <= key b.
Proof.
  unfold ascending. intros Hs. revert n. induction Hs as [|x l Hs IH Hall]; intros n.
  - destruct n; simpl; tauto.
  - destruct n as [|n]; simpl; [tauto|]. intros [->|Ha] Hb.
    + rewrite Forall_forall in Hall. apply Hall.
      rewrite <- (firstn_skipn n l). apply in_or_app. now right.
    + now apply (IH n).
Qed.

Lemma in_firstn_or_skipn {A} (n : nat) (l : list A) x :
  In x l -> In x (firstn n l) \/ In x (skipn n l).
Proof. intros H. rewrite <- (firstn_skipn n l) in H. now apply in_app_or. Qed.


Lemma NoDup_skipn {A} (n : nat) (l : list A) : NoDup l -> NoDup (skipn n l).
Proof.
  intros H. rewrite <- (firstn_skipn n l) in H. now apply NoDup_app_remove_l in H.
Qed.


Lemma in_skipn {A} (n : nat) (l : list A) x : In x (skipn n l) -> In x l.
Proof. intros H. rewrite <- (firstn_skipn n l). apply in_or_app. now right. Qed.


(** *** upsertConversation *)

Lemma do_update_pk old new : pk (do_update old new) = pk old.
Proof. reflexivity. Qed.

Lemma on_conflict_pk new db :
  map pk (map (fun r => if has_pk (scope new) (openai_conversation_id new) r
                        then do_update r new else r) db) = map pk db.
Proof.
  rewrite map_map. apply map_ext. intros r.
  now destruct (has_pk (scope new) (openai_conversation_id new) r).
Qed.

Lemma insert_on_conflict_update_pk_unique new db :
  pk_unique db -> pk_unique (insert_on_conflict_update new db).
Proof.
  unfold insert_on_conflict_update, pk_unique. intros Hu.
  destruct (existsb _ db) eqn:E.
  - now rewrite on_conflict_pk.
  - rewrite map_app. simpl.
    apply NoDup_rev in Hu. rewrite <- rev_involutive. apply NoDup_rev.
    rewrite rev_app_distr. simpl. constructor; [|exact Hu].
    rewrite <- in_rev. intros Hin. apply in_map_iff in Hin.
    destruct Hin as [r [Hpk Hr]].
    assert (existsb (has_pk (scope new) (openai_conversation_id new)) db = true).
    { apply existsb_exists. exists r. split; [exact Hr|]. now apply has_pk_iff. }
    congruence.
Qed.


(** C10.  When [upsertConversation] meets a row with the same [scope] and
    [openai_conversation_id], that row keeps its [created_at] and its two
    key columns, and takes [grok_conversation_id], [last_response_id],
    [share_link_id], [token], [history_hash], [updated_at] and
    [expires_at] from the values bound to the statement; it stays the only
    row with that key, and every other row is untouched. *)
Theorem upsertConversation_existing_row
    (nowMs : Z) (db : Table) (row : UpsertConversationInput)
    (old : ConversationRow) :
  pk_unique db ->
  In old db ->
  scope old = in_scope row ->
  openai_conversation_id old = in_openai_conversation_id row ->
  let db' := upsertConversation nowMs db row in
  let updated :=
    {| scope := scope old;
       openai_conversation_id := openai_conversation_id old;
       grok_conversation_id := in_grok_conversation_id row;
       last_response_id := in_last_response_id row;
       share_link_id :=
         trim (match in_share_link_id row with Some v => v | None => EmptyString end);
       token := in_token row;
       history_hash :=
         trim (match in_history_hash row with Some v => v | None => EmptyString end);
       created_at := created_at old;
       updated_at := match in_updated_at row with Some v => v | None => nowMs end;
       expires_at := in_expires_at row |} in
  In updated db'
  /\ (forall r, In r db' -> pk r = pk old -> r = updated)
  /\ (forall r, pk r <> pk old -> (In r db' <-> In r db))
  /\ List.length db' = List.length db
  /\ pk_unique db'.
Proof.
  intros Hu Hold Hs Hid db' updated.
  assert (Hhas : has_pk (in_scope row) (in_openai_conversation_id row) old = true).
  { apply has_pk_iff. unfold pk. now rewrite Hs, Hid. }
  assert (Hex : existsb (has_pk (in_scope row) (in_openai_conversation_id row)) db = true).
  { apply existsb_exists. now exists old. }
  assert (Hdb' : db' = map (fun r => if has_pk (in_scope row) (in_openai_conversation_id row) r
                                     then do_update r (bound_row nowMs row) else r) db).
  { unfold db', upsertConversation, insert_on_conflict_update. simpl. now rewrite Hex. }
  assert (Hup : do_update old (bound_row nowMs row) = updated) by reflexivity.
  assert (Hpk' : pk_unique db').
  { unfold db', upsertConversation. now apply insert_on_conflict_update_pk_unique. }
  assert (Hin : In updated db').
  { rewrite Hdb'. apply in_map_iff. exists old. now rewrite Hhas. }
  repeat split.
  - exact Hin.
  - intros r Hr Hpk. apply (pk_inj db' r updated Hpk' Hr Hin). exact Hpk.
  - rewrite Hdb'. intros Hr. apply in_map_iff in Hr. destruct Hr as [x [Hx Hxin]].
    destruct (has_pk _ _ x) eqn:E; [|now subst].
    exfalso. apply H. subst r. rewrite do_update_pk.
    apply has_pk_iff in E. apply has_pk_iff in Hhas. congruence.
  - rewrite Hdb'. intros Hr. apply in_map_iff. exists r. split; [|exact Hr].
    destruct (has_pk _ _ r) eqn:E; [|reflexivity].
    exfalso. apply H. apply has_pk_iff in E. apply has_pk_iff in Hhas. congruence.
  - rewrite Hdb'. apply length_map.
  - exact Hpk'.
Qed.


(** *** trimConversationsForToken *)

Lemma for_token_scope s t r : for_token s t r = true -> scope r = s.
Proof. unfold for_token. rewrite andb_true_iff, !String.eqb_eq. tauto. Qed.

Lemma keys_of_rows s (rows : list ConversationRow) :
  (forall r, In r rows -> scope r = s) ->
  map (fun id => (s, id)) (map openai_conversation_id rows) = map pk rows.
Proof.
  intros H. rewrite map_map. apply map_ext_in. intros r Hr.
  unfold pk. now rewrite (H r Hr).
Qed.

Lemma pk_unique_filter (f : ConversationRow -> bool) db :
  pk_unique db -> pk_unique (filter f db).
Proof.
  unfold pk_unique. induction db as [|x db IH]; simpl; intros H; [constructor|].
  inversion H as [|? ? Hx Hr]; subst.
  destruct (f x); simpl; [constructor|]; auto.
  intros Hin. apply Hx. apply in_map_iff in Hin. destruct Hin as [y [E Hy]].
  apply in_map_iff. exists y. split; [exact E|]. now apply filter_In in Hy.
Qed.

(** C7 (amended).  With [k' = max 1 (keep or 1)] the effective keep count,
    [trimConversationsForToken] leaves [min k' before] rows for the
    (scope, token) pair, hence at most [keep] of them whenever
    [1 <= keep]; every row it removes belongs to the pair, whether a row of
    the pair stays or not, and is no more recent than any row of the pair
    that stays; no other row is touched: the rows outside the pair are the
    same before and after, in the same order, no row is added or changed
    and the keys stay unique; and the number it returns is the number of
    rows removed from the table. *)
Theorem trimConversationsForToken_keeps_most_recent
    (db : Table) (s t : string) (keep : Z) :
  pk_unique db ->
  let db' := fst (trimConversationsForToken db s t keep) in
  let n := snd (trimConversationsForToken db s t keep) in
  let before := Z.of_nat (List.length (filter (for_token s t) db)) in
  let after := Z.of_nat (List.length (filter (for_token s t) db')) in
  after = Z.min (Z.max 1 (if keep =? 0 then 1 else keep)) before
  /\ (1 <= keep -> after <= keep)
  /\ (forall gone, In gone db -> ~ In gone db' -> for_token s t gone = true)
  /\ (forall kept gone,
        In kept db' -> for_token s t kept = true ->
        In gone db -> ~ In gone db' ->
        updated_at gone <= updated_at kept)
  /\ filter (fun r => negb (for_token s t r)) db'
     = filter (fun r => negb (for_token s t r)) db
  /\ (forall r, In r db' -> In r db)
  /\ pk_unique db'
  /\ n = Z.of_nat (List.length db) - Z.of_nat (List.length db').
Proof.
  intros Hu. cbv zeta.
  set (F := filter (for_token s t) db).
  set (S := order_by_desc updated_at F).
  assert (HpermS : Permutation F S) by apply order_by_asc_perm.
  assert (HlenS : List.length S = List.length F)
    by (symmetry; now apply Permutation_length).
  assert (Hmin : forall after,
             after = Z.min (keepCount keep) (Z.of_nat (List.length F))
             -> after = Z.min (Z.max 1 (if keep =? 0 then 1 else keep))
                              (Z.of_nat (List.length F))
                /\ (1 <= keep -> after <= keep)).
  { intros after E. change (Z.max 1 (if keep =? 0 then 1 else keep)) with (keepCount keep).
    split; [exact E|]. intros Hk. rewrite E. unfold keepCount, numOr.
    destruct (keep =? 0) eqn:E0; [apply Z.eqb_eq in E0; lia | lia]. }
  unfold trimConversationsForToken. fold F. fold S. rewrite length_map.
  destruct (Z.of_nat (List.length S) <=? keepCount keep) eqn:Ecmp; cbn [fst snd].
  - apply Z.leb_le in Ecmp. fold F.
    apply and_assoc. split; [apply Hmin; lia|].
    split; [intros gone Hg Hng; contradiction|].
    split; [intros kept gone _ _ Hg Hng; contradiction|].
    split; [reflexivity|].
    split; [tauto|]. split; [exact Hu | lia].
  - apply Z.leb_gt in Ecmp.
    set (kc := Z.to_nat (keepCount keep)) in *.
    set (del := skipn kc S).
    assert (Hdelin : forall r, In r del -> In r F).
    { intros r Hr. apply (Permutation_in r (Permutation_sym HpermS)).
      now apply in_skipn with (n := kc). }
    assert (Hdelft : forall r, In r del -> for_token s t r = true).
    { intros r Hr. apply Hdelin in Hr. now apply filter_In in Hr. }
    assert (Hkeys : map (fun id => (s, id)) (skipn kc (map openai_conversation_id S))
                    = map pk del).
    { rewrite skipn_map. apply keys_of_rows. intros r Hr.
      apply for_token_scope with (t := t). now apply Hdelft. }
    rewrite Hkeys. rewrite skipn_map, length_map. fold del.
    assert (Hincl : incl del db).
    { intros r Hr. apply Hdelin in Hr. now apply filter_In in Hr. }
    assert (HndS : NoDup S).
    { apply (Permutation_NoDup HpermS). apply NoDup_filter. now apply pk_unique_NoDup. }
    assert (Hnd : NoDup del) by (now apply NoDup_skipn).
    destruct (batch_delete_rows db del (for_token s t) Hu Hincl Hnd) as [Hmem Hcnt].
    destruct (batch_delete_rows db del (fun _ => true) Hu Hincl Hnd) as [_ Hall].
    rewrite !filter_all in Hall by reflexivity.
    rewrite (filter_all (for_token s t) del Hdelft) in Hcnt.
    assert (Hlendel : (List.length del + kc = List.length S)%nat).
    { unfold del. rewrite length_skipn. unfold kc in *. lia. }
    set (db' := batch_delete (map pk del) db) in *.
    apply and_assoc. split.
    { apply Hmin. fold F in Hcnt. unfold kc, keepCount in *. lia. }
    assert (Hgone : forall gone, In gone db -> ~ In gone db' -> In gone del).
    { intros gone Hg Hng. destruct (hit (map pk del) gone) eqn:Eh.
      - now apply (hit_rows db del gone Hu Hincl Hg).
      - exfalso. apply Hng. apply Hmem. split; [exact Hg|].
        intros Hd. apply (hit_rows db del gone Hu Hincl Hg) in Hd. congruence. }
    split; [intros gone Hg Hng; apply Hdelft; now apply Hgone|].
    split.
    { intros kept gone Hk Hkt Hg Hng.
      assert (Hgd : In gone del) by (now apply Hgone).
      assert (HkS : In kept S).
      { apply (Permutation_in kept HpermS). apply filter_In. split; [|exact Hkt].
        now apply (proj1 (Hmem kept)). }
      destruct (in_firstn_or_skipn kc S kept HkS) as [Hf|Hf].
      - pose proof (ascending_split (fun r => - updated_at r) S kc kept gone
                      (order_by_asc_sorted _ F) Hf Hgd) as Hle. simpl in Hle. lia.
      - exfalso. now apply (proj1 (Hmem kept)) in Hk. }
    split.
    { unfold db'. rewrite batch_delete_filter, filter_filter.
      apply filter_ext_in. intros r Hr.
      destruct (for_token s t r) eqn:Et; cbn [negb]; [apply andb_false_r|].
      destruct (hit (map pk del) r) eqn:Eh; [|reflexivity].
      apply (hit_rows db del r Hu Hincl Hr) in Eh. apply Hdelft in Eh. congruence. }
    split; [intros r Hr; now apply (proj1 (Hmem r))|].
    split; [unfold db'; rewrite batch_delete_filter; now apply pk_unique_filter|].
    lia.
Qed.


(** *** cleanupExpiredConversations *)




(** *** Concrete tables *)

Local Open Scope string_scope.

Definition sample_row (id : string) (tok : string) (upd exp : Z) : ConversationRow :=
  {| scope := "k:ab"; openai_conversation_id := id;
     grok_conversation_id := "g-" ++ id; last_response_id := "r-" ++ id;
     share_link_id := ""; token := tok; history_hash := "";
     created_at := 1; updated_at := upd; expires_at := exp |}.

Definition sample_table : Table :=
  [ sample_row "c1" "tokA" 10 100;
    sample_row "c2" "tokA" 30 300;
    sample_row "c3" "tokB" 20 200;
    sample_row "c4" "tokA" 20 150 ].

Lemma sample_table_pk_unique : pk_unique sample_table.
Proof.
  unfold pk_unique. simpl.
  repeat (constructor; [simpl; intuition discriminate|]). constructor.
Defined.

Example trim_sample :
  trimConversationsForToken sample_table "k:ab" "tokA" 2
  = ([sample_row "c2" "tokA" 30 300; sample_row "c3" "tokB" 20 200;
      sample_row "c4" "tokA" 20 150], 1).
Proof. reflexivity. Qed.

Example cleanup_sample :
  cleanupExpiredConversations sample_table 2 250
  = ([sample_row "c2" "tokA" 30 300; sample_row "c3" "tokB" 20 200], 2).
Proof. reflexivity. Qed.

Lemma trimConversationsForToken_witness :
  pk_unique sample_table
  /\ Z.of_nat (List.length (filter (for_token "k:ab" "tokA")
                 (fst (trimConversationsForToken sample_table "k:ab" "tokA" 2))))
     = Z.min (Z.max 1 2) 3.
Proof.
  split; [exact sample_table_pk_unique|].
  exact (proj1 (trimConversationsForToken_keeps_most_recent
                  sample_table "k:ab" "tokA" 2 sample_table_pk_unique)).
Defined.

(** C7 as stated fails for [keep = 0]: [keepCount] is [1], so the one row
    of the pair remains and nothing is deleted. *)
Lemma trimConversationsForToken_keep_zero :
  trimConversationsForToken [sample_row "c1" "tokA" 10 100] "k:ab" "tokA" 0
  = ([sample_row "c1" "tokA" 10 100], 0)
  /\ Z.of_nat (List.length (filter (for_token "k:ab" "tokA")
                 (fst (trimConversationsForToken
                         [sample_row "c1" "tokA" 10 100] "k:ab" "tokA" 0))))
     = 1.
Proof. split; reflexivity. Qed.



Definition sample_input : UpsertConversationInput :=
  {| in_scope := "k:ab"; in_openai_conversation_id := "c2";
     in_grok_conversation_id := "g-new"; in_last_response_id := "r-new";
     in_share_link_id := Some " sl "; in_token := "tokC";
     in_history_hash := None; in_created_at := Some 999;
     in_updated_at := None; in_expires_at := 900 |}.

Lemma upsertConversation_witness :
  pk_unique sample_table
  /\ In (sample_row "c2" "tokA" 30 300) sample_table
  /\ In {| scope := "k:ab"; openai_conversation_id := "c2";
           grok_conversation_id := "g-new"; last_response_id := "r-new";
           share_link_id := "sl"; token := "tokC"; history_hash := "";
           created_at := 1; updated_at := 500; expires_at := 900 |}
        (upsertConversation 500 sample_table sample_input).
Proof.
  split; [exact sample_table_pk_unique|].
  split; [simpl; tauto|].
  exact (proj1 (upsertConversation_existing_row
                  500 sample_table sample_input (sample_row "c2" "tokA" 30 300)
                  sample_table_pk_unique
                  (or_intror (or_introl eq_refl)) eq_refl eq_refl)).
Defined.

(** *** The read *)

(** X4.  [getConversationById] first deletes the row of the key when it
    has expired and leaves every other row; the row it returns is a row
    of the table with that key that has not expired, and it returns
    none only when the table holds no such row. *)
Theorem getConversationById_live_row
    (db : Table) (s id : string) (atMs : Z) :
  (forall r, In r (fst (getConversationById db s id atMs))
             <-> In r db /\ (pk r = (s, id) -> atMs < expires_at r))
  /\ (forall r, snd (getConversationById db s id atMs) = Some r ->
                In r db /\ pk r = (s, id) /\ atMs < expires_at r)
  /\ (snd (getConversationById db s id atMs) = None ->
       forall r, In r db -> pk r = (s, id) -> expires_at r <= atMs).
Proof.
  assert (Hkept : forall r, In r (fst (getConversationById db s id atMs))
                            <-> In r db /\ (pk r = (s, id) -> atMs < expires_at r)).
  { intros r. unfold getConversationById. cbn [fst]. rewrite filter_In.
    rewrite negb_true_iff, andb_false_iff, <- not_true_iff_false, has_pk_iff.
    rewrite Z.leb_gt. split; intros [Hin H]; (split; [exact Hin|]).
    - intros Hk. destruct H as [H|H]; [contradiction|exact H].
    - destruct (has_pk s id r) eqn:E.
      + right. apply H. now apply has_pk_iff.
      + left. intros Hk. apply has_pk_iff in Hk. congruence. }
  split; [exact Hkept|]. split.
  - intros r Hfound. unfold getConversationById in Hfound. cbn [snd] in Hfound.
    apply find_some in Hfound. destruct Hfound as [Hin H].
    apply andb_true_iff in H. destruct H as [Hk Hlive].
    apply filter_In in Hin. apply has_pk_iff in Hk. apply Z.ltb_lt in Hlive.
    repeat split; tauto.
  - intros Hnone r Hin Hk.
    destruct (Z.le_gt_cases (expires_at r) atMs) as [Hle|Hgt]; [exact Hle|].
    exfalso. unfold getConversationById in Hnone. cbn [snd] in Hnone.
    assert (Hin' : In r (fst (getConversationById db s id atMs))).
    { apply Hkept. split; [exact Hin|intros _; exact Hgt]. }
    pose proof (find_none _ _ Hnone r Hin') as H. cbv beta in H.
    apply has_pk_iff in Hk. rewrite Hk in H. cbn [andb] in H.
    apply Z.ltb_ge in H. lia.
Qed.

End ConversationsProofs.


(* ===================================================================== *)
(** ** The history hash                                                  *)
(* ===================================================================== *)

Module HistoryProofs.

Import JsString History.
Local Open Scope string_scope.

(** *** The hash as the specification words it *)

Definition roleIs (r : string) (m : GenericMessage) : bool :=
  String.eqb (orEmpty (role m)) r.

(** [r:<t>] for each message of role [r] whose text [t] is not empty, in
    order; [textOf] says what the text of a message is. *)
Definition partsFor (textOf : GenericMessage -> string) (r : string)
    (messages : list GenericMessage) : list string :=
  map (fun m => r ++ ":" ++ textOf m)
      (filter (fun m => roleIs r m && nonEmpty (textOf m)) messages).

Definition notNil (l : list string) : bool :=
  match l with [] => false | _ => true end.

Definition hashOfParts (textOf : GenericMessage -> string)
    (messages : list GenericMessage) (excludeLastUser : bool) : string :=
  let users := partsFor textOf "user" messages in
  let usedUsers :=
    if excludeLastUser && existsb (roleIs "assistant") messages && notNil users
    then removelast users else users in
  match (partsFor textOf "system" messages ++ usedUsers)%list with
  | [] => ""
  | parts => Sha256.sha256Hex (join nl parts)
  end.

(** The text as the claim has it: what [extractText] returns. *)
Definition extractedText (m : GenericMessage) : string := extractText (content m).

(** The text as the code uses it: what [extractText] returns, trimmed. *)
Definition trimmedText (m : GenericMessage) : string := trim (extractText (content m)).

(** *** The loop against the declarative parts *)

Lemma visit_fold (messages : list GenericMessage) (st : Parts) :
  fold_left visit messages st
  = {| systemParts := systemParts st ++ partsFor trimmedText "system" messages;
       userParts := userParts st ++ partsFor trimmedText "user" messages;
       hasAssistant := hasAssistant st || existsb (roleIs "assistant") messages |}.
Proof.
  revert st. induction messages as [|m ms IH]; intros st.
  - simpl. rewrite !app_nil_r, orb_false_r. now destruct st.
  - cbn [fold_left]. rewrite IH. unfold visit, partsFor, roleIs, trimmedText.
    cbn [filter existsb map].
    destruct (String.eqb (orEmpty (role m)) "assistant") eqn:Ea.
    + apply String.eqb_eq in Ea. rewrite Ea. cbn. now rewrite orb_true_r.
    + destruct (nonEmpty (trim (extractText (content m)))) eqn:Et; cbn [negb].
      * destruct (String.eqb (orEmpty (role m)) "system") eqn:Es.
        -- apply String.eqb_eq in Es. rewrite Es. cbn. now rewrite <- app_assoc.
        -- destruct (String.eqb (orEmpty (role m)) "user") eqn:Eu; cbn.
           ++ now rewrite <- app_assoc.
           ++ reflexivity.
      * rewrite !andb_false_r. reflexivity.
Qed.

Lemma notNil_length (l : list string) : (0 <? List.length l)%nat = notNil l.
Proof. now destruct l. Qed.

Lemma firstn_pred_removelast (l : list string) :
  firstn (List.length l - 1) l = removelast l.
Proof. rewrite Nat.sub_1_r. symmetry. apply removelast_firstn_len. Qed.

Lemma computeHistoryHash_parts (messages : list GenericMessage) (ex : bool) :
  computeHistoryHash messages ex = hashOfParts trimmedText messages ex.
Proof.
  destruct messages as [|m ms]; [now destruct ex|].
  unfold computeHistoryHash, hashOfParts. rewrite visit_fold.
  cbn [systemParts userParts hasAssistant app orb].
  rewrite notNil_length, firstn_pred_removelast.
  destruct (partsFor trimmedText "system" (m :: ms) ++ _)%list; reflexivity.
Qed.

Definition msg (r c : string) : GenericMessage :=
  {| role := Some r; content := ContentString c |}.

(** C6 (amended).  [computeHistoryHash] is the lowercase-hex SHA-256 of the
    parts [system:<t>] then [user:<t>] joined by a newline, where [<t>] is
    the extracted text with leading and trailing whitespace trimmed and a
    message whose trimmed text is empty gives no part; the last user part is
    dropped exactly when [excludeLastUser] holds, an assistant message is
    present and a user part exists; with no part left the result is the
    empty string.  On [system S; user U1; assistant A1; user U2] with
    [excludeLastUser] the hash is that of ["system:S\nuser:U1"], as for the
    prefix without the last user message and without [excludeLastUser]. *)
Theorem computeHistoryHash_trimmed_parts :
  (forall messages excludeLastUser,
     computeHistoryHash messages excludeLastUser
     = hashOfParts trimmedText messages excludeLastUser)
  /\ computeHistoryHash
       [msg "system" "S"; msg "user" "U1"; msg "assistant" "A1"; msg "user" "U2"] true
     = Sha256.sha256Hex ("system:S" ++ nl ++ "user:U1")
  /\ computeHistoryHash
       [msg "system" "S"; msg "user" "U1"; msg "assistant" "A1"] false
     = Sha256.sha256Hex ("system:S" ++ nl ++ "user:U1").
Proof.
  split; [exact computeHistoryHash_parts|].
  split; vm_compute; reflexivity.
Qed.

(** C6 as stated, with [<t>] the extracted text as it is, fails on a user
    message with leading whitespace: the code hashes ["user:U"], the claim
    ["user: U"]. *)
Lemma computeHistoryHash_untrimmed_differs :
  computeHistoryHash [msg "user" " U"] false = Sha256.sha256Hex "user:U"
  /\ hashOfParts extractedText [msg "user" " U"] false = Sha256.sha256Hex "user: U"
  /\ String.eqb (computeHistoryHash [msg "user" " U"] false)
                (hashOfParts extractedText [msg "user" " U"] false) = false.
Proof. repeat split; vm_compute; reflexivity. Qed.

End HistoryProofs.


(* ===================================================================== *)
(** ** The gRPC-Web codec                                                *)
(* ===================================================================== *)

Module GrpcWebProofs.

Import JsString GrpcWeb.
Local Open Scope Z_scope.

(** *** Bytes and 32-bit arithmetic *)

Lemma byteToZ_byteOfZ (z : Z) : 0 <= z < 256 -> byteToZ (byteOfZ z) = z.
Proof.
  intros Hz. unfold byteToZ, byteOfZ.
  replace (Z.land z 255) with z.
  2:{ change 255 with (Z.ones 8). rewrite Z.land_ones by lia.
      symmetry. apply Z.mod_small. change (2 ^ 8) with 256. lia. }
  destruct (Byte.of_N (Z.to_N z)) as [b|] eqn:E.
  - apply Byte.to_of_N in E. rewrite E. lia.
  - apply Byte.of_N_None_iff in E. lia.
Qed.

Lemma toInt32_small (z : Z) : - 2 ^ 31 <= z < 2 ^ 31 -> toInt32 z = z.
Proof. intros Hz. unfold toInt32. rewrite Z.mod_small; lia. Qed.

Lemma land_255 (z : Z) : Z.land z 255 = z mod 256.
Proof. change 255 with (Z.ones 8). now rewrite Z.land_ones by lia. Qed.

(** A value below [2 ^ k] or-ed under a multiple of [2 ^ k] is added. *)
Lemma lor_shiftl_low (x y k : Z) :
  0 <= k -> 0 <= y < 2 ^ k -> Z.lor (Z.shiftl x k) y = x * 2 ^ k + y.
Proof.
  intros Hk Hy. rewrite Z.shiftl_mul_pow2 by lia.
  rewrite <- Z.lxor_lor, <- Z.add_nocarry_lxor; try reflexivity.
  all: apply Z.bits_inj'; intros i Hi; rewrite Z.land_spec, Z.bits_0.
  all: destruct (Z.lt_ge_cases i k) as [Hlt|Hge].
  all: try (rewrite Z.mul_pow2_bits_low by lia; reflexivity).
  all: rewrite andb_false_iff; right.
  all: destruct (Z.eq_dec y 0) as [->|Hne]; [apply Z.bits_0|].
  all: apply Z.bits_above_log2; [lia|].
  all: apply Z.lt_le_trans with k; [apply Z.log2_lt_pow2; lia | lia].
Qed.

Lemma shiftl_small (x k hi : Z) :
  0 <= k -> 0 <= x -> x * 2 ^ k < hi -> 0 <= Z.shiftl x k < hi.
Proof.
  intros Hk Hx Hlt. rewrite Z.shiftl_mul_pow2 by lia.
  split; [apply Z.mul_nonneg_nonneg; [lia | apply Z.pow_nonneg; lia] | exact Hlt].
Qed.

(** Four bytes, the first below 128, packed the way the loop reads them. *)
Lemma pack_bytes (a b c d : Z) :
  0 <= a < 128 -> 0 <= b < 256 -> 0 <= c < 256 -> 0 <= d < 256 ->
  or32 (or32 (or32 (shl32 a 24) (shl32 b 16)) (shl32 c 8)) d
  = ((a * 256 + b) * 256 + c) * 256 + d.
Proof.
  intros Ha Hb Hc Hd. unfold shl32, or32.
  assert (P8 : 2 ^ 8 = 256) by reflexivity.
  assert (P16 : 2 ^ 16 = 65536) by reflexivity.
  assert (P24 : 2 ^ 24 = 16777216) by reflexivity.
  assert (P31 : 2 ^ 31 = 2147483648) by reflexivity.
  pose proof (shiftl_small a 24 (2 ^ 31) ltac:(lia) ltac:(lia) ltac:(lia)) as Sa.
  pose proof (shiftl_small b 16 (2 ^ 31) ltac:(lia) ltac:(lia) ltac:(lia)) as Sb.
  pose proof (shiftl_small c 8 (2 ^ 31) ltac:(lia) ltac:(lia) ltac:(lia)) as Sc.
  rewrite (toInt32_small (Z.shiftl a 24)) by lia.
  rewrite (toInt32_small (Z.shiftl b 16)) by lia.
  rewrite (toInt32_small (Z.shiftl c 8)) by lia.
  assert (E1 : Z.lor (Z.shiftl a 24) (Z.shiftl b 16) = Z.shiftl (a * 256 + b) 16).
  { replace 24 with (8 + 16) by reflexivity.
    rewrite <- Z.shiftl_shiftl, <- Z.shiftl_lor by lia.
    rewrite (lor_shiftl_low a b 8) by lia. now rewrite P8. }
  rewrite E1.
  pose proof (shiftl_small (a * 256 + b) 16 (2 ^ 31) ltac:(lia) ltac:(lia) ltac:(lia)) as Sab.
  rewrite (toInt32_small (Z.shiftl (a * 256 + b) 16)) by lia.
  assert (E2 : Z.lor (Z.shiftl (a * 256 + b) 16) (Z.shiftl c 8)
               = Z.shiftl ((a * 256 + b) * 256 + c) 8).
  { replace 16 with (8 + 8) by reflexivity.
    rewrite <- Z.shiftl_shiftl, <- Z.shiftl_lor by lia.
    rewrite (lor_shiftl_low (a * 256 + b) c 8) by lia. now rewrite P8. }
  rewrite E2.
  pose proof (shiftl_small ((a * 256 + b) * 256 + c) 8 (2 ^ 31)
                ltac:(lia) ltac:(lia) ltac:(lia)) as Sabc.
  rewrite (toInt32_small (Z.shiftl ((a * 256 + b) * 256 + c) 8)) by lia.
  rewrite (lor_shiftl_low ((a * 256 + b) * 256 + c) d 8) by lia.
  rewrite P8. apply toInt32_small. lia.
Qed.

Lemma bytes_of_length (n : Z) :
  0 <= n < 2 ^ 31 ->
  let a := (n / 2 ^ 24) mod 256 in
  let b := (n / 2 ^ 16) mod 256 in
  let c := (n / 2 ^ 8) mod 256 in
  let d := n mod 256 in
  0 <= a < 128 /\ n = ((a * 256 + b) * 256 + c) * 256 + d.
Proof.
  intros Hn. cbv zeta.
  assert (P31 : 2 ^ 31 = 2147483648) by reflexivity. rewrite P31 in Hn.
  replace (2 ^ 24) with (256 * 256 * 256) by reflexivity.
  replace (2 ^ 16) with (256 * 256) by reflexivity.
  replace (2 ^ 8) with 256 by reflexivity.
  rewrite <- !Z.div_div by lia.
  pose proof (Z.div_mod n 256 ltac:(lia)) as E1.
  pose proof (Z.div_mod (n / 256) 256 ltac:(lia)) as E2.
  pose proof (Z.div_mod (n / 256 / 256) 256 ltac:(lia)) as E3.
  pose proof (Z.mod_pos_bound n 256 ltac:(lia)) as B1.
  pose proof (Z.mod_pos_bound (n / 256) 256 ltac:(lia)) as B2.
  pose proof (Z.mod_pos_bound (n / 256 / 256) 256 ltac:(lia)) as B3.
  assert (B4 : 0 <= n / 256 / 256 / 256 < 128) by lia.
  rewrite (Z.mod_small (n / 256 / 256 / 256) 256) by lia.
  lia.
Qed.

Lemma frame_length_small (n : Z) :
  0 <= n < 2 ^ 31 ->
  or32 (or32 (or32 (shl32 (Z.land (ushr n 24) 255) 24)
                   (shl32 (Z.land (ushr n 16) 255) 16))
             (shl32 (Z.land (ushr n 8) 255) 8))
       (Z.land (n mod 2 ^ 32) 255) = n.
Proof.
  intros Hn. unfold ushr.
  assert (P31 : 2 ^ 31 = 2147483648) by reflexivity.
  assert (P32 : 2 ^ 32 = 4294967296) by reflexivity.
  rewrite (Z.mod_small n (2 ^ 32)) by lia.
  rewrite !land_255, !Z.shiftr_div_pow2 by lia.
  destruct (bytes_of_length n Hn) as [Ha Hsum].
  rewrite pack_bytes; try (apply Z.mod_pos_bound; lia).
  - symmetry. exact Hsum.
  - exact Ha.
Qed.

(** *** One frame *)

Lemma not_base64_after_zero (rest : Bytes) :
  isProbablyBase64Body (Byte.x00 :: rest) = false.
Proof. reflexivity. Qed.

Lemma no_text_decoding (p : Platform) (rest : Bytes) :
  maybeDecodeGrpcWebText p (Byte.x00 :: rest) EmptyString = Byte.x00 :: rest.
Proof.
  unfold maybeDecodeGrpcWebText.
  change (includes "grpc-web-text" (toLowerCase EmptyString)) with false.
  now rewrite not_base64_after_zero.
Qed.

(** The length the loop reads back from four header bytes. *)
Definition headerLength (b1 b2 b3 b4 : Byte.byte) : Z :=
  or32 (or32 (or32 (shl32 (byteToZ b1) 24) (shl32 (byteToZ b2) 16))
             (shl32 (byteToZ b3) 8))
       (byteToZ b4).

Lemma frameLength_header (flag b1 b2 b3 b4 : Byte.byte) (rest : Bytes) :
  frameLength (flag :: b1 :: b2 :: b3 :: b4 :: rest) 0 = headerLength b1 b2 b3 b4.
Proof. unfold frameLength, headerLength, at_. cbn [nth Nat.add]. reflexivity. Qed.

Lemma walk_first_frame (p : Platform) (fuel : nat) (b1 b2 b3 b4 : Byte.byte)
    (rest : Bytes) :
  walk p (S fuel) (Byte.x00 :: b1 :: b2 :: b3 :: b4 :: rest) 0 [] []
  = let length := headerLength b1 b2 b3 b4 in
    if (length <? 0) || (5 + Z.of_nat (List.length rest) <? 5 + length)
    then Walked [] []
    else walk p fuel (Byte.x00 :: b1 :: b2 :: b3 :: b4 :: rest)
           (5 + Z.to_nat length) [firstn (Z.to_nat length) rest] [].
Proof.
  cbn [walk]. rewrite frameLength_header.
  change (at_ (Byte.x00 :: b1 :: b2 :: b3 :: b4 :: rest) 0) with 0.
  cbn [Z.land Z.eqb negb List.length Nat.add skipn app].
  replace (Z.of_nat 0 + 5 <=? Z.of_nat (S (S (S (S (S (List.length rest)))))))
    with true by (symmetry; apply Z.leb_le; lia).
  replace (Z.of_nat (S (S (S (S (S (List.length rest)))))))
    with (5 + Z.of_nat (List.length rest)) by lia.
  change (Z.of_nat 5) with 5. cbv zeta.
  destruct ((headerLength b1 b2 b3 b4 <? 0)
            || (5 + Z.of_nat (List.length rest) <? 5 + headerLength b1 b2 b3 b4));
    reflexivity.
Qed.

Lemma walk_at_end (p : Platform) (fuel : nat) (body : Bytes) (offset : nat)
    (ms : list Bytes) (ts : list (string * string)) :
  offset = List.length body ->
  walk p (S fuel) body offset ms ts = Walked ms ts.
Proof.
  intros ->. cbn [walk].
  replace (Z.of_nat (List.length body) + 5 <=? Z.of_nat (List.length body)) with false
    by (symmetry; apply Z.leb_gt; lia).
  reflexivity.
Qed.

Lemma encoded_header_length (payload : Bytes) :
  Z.of_nat (List.length payload) < 2 ^ 31 ->
  let n := Z.of_nat (List.length payload) in
  headerLength (byteOfZ (Z.land (ushr n 24) 255)) (byteOfZ (Z.land (ushr n 16) 255))
               (byteOfZ (Z.land (ushr n 8) 255)) (byteOfZ (Z.land (n mod 2 ^ 32) 255))
  = n.
Proof.
  intros Hn n. unfold headerLength.
  rewrite !byteToZ_byteOfZ by (rewrite land_255; apply Z.mod_pos_bound; lia).
  apply frame_length_small. unfold n. lia.
Qed.

(** C5 (amended).  For every payload shorter than [2 ^ 31] bytes,
    [parseGrpcWebResponse] on the body [encodeGrpcWebFrame payload], with no
    headers and no content type, returns the single message [payload] (and
    no trailers, no status, an empty message text). *)
Theorem parseGrpcWebResponse_encodeGrpcWebFrame (p : Platform) (payload : Bytes) :
  Z.of_nat (List.length payload) < 2 ^ 31 ->
  parseGrpcWebResponse p (encodeGrpcWebFrame payload) None None
  = Returned {| messages := [payload]; trailers := [];
                grpc_status := None; grpc_message := EmptyString |}.
Proof.
  intros Hn. unfold parseGrpcWebResponse, encodeGrpcWebFrame.
  cbn [readHeader]. rewrite no_text_decoding.
  cbn [List.length]. rewrite walk_first_frame.
  rewrite (encoded_header_length payload Hn). cbv zeta.
  replace (Z.of_nat (List.length payload) <? 0) with false
    by (symmetry; apply Z.ltb_ge; lia).
  replace (5 + Z.of_nat (List.length payload) <? 5 + Z.of_nat (List.length payload))
    with false by (symmetry; apply Z.ltb_irrefl).
  cbn [orb]. rewrite Nat2Z.id, firstn_all.
  rewrite walk_at_end by (cbn [List.length]; lia).
  reflexivity.
Qed.


(** From [2 ^ 31] bytes on the first length byte has its high bit set, the
    32-bit length read back is negative, and the loop stops at once. *)
Lemma parse_encoded_frame_two_gib (p : Platform) (payload : Bytes) :
  Z.of_nat (List.length payload) = 2 ^ 31 ->
  parseGrpcWebResponse p (encodeGrpcWebFrame payload) None None
  = Returned {| messages := []; trailers := [];
                grpc_status := None; grpc_message := EmptyString |}.
Proof.
  intros Hn. unfold parseGrpcWebResponse, encodeGrpcWebFrame.
  cbn [readHeader]. rewrite no_text_decoding.
  cbn [List.length]. rewrite walk_first_frame. cbv zeta.
  rewrite Hn.
  replace (headerLength _ _ _ _) with (- 2 ^ 31) by (vm_compute; reflexivity).
  reflexivity.
Qed.

(** A platform for closed examples; none of its functions is reached when
    the body starts with a zero byte and carries no trailer frame. *)
Definition samplePlatform : Platform :=
  {| textDecode := fun _ => EmptyString;
     atob := fun _ => None;
     decodeURIComponent := fun s => Some s;
     integerOf := fun _ => None |}.

Lemma parseGrpcWebResponse_encodeGrpcWebFrame_witness :
  Z.of_nat (List.length [Byte.x68; Byte.x69]) < 2 ^ 31
  /\ parseGrpcWebResponse samplePlatform
       (encodeGrpcWebFrame [Byte.x68; Byte.x69]) None None
     = Returned {| messages := [[Byte.x68; Byte.x69]]; trailers := [];
                   grpc_status := None; grpc_message := EmptyString |}.
Proof.
  split; [reflexivity|].
  apply (parseGrpcWebResponse_encodeGrpcWebFrame samplePlatform [Byte.x68; Byte.x69]).
  reflexivity.
Defined.

(** C5 as stated fails on a payload of [2 ^ 31] zero bytes: no message is
    returned. *)
Lemma parseGrpcWebResponse_two_gib_payload :
  parseGrpcWebResponse samplePlatform
    (encodeGrpcWebFrame (repeat Byte.x00 (Z.to_nat (2 ^ 31)))) None None
  = Returned {| messages := []; trailers := [];
                grpc_status := None; grpc_message := EmptyString |}.
Proof.
  apply parse_encoded_frame_two_gib.
  rewrite repeat_length. apply Z2Nat.id. apply Z.pow_nonneg. lia.
Qed.

(** *** The layout of a frame *)

Lemma big_endian_bytes (n : Z) :
  0 <= n < 2 ^ 32 ->
  (n / 2 ^ 24) mod 256 * 2 ^ 24 + (n / 2 ^ 16) mod 256 * 2 ^ 16
  + (n / 2 ^ 8) mod 256 * 2 ^ 8 + n mod 256 = n.
Proof.
  intros Hn.
  assert (P32 : 2 ^ 32 = 4294967296) by reflexivity. rewrite P32 in Hn.
  replace (2 ^ 24) with (256 * 256 * 256) by reflexivity.
  replace (2 ^ 16) with (256 * 256) by reflexivity.
  replace (2 ^ 8) with 256 by reflexivity.
  rewrite <- !Z.div_div by lia.
  pose proof (Z.div_mod n 256 ltac:(lia)) as E1.
  pose proof (Z.div_mod (n / 256) 256 ltac:(lia)) as E2.
  pose proof (Z.div_mod (n / 256 / 256) 256 ltac:(lia)) as E3.
  pose proof (Z.mod_pos_bound n 256 ltac:(lia)) as B1.
  pose proof (Z.mod_pos_bound (n / 256) 256 ltac:(lia)) as B2.
  pose proof (Z.mod_pos_bound (n / 256 / 256) 256 ltac:(lia)) as B3.
  assert (B4 : 0 <= n / 256 / 256 / 256 < 256) by lia.
  rewrite (Z.mod_small (n / 256 / 256 / 256) 256) by lia.
  lia.
Qed.

(** X5.  A frame is the flag byte [0x00], four length bytes and the
    payload: [5 + len(P)] bytes in all, and for a payload shorter than
    [2 ^ 32] bytes the four bytes are its length, big-endian. *)
Theorem encodeGrpcWebFrame_layout (payload : Bytes) :
  let frame := encodeGrpcWebFrame payload in
  let n := Z.of_nat (List.length payload) in
  List.length frame = (5 + List.length payload)%nat
  /\ firstn 1 frame = [Byte.x00]
  /\ skipn 5 frame = payload
  /\ (n < 2 ^ 32 ->
       at_ frame 1 * 2 ^ 24 + at_ frame 2 * 2 ^ 16 + at_ frame 3 * 2 ^ 8 + at_ frame 4
       = n).
Proof.
  intros frame n. repeat split.
  intros Hn. unfold frame, encodeGrpcWebFrame, at_. cbv zeta. cbn [nth].
  fold n. unfold ushr. rewrite (Z.mod_small n (2 ^ 32)) by (unfold n; lia).
  rewrite !byteToZ_byteOfZ by (rewrite land_255; apply Z.mod_pos_bound; lia).
  rewrite !land_255, !Z.shiftr_div_pow2 by lia.
  apply big_endian_bytes. unfold n. lia.
Qed.

Example encodeGrpcWebFrame_three_bytes :
  encodeGrpcWebFrame [Byte.x61; Byte.x62; Byte.x63]
  = [Byte.x00; Byte.x00; Byte.x00; Byte.x00; Byte.x03; Byte.x61; Byte.x62; Byte.x63].
Proof. reflexivity. Qed.

End GrpcWebProofs.


(* ===================================================================== *)
(** ** The tool-usage card parser                                        *)
(* ===================================================================== *)

Module ToolUsageCardProofs.

Import JsString Json ToolUsageCard.
Local Open Scope string_scope.

(** *** Concrete cards *)

(** The JSON text [{"key":value}]. *)
Definition member (key value : string) : string :=
  "{" ++ quoted key ++ ":" ++ value ++ "}".

(** A tool-usage card for the tool [name] with the arguments [args]. *)
Definition card (name args : string) : string :=
  "<xai:tool_usage_card><xai:tool_name>" ++ name ++ "</xai:tool_name>"
    ++ "<xai:tool_args><![CDATA[" ++ args ++ "]]></xai:tool_args></xai:tool_usage_card>".

Definition queryArgs : string := member "query" (quoted "foo").
Definition searchCard : string := card "web_search" queryArgs.

(** A card whose tool is named after a property every object inherits. *)
Definition inheritedNameCard : string := card "constructor" queryArgs.

(** [JSON.parse] on the arguments of these cards, the one text the parser
    hands it here. *)
Definition argsJson (text : string) : option value :=
  if String.eqb text queryArgs then Some (JObj [("query", JStr "foo")]) else None.

Definition withLines : ToolUsageCardConsumeOptions :=
  {| emitLines := true; fallbackRolloutId := Some "r1" |}.

(** Scenario S2 of the specification: a card cut between its name and its
    arguments. *)
Example card_split_after_name :
  let piece1 := "<xai:tool_usage_card><xai:tool_name>web_search</xai:tool_name>" in
  let piece2 := sliceFrom (String.length piece1) searchCard in
  let c1 := consume argsJson "" piece1 withLines in
  piece1 ++ piece2 = searchCard
  /\ result c1 = Returned {| text := ""; lines := [] |}
  /\ result (consume argsJson (parserBuffer c1) piece2 withLines)
     = Returned {| text := ""; lines := ["[r1][WebSearch] foo"] |}.
Proof. repeat split; vm_compute; reflexivity. Qed.

Example inherited_name_throws :
  result (consume argsJson "" inheritedNameCard withLines)
  = Thrown "keys is not iterable".
Proof. vm_compute. reflexivity. Qed.

(** *** Pieces of one input

    [consume] on each piece in order, then [flush] with
    [emitIncompleteAsText]; the texts concatenated and the lines in
    sequence. *)
Fixpoint consumePieces (jsonParse : string -> option value)
    (opts : ToolUsageCardConsumeOptions) (buffer : string) (pieces : list string)
    : Outcome ToolUsageCardConsumeResult :=
  match pieces with
  | [] => result (flush jsonParse buffer opts true)
  | piece :: rest =>
      let c := consume jsonParse buffer piece opts in
      bind (result c) (fun r =>
      bind (consumePieces jsonParse opts (parserBuffer c) rest) (fun r' =>
      Returned {| text := text r ++ text r'; lines := (lines r ++ lines r')%list |}))
  end.

(** The two pieces of [s] cut after [k] characters. *)
Definition cutAt (k : nat) (s : string) : list string := [sliceTo k s; sliceFrom k s].

(** Whether two outcomes of the parser are the same. *)
Definition sameOutcome (a b : Outcome ToolUsageCardConsumeResult) : bool :=
  match a, b with
  | Returned x, Returned y =>
      String.eqb (text x) (text y)
      && (if list_eq_dec string_dec (lines x) (lines y) then true else false)
  | Thrown m, Thrown m' => String.eqb m m'
  | _, _ => false
  end.

Lemma sameOutcome_eq (a b : Outcome ToolUsageCardConsumeResult) :
  sameOutcome a b = true -> a = b.
Proof.
  destruct a as [[ta la]|ma], b as [[tb lb]|mb]; cbn [sameOutcome text lines];
    try discriminate.
  - intros H. apply andb_prop in H. destruct H as [Ht Hl].
    apply String.eqb_eq in Ht. destruct (list_eq_dec string_dec la lb); [|discriminate].
    congruence.
  - intros H. apply String.eqb_eq in H. congruence.
Qed.

(** C2 (code defect).  The parser's result depends on how its input is
    split.  [findPartialStart] holds a tail back only when it finds the
    whole marker [<xai:], so a piece that ends after one to four characters
    of the marker goes out as text at once: cut there, the card is still
    found by its [<xai:tool_name>] and gives its line, but its opening tag
    [<xai:tool_usage_card>] is in the text, which the card taken whole
    leaves empty.  Cut anywhere from the end of the marker on, the pieces
    give what the whole card gives. *)
Theorem consume_depends_on_the_split :
  consumePieces argsJson withLines "" [searchCard]
  = Returned {| text := ""; lines := ["[r1][WebSearch] foo"] |}
  /\ (forall k, (1 <= k <= 4)%nat ->
        sliceTo k searchCard ++ sliceFrom k searchCard = searchCard
        /\ consumePieces argsJson withLines "" (cutAt k searchCard)
           = Returned {| text := "<xai:tool_usage_card>";
                         lines := ["[r1][WebSearch] foo"] |})
  /\ (forall k, (5 <= k <= String.length searchCard)%nat ->
        consumePieces argsJson withLines "" (cutAt k searchCard)
        = consumePieces argsJson withLines "" [searchCard])
  /\ findPartialStart "<xai" = None
  /\ findPartialStart "<xai:" = Some 0%nat.
Proof.
  split; [vm_compute; reflexivity|]. split.
  { intros k Hk.
    assert (E : (k = 1 \/ k = 2 \/ k = 3 \/ k = 4)%nat) by lia.
    destruct E as [E | [E | [E | E]]]; subst k; split; vm_compute; reflexivity. }
  split; [|split; vm_compute; reflexivity].
  intros k Hk. apply sameOutcome_eq.
  assert (Hall : forallb
                   (fun k => sameOutcome
                               (consumePieces argsJson withLines "" (cutAt k searchCard))
                               (consumePieces argsJson withLines "" [searchCard]))
                   (seq 5 (String.length searchCard - 4)) = true)
    by (vm_compute; reflexivity).
  rewrite forallb_forall in Hall. apply Hall. apply in_seq. lia.
Qed.

(** *** Text without markup *)

Definition lt : ascii := "<"%char.

Lemma lowerChar_lt (c : ascii) : Ascii.eqb lt (lowerChar c) = Ascii.eqb lt c.
Proof.
  destruct c as [[] [] [] [] [] [] [] []]; reflexivity.
Qed.

(** A needle that begins with [<] is not found in a text without [<],
    also after [toLowerCase]. *)
Lemma startsWith_lt (needle s : string) :
  includes "<" s = false -> startsWith (String lt needle) (toLowerCase s) = false.
Proof.
  destruct s as [|c r]; [reflexivity|]. intros H. cbn [toLowerCase startsWith].
  rewrite lowerChar_lt. unfold includes in H. cbn [indexOf startsWith] in H.
  fold lt in H. destruct (Ascii.eqb lt c); [discriminate H|reflexivity].
Qed.

Lemma includes_lt_tail (c : ascii) (r : string) :
  includes "<" (String c r) = false -> includes "<" r = false.
Proof.
  unfold includes. cbn [indexOf startsWith].
  destruct (Ascii.eqb "<" c); [discriminate|].
  cbn [andb]. destruct (indexOf "<" r); [discriminate|reflexivity].
Qed.

Lemma indexOf_lt (needle s : string) :
  includes "<" s = false -> indexOf (String lt needle) (toLowerCase s) = None.
Proof.
  induction s as [|c r IH]; intros H.
  - reflexivity.
  - pose proof (startsWith_lt needle (String c r) H) as Hs.
    cbn [toLowerCase] in *. cbn [indexOf]. rewrite Hs.
    rewrite (IH (includes_lt_tail c r H)). reflexivity.
Qed.

Lemma lastIndexOf_lt (needle s : string) :
  includes "<" s = false -> lastIndexOf (String lt needle) (toLowerCase s) = None.
Proof.
  induction s as [|c r IH]; intros H.
  - reflexivity.
  - pose proof (startsWith_lt needle (String c r) H) as Hs.
    cbn [toLowerCase] in *. cbn [lastIndexOf].
    rewrite (IH (includes_lt_tail c r H)), Hs. reflexivity.
Qed.

Lemma append_empty (s : string) : s ++ "" = s.
Proof. induction s as [|c r IH]; [reflexivity|]. cbn. now rewrite IH. Qed.

(** X6.  Text without a [<] goes through a fresh parser as it is: [consume]
    returns it whole with no card line and holds nothing back, and so does
    [replaceToolUsageCardsInText], whatever the options and [JSON.parse]
    are. *)
Theorem consume_plain_text
    (jsonParse : string -> option value) (opts : ToolUsageCardConsumeOptions)
    (input : string) :
  includes "<" input = false ->
  consume jsonParse "" input opts
  = {| result := Returned {| text := input; lines := [] |}; parserBuffer := "" |}
  /\ replaceToolUsageCardsInText jsonParse input opts
     = Returned {| text := input; lines := [] |}.
Proof.
  intros H.
  assert (E : consume jsonParse "" input opts
              = {| result := Returned {| text := input; lines := [] |};
                   parserBuffer := "" |}).
  { unfold consume. destruct input as [|c r]; [reflexivity|].
    cbn [nonEmpty append]. cbv zeta. cbn [consumeLoop nonEmpty negb].
    unfold findCardStart, findPartialStart. cbv zeta.
    change TOOL_USAGE_OPEN with (String lt "xai:tool_usage_card").
    change TOOL_NAME_OPEN with (String lt "xai:tool_name>").
    change PARTIAL_MARKER with (String lt "xai:").
    rewrite !indexOf_lt, lastIndexOf_lt by exact H. reflexivity. }
  split; [exact E|].
  unfold replaceToolUsageCardsInText. cbv zeta. rewrite E.
  cbn. now rewrite append_empty.
Qed.

Lemma consume_plain_text_witness :
  consume argsJson "" "plain text, 1 > 0" withLines
  = {| result := Returned {| text := "plain text, 1 > 0"; lines := [] |};
       parserBuffer := "" |}
  /\ replaceToolUsageCardsInText argsJson "plain text, 1 > 0" withLines
     = Returned {| text := "plain text, 1 > 0"; lines := [] |}.
Proof. apply consume_plain_text. reflexivity. Defined.

End ToolUsageCardProofs.


(* ===================================================================== *)
(** ** The stream                                                        *)
(* ===================================================================== *)

Module GrokStreamProofs.

Import JsString Json GrokStream.
Local Open Scope string_scope.

(** *** Line feeds and appended text *)

Lemma startsWith_nl (s : string) :
  startsWith nl s = match s with String c _ => Ascii.eqb LF c | EmptyString => false end.
Proof. destruct s as [|c r]; [reflexivity|]. cbn. now rewrite andb_true_r. Qed.

Lemma indexOf_nl_cons (c : ascii) (r : string) :
  indexOf nl (String c r)
  = if Ascii.eqb LF c then Some 0%nat else option_map S (indexOf nl r).
Proof.
  change (indexOf nl (String c r))
    with (if startsWith nl (String c r) then Some 0%nat
          else option_map S (indexOf nl r)).
  now rewrite startsWith_nl.
Qed.

Lemma indexOf_nl_empty : indexOf nl EmptyString = None.
Proof. reflexivity. Qed.

Lemma indexOf_nl_app (x y : string) (i : nat) :
  indexOf nl x = Some i ->
  indexOf nl (x ++ y) = Some i
  /\ sliceTo i (x ++ y) = sliceTo i x
  /\ sliceFrom (S i) (x ++ y) = sliceFrom (S i) x ++ y.
Proof.
  revert i. induction x as [|c r IH]; intros i Hi.
  - discriminate.
  - rewrite indexOf_nl_cons in Hi. cbn [append]. rewrite indexOf_nl_cons.
    destruct (Ascii.eqb LF c).
    + injection Hi as <-. repeat split; reflexivity.
    + destruct (indexOf nl r) as [j|]; [|discriminate].
      injection Hi as <-. destruct (IH j eq_refl) as (E1 & E2 & E3).
      rewrite E1. repeat split; cbn [sliceTo sliceFrom option_map].
      * now rewrite E2.
      * exact E3.
Qed.

Lemma indexOf_nl_shorter (x : string) (i : nat) :
  indexOf nl x = Some i ->
  (String.length (sliceFrom (S i) x) < String.length x)%nat.
Proof.
  revert i. induction x as [|c r IH]; intros i Hi.
  - discriminate.
  - rewrite indexOf_nl_cons in Hi. destruct (Ascii.eqb LF c).
    + injection Hi as <-. cbn. lia.
    + destruct (indexOf nl r) as [j|]; [|discriminate].
      injection Hi as <-. specialize (IH j eq_refl). cbn [sliceFrom String.length] in *. lia.
Qed.

Lemma append_assoc (a b c : string) : (a ++ b) ++ c = a ++ (b ++ c).
Proof. induction a as [|x a IH]; cbn; [reflexivity | now rewrite IH]. Qed.

Lemma length_append (a b : string) :
  String.length (a ++ b) = (String.length a + String.length b)%nat.
Proof. induction a as [|x a IH]; cbn; [reflexivity | now rewrite IH]. Qed.


(** *** The inner loop and the way the body is cut into chunks *)

Section Chunking.

Variable platform : Platform.
Variable hooks : Hooks.
Variable settings : GrokSettings.
Variable globalCfg : GlobalSettings.
Variable origin : string.
Variable startTime : Z.

Let drain_ := drain platform hooks settings globalCfg origin startTime.
Let loop_ := loop platform hooks settings globalCfg origin startTime.

Lemma drain_unfold (fuel : nat) (now : Z) (buffer : string) (t : Timing) (s : State) :
  drain_ fuel now buffer t s
  = match indexOf nl buffer with
    | None => (Returned (Pending buffer, t), s)
    | Some idx =>
        match fuel with
        | O => (Returned (Pending buffer, t), s)
        | S fuel' =>
            let line := trim (sliceTo idx buffer) in
            let rest := sliceFrom (S idx) buffer in
            if negb (nonEmpty line) then drain_ fuel' now rest t s
            else
              match JSON_parse platform line with
              | None => drain_ fuel' now rest t s
              | Some data =>
                  match noteMeta hooks data s with
                  | (Thrown m, s1) => (Thrown m, s1)
                  | (Returned _, s1) =>
                      match handleFrame platform hooks settings globalCfg origin
                              startTime now data s1 with
                      | (Thrown m, s2) => (Thrown m, s2)
                      | (Returned Finished, s2) =>
                          (Returned (Ended, {| firstReceived := true;
                                               lastChunkTime := now |}), s2)
                      | (Returned Next, s2) =>
                          drain_ fuel' now rest
                            {| firstReceived := true; lastChunkTime := now |} s2
                      end
                  end
              end
        end
    end.
Proof.
  unfold drain_. destruct fuel as [|fuel']; cbn [drain].
  - destruct (indexOf nl buffer); reflexivity.
  - destruct (indexOf nl buffer) as [idx|]; [|reflexivity]. cbv zeta.
    destruct (negb (nonEmpty (trim (sliceTo idx buffer)))); [reflexivity|].
    destruct (JSON_parse platform (trim (sliceTo idx buffer))) as [data|]; [|reflexivity].
    unfold seq at 1. destruct (noteMeta hooks data s) as [[[]|m] s1]; [|reflexivity].
    unfold seq at 1.
    destruct (handleFrame platform hooks settings globalCfg origin startTime now data s1)
      as [[[|]|m] s2]; reflexivity.
Qed.

(** Fuel from the buffer length on changes nothing. *)
Lemma drain_fuel (f1 f2 : nat) (now : Z) (buffer : string) (t : Timing) (s : State) :
  (String.length buffer <= f1)%nat -> (String.length buffer <= f2)%nat ->
  drain_ f1 now buffer t s = drain_ f2 now buffer t s.
Proof.
  revert f2 buffer t s. induction f1 as [|f1 IH]; intros f2 buffer t s H1 H2.
  - destruct buffer; [|cbn in H1; lia].
    rewrite !drain_unfold. reflexivity.
  - rewrite (drain_unfold (S f1)), (drain_unfold f2).
    destruct (indexOf nl buffer) as [idx|] eqn:Ei; [|reflexivity].
    pose proof (indexOf_nl_shorter buffer idx Ei) as Hlt.
    destruct f2 as [|f2]; [lia|]. cbv zeta.
    destruct (negb (nonEmpty (trim (sliceTo idx buffer)))); [apply IH; lia|].
    destruct (JSON_parse platform (trim (sliceTo idx buffer))) as [data|]; [|apply IH; lia].
    destruct (noteMeta hooks data s) as [[[]|m] s1]; [|reflexivity].
    destruct (handleFrame platform hooks settings globalCfg origin startTime now data s1)
      as [[[|]|m] s2]; try reflexivity.
    apply IH; lia.
Qed.

(** Draining [x ++ y] is draining [x] and then, when the stream goes on,
    what is left of [x] followed by [y]. *)
Lemma drain_app (n : nat) (now : Z) (x y : string) (t : Timing) (s : State) :
  (String.length x <= n)%nat ->
  drain_ (String.length (x ++ y)) now (x ++ y) t s
  = match drain_ (String.length x) now x t s with
    | (Returned (Pending r, t'), s') => drain_ (String.length (r ++ y)) now (r ++ y) t' s'
    | other => other
    end.
Proof.
  revert x t s. induction n as [|n IH]; intros x t s Hn.
  - destruct x; [|cbn in Hn; lia]. cbn [append String.length].
    rewrite (drain_unfold 0 now EmptyString). rewrite indexOf_nl_empty. reflexivity.
  - rewrite (drain_unfold (String.length x) now x).
    destruct (indexOf nl x) as [idx|] eqn:Ei; [|reflexivity].
    pose proof (indexOf_nl_shorter x idx Ei) as Hlt.
    destruct (indexOf_nl_app x y idx Ei) as (E1 & E2 & E3).
    rewrite (drain_unfold (String.length (x ++ y)) now (x ++ y)), E1, E2, E3.
    assert (Hx : exists k, String.length x = S k)
      by (destruct x; [discriminate | eexists; reflexivity]).
    destruct Hx as [k Hk]. rewrite Hk.
    assert (Hxy : String.length (x ++ y) = S (k + String.length y))
      by (rewrite length_append, Hk; reflexivity).
    rewrite Hxy. cbv zeta.
    set (rest := sliceFrom (S idx) x) in *.
    assert (Hrest : (String.length rest <= n)%nat) by lia.
    assert (Hstep : forall t0 s0,
               drain_ (k + String.length y) now (rest ++ y) t0 s0
               = match drain_ k now rest t0 s0 with
                 | (Returned (Pending r, t'), s') =>
                     drain_ (String.length (r ++ y)) now (r ++ y) t' s'
                 | other => other
                 end).
    { intros t0 s0.
      rewrite (drain_fuel (k + String.length y) (String.length (rest ++ y)))
        by (rewrite length_append; lia).
      rewrite (drain_fuel k (String.length rest)) by lia.
      now apply IH. }
    destruct (negb (nonEmpty (trim (sliceTo idx x)))); [apply Hstep|].
    destruct (JSON_parse platform (trim (sliceTo idx x))) as [data|]; [|apply Hstep].
    destruct (noteMeta hooks data s) as [[[]|m] s1]; [|reflexivity].
    destruct (handleFrame platform hooks settings globalCfg origin startTime now data s1)
      as [[[|]|m] s2]; try reflexivity.
    apply Hstep.
Qed.

(** What the timing is after a drain: as before, or marked at [now]. *)
Lemma drain_timing (f : nat) (now : Z) (x : string) (t : Timing) (s : State)
    (d : Drained) (t' : Timing) (s' : State) :
  drain_ f now x t s = (Returned (d, t'), s') ->
  t' = t \/ t' = {| firstReceived := true; lastChunkTime := now |}.
Proof.
  revert x t s. induction f as [|f IH]; intros x t s H; rewrite drain_unfold in H.
  - destruct (indexOf nl x); injection H as _ <- _; now left.
  - destruct (indexOf nl x) as [idx|]; [|injection H as _ <- _; now left].
    cbv zeta in H.
    destruct (negb (nonEmpty (trim (sliceTo idx x)))); [now apply IH in H|].
    destruct (JSON_parse platform (trim (sliceTo idx x))) as [data|]; [|now apply IH in H].
    destruct (noteMeta hooks data s) as [[[]|m] s1]; [|discriminate].
    destruct (handleFrame platform hooks settings globalCfg origin startTime now data s1)
      as [[[|]|m] s2]; try discriminate.
    + apply IH in H. destruct H as [->| ->]; now right.
    + injection H as _ <- _. now right.
Qed.


(** A read that settles at once with a chunk. *)
Definition immediate (chunk : string) : Read := {| delay := 0; settles := Value chunk |}.

(** The three checks at the head of the outer loop. *)
Definition tripped (now : Z) (t : Timing) : bool :=
  let elapsed := (now - startTime)%Z in
  (negb (firstReceived t) && (firstTimeoutMs settings <? elapsed)%Z)
  || ((0 <? totalTimeoutMs settings)%Z && (totalTimeoutMs settings <? elapsed)%Z)
  || (firstReceived t && (chunkTimeoutMs settings <? now - lastChunkTime t)%Z).

Let stop_ (now : Z) : State -> Tried * State :=
  attempt now (stopAndClose platform hooks settings startTime now) completed.

Lemma loop_immediate (chunk : string) (rest : list Read) (now : Z) (buffer : string)
    (t : Timing) (s : State) :
  loop_ (immediate chunk :: rest) now buffer t s
  = if tripped now t then stop_ now s
    else if (perReadTimeout settings t (now - startTime) <=? 0)%Z then stop_ now s
    else
      attempt now
        (drain_ (String.length (buffer ++ chunk)) now (buffer ++ chunk) t)
        (fun d => match d with
                  | (Ended, _) => completed tt
                  | (Pending buffer', t') => loop_ rest now buffer' t'
                  end) s.
Proof.
  unfold loop_, stop_, drain_, tripped. cbn [loop]. cbv zeta.
  destruct (negb (firstReceived t) && (firstTimeoutMs settings <? now - startTime)%Z);
    [reflexivity|].
  destruct ((0 <? totalTimeoutMs settings)%Z
            && (totalTimeoutMs settings <? now - startTime)%Z); [reflexivity|].
  destruct (firstReceived t && (chunkTimeoutMs settings <? now - lastChunkTime t)%Z);
    [reflexivity|].
  cbn [orb]. unfold readWithTimeout. cbn [delay settles immediate].
  destruct (perReadTimeout settings t (now - startTime) <=? 0)%Z eqn:Ems; [reflexivity|].
  apply Z.leb_gt in Ems.
  replace (0 <? perReadTimeout settings t (now - startTime))%Z with true
    by (symmetry; now apply Z.ltb_lt).
  rewrite Z.add_0_r. reflexivity.
Qed.

Lemma chunkTimeoutMs_nonneg : (0 <= chunkTimeoutMs settings)%Z.
Proof. unfold chunkTimeoutMs. lia. Qed.

(** Marking the first frame trips no check and leaves the read a positive
    timeout, as long as the chunk timeout is not zero. *)
Lemma marked_goes_on (now : Z) (t : Timing) :
  (0 < chunkTimeoutMs settings)%Z ->
  tripped now t = false ->
  (perReadTimeout settings t (now - startTime) <=? 0)%Z = false ->
  let t' := {| firstReceived := true; lastChunkTime := now |} in
  tripped now t' = false
  /\ (perReadTimeout settings t' (now - startTime) <=? 0)%Z = false.
Proof.
  intros Hc Ht Hms t'. unfold tripped, perReadTimeout in *. cbn [firstReceived lastChunkTime t'].
  apply orb_false_iff in Ht. destruct Ht as [Ht _].
  apply orb_false_iff in Ht. destruct Ht as [_ Htotal].
  rewrite Htotal. cbn [negb andb orb].
  split.
  - apply Z.ltb_ge. lia.
  - apply Z.leb_gt. apply Z.leb_gt in Hms.
    destruct (0 <? totalTimeoutMs settings)%Z; lia.
Qed.

(** Two chunks that arrive at once are read as their concatenation. *)
Lemma loop_merge (c1 c2 : string) (rest : list Read) (now : Z) (buffer : string)
    (t : Timing) (s : State) :
  (0 < chunkTimeoutMs settings)%Z ->
  loop_ (immediate c1 :: immediate c2 :: rest) now buffer t s
  = loop_ (immediate (c1 ++ c2) :: rest) now buffer t s.
Proof.
  intros Hc.
  rewrite (loop_immediate c1 (immediate c2 :: rest) now buffer t s),
          (loop_immediate (c1 ++ c2) rest now buffer t s).
  destruct (tripped now t) eqn:Ht; [reflexivity|].
  destruct (perReadTimeout settings t (now - startTime) <=? 0)%Z eqn:Hms; [reflexivity|].
  unfold attempt. rewrite <- append_assoc.
  rewrite (drain_app (String.length (buffer ++ c1)) now (buffer ++ c1) c2 t s (le_n _)).
  destruct (drain_ (String.length (buffer ++ c1)) now (buffer ++ c1) t s)
    as [[[[r|] t1]|m] s1] eqn:Ed; try reflexivity.
  rewrite (loop_immediate c2 rest now r t1 s1).
  assert (Hgo : tripped now t1 = false
                /\ (perReadTimeout settings t1 (now - startTime) <=? 0)%Z = false).
  { destruct (drain_timing _ _ _ _ _ _ _ _ Ed) as [->| ->]; [now split|].
    exact (marked_goes_on now t Hc Ht Hms). }
  destruct Hgo as [-> ->]. reflexivity.
Qed.


Lemma join_merge (a b : string) (l : list string) :
  join "" ((a ++ b) :: l) = join "" (a :: b :: l).
Proof.
  destruct l as [|x l]; cbn [join append].
  - reflexivity.
  - now rewrite append_assoc.
Qed.

Lemma loop_chunks (pieces : list string) (c : string) (rest : list Read) (now : Z)
    (buffer : string) (t : Timing) (s : State) :
  (0 < chunkTimeoutMs settings)%Z ->
  loop_ (map immediate (c :: pieces) ++ rest) now buffer t s
  = loop_ (immediate (join "" (c :: pieces)) :: rest) now buffer t s.
Proof.
  intros Hc. revert c. induction pieces as [|c' pieces IH]; intros c.
  - reflexivity.
  - cbn [map app]. rewrite loop_merge by exact Hc.
    specialize (IH (c ++ c')). cbn [map app] in IH. rewrite IH.
    now rewrite join_merge.
Qed.

(** A read whose timeout is not positive is no read at all: the stream is
    stopped on the spot, whatever the body holds. *)
Lemma loop_without_read (reads : list Read) (now : Z) (buffer : string) (t : Timing)
    (s : State) :
  tripped now t = false ->
  (perReadTimeout settings t (now - startTime) <=? 0)%Z = true ->
  loop_ reads now buffer t s = stop_ now s.
Proof.
  intros Ht Hms. unfold tripped in Ht.
  apply orb_false_iff in Ht. destruct Ht as [Ht H3].
  apply orb_false_iff in Ht. destruct Ht as [H1 H2].
  unfold loop_, stop_. destruct reads as [|r rest]; cbn [loop]; cbv zeta;
    rewrite H1, H2, H3; unfold readWithTimeout; rewrite Hms; reflexivity.
Qed.

End Chunking.

(** The transformer puts the lines of the body together before it hands a
    token to the parser, so its whole result (the frames, the calls to the
    hooks, the final state) does not depend on how the body text is cut into
    chunks: two non-empty lists of chunks with the same concatenation, each
    chunk read without delay and followed by the same further reads, give
    the same stream, provided the chunk timeout is not zero.  This says
    nothing of the parser alone, whose result does depend on the pieces it
    is given. *)
Theorem createOpenAiStreamFromGrokNdjson_chunking
    (platform : Platform) (hooks : Hooks) (settings : GrokSettings)
    (globalCfg : GlobalSettings) (origin : string) (startTime : Z)
    (pieces1 pieces2 : list string) (rest : list Read) :
  (0 < chunkTimeoutMs settings)%Z ->
  pieces1 <> [] -> pieces2 <> [] ->
  join "" pieces1 = join "" pieces2 ->
  createOpenAiStreamFromGrokNdjson platform hooks settings globalCfg origin startTime
    (Some (map immediate pieces1 ++ rest)%list)
  = createOpenAiStreamFromGrokNdjson platform hooks settings globalCfg origin startTime
      (Some (map immediate pieces2 ++ rest)%list).
Proof.
  intros Hc H1 H2 Hjoin.
  destruct pieces1 as [|c1 p1]; [contradiction|].
  destruct pieces2 as [|c2 p2]; [contradiction|].
  unfold createOpenAiStreamFromGrokNdjson.
  rewrite !loop_chunks by exact Hc. now rewrite Hjoin.
Qed.

(** *** Concrete upstream texts *)

(** A JSON string literal: quotes and backslashes escaped. *)
Definition jsonString (s : string) : string :=
  let backslash := String (ascii_of_N 92) EmptyString in
  quoted (replaceChar (ascii_of_N 34) (backslash ++ dq)
            (replaceChar (ascii_of_N 92) (backslash ++ backslash) s)).

(** The line [{"result":{"response":{"isThinking":b,"token":"t"}}}]. *)
Definition tokenLine (isThinking : bool) (token : string) : string :=
  ToolUsageCardProofs.member "result"
    (ToolUsageCardProofs.member "response"
       ("{" ++ quoted "isThinking" ++ ":" ++ (if isThinking then "true" else "false")
            ++ "," ++ quoted "token" ++ ":" ++ jsonString token ++ "}")).

(** What [JSON.parse] makes of [tokenLine]. *)
Definition tokenFrame (isThinking : bool) (token : string) : value :=
  JObj [("result",
         JObj [("response",
                JObj [("isThinking", JBool isThinking); ("token", JStr token)])])].

(** A card whose tool is named after a property every object inherits. *)
Definition inheritedNameCard : string := ToolUsageCardProofs.inheritedNameCard.

(** [JSON.parse] on the texts used below, the lines and the arguments of
    the cards; it throws on everything else they hand it, which is part of
    a line cut in two. *)
Definition sampleJson (text : string) : option value :=
  match
    lookup text
      [ (tokenLine true "hi", tokenFrame true "hi");
        (tokenLine false " world", tokenFrame false " world");
        (tokenLine true inheritedNameCard, tokenFrame true inheritedNameCard) ]
  with
  | Some v => Some v
  | None => ToolUsageCardProofs.argsJson text
  end.

Definition streamPlatform : Platform :=
  {| JSON_parse := sampleJson; URL_parse := fun _ => None; btoaUtf8 := fun s => s |}.

(** An [onFinish] that returns, and one that throws. *)
Definition quietHooks : Hooks :=
  {| onMeta := None; onFinish := Some (fun _ => Returned tt) |}.
Definition failingFinish : Hooks :=
  {| onMeta := None; onFinish := Some (fun _ => Thrown "log write failed") |}.

Definition defaults : GrokSettings :=
  {| filtered_tags := None; show_thinking := None; show_search := None;
     stream_first_response_timeout := None; stream_chunk_timeout := None;
     stream_total_timeout := None; video_poster_preview := None |}.

Definition noBaseUrl : GlobalSettings := {| base_url := None |}.

Definition endOfStream : Read := {| delay := 0; settles := EndOfStream |}.

Definition run (hooks : Hooks) (settings : GrokSettings) (body : option (list Read))
    : Stream :=
  createOpenAiStreamFromGrokNdjson streamPlatform hooks settings noBaseUrl
    "https://gateway.example" 1700000000000 body.

(** Scenario S1 of the specification. *)
Definition twoLines : string :=
  tokenLine true "hi" ++ nl ++ tokenLine false " world" ++ nl.

Example think_wrap_scenario :
  frames (run quietHooks defaults (Some [immediate twoLines; endOfStream]))
  = [ Chunk "grok-4-mini-thinking-tahoe" ("<think>" ++ nl ++ "hi") None;
      Chunk "grok-4-mini-thinking-tahoe" (nl ++ "</think>" ++ nl ++ " world") None;
      Chunk "grok-4-mini-thinking-tahoe" "" (Some Stop);
      Done ].
Proof. vm_compute. reflexivity. Qed.

(** A thinking token, then a token with the card named [constructor]. *)
Definition inheritedNameBody : list Read :=
  [ immediate (tokenLine true "hi" ++ nl ++ tokenLine true inheritedNameCard ++ nl);
    endOfStream ].

(** The two lines of [twoLines] cut in the middle of the first. *)
Definition twoLinesCut : list string := [sliceTo 30 twoLines; sliceFrom 30 twoLines].

(** *** Counting frames and tags *)

Definition isDone (f : Frame) : bool :=
  match f with Done => true | Chunk _ _ _ => false end.

Definition doneFrames (fs : list Frame) : nat := List.length (filter isDone fs).

(** How often [needle] occurs in [s]. *)
Fixpoint occurrences (needle s : string) : nat :=
  match s with
  | EmptyString => 0
  | String _ r => (if startsWith needle s then 1 else 0) + occurrences needle r
  end.

(** How often [needle] occurs in the content of the chunks. *)
Fixpoint emitted (needle : string) (fs : list Frame) : nat :=
  match fs with
  | [] => 0
  | Chunk _ content _ :: rest => occurrences needle content + emitted needle rest
  | Done :: rest => emitted needle rest
  end.


(** *** The stream on concrete bodies *)

Lemma createOpenAiStreamFromGrokNdjson_chunking_witness :
  run quietHooks defaults (Some (map immediate [twoLines] ++ [endOfStream])%list)
  = run quietHooks defaults (Some (map immediate twoLinesCut ++ [endOfStream])%list).
Proof.
  apply createOpenAiStreamFromGrokNdjson_chunking;
    [ vm_compute; reflexivity | discriminate | discriminate | vm_compute; reflexivity ].
Defined.

Example cut_line_scenario :
  frames (run quietHooks defaults (Some (map immediate twoLinesCut ++ [endOfStream])%list))
  = [ Chunk "grok-4-mini-thinking-tahoe" ("<think>" ++ nl ++ "hi") None;
      Chunk "grok-4-mini-thinking-tahoe" (nl ++ "</think>" ++ nl ++ " world") None;
      Chunk "grok-4-mini-thinking-tahoe" "" (Some Stop);
      Done ].
Proof. vm_compute. reflexivity. Qed.

(** C1 (code defect).  The stream does not always end with one [DONE]
    frame.  On a body whose second token is a card for a tool named
    [constructor], [parseCard] throws inside [consume], the [catch] block
    flushes the same parser, which throws again, and the stream is left
    with no [DONE] frame, not closed, [start] rejecting.  And when the body
    simply ends but [onFinish] throws, the [catch] block runs after the
    first [DONE] and enqueues a second one. *)
Theorem done_frame_missing_or_doubled :
  doneFrames (frames (run quietHooks defaults (Some inheritedNameBody))) = 0%nat
  /\ failure (run quietHooks defaults (Some inheritedNameBody))
     = Some "keys is not iterable"
  /\ closed (state (run quietHooks defaults (Some inheritedNameBody))) = false
  /\ frames (run failingFinish defaults (Some [endOfStream]))
     = [ Chunk "grok-4-mini-thinking-tahoe" "" (Some Stop);
         Done;
         Chunk "grok-4-mini-thinking-tahoe"
           (PROCESSING_ERROR_LABEL ++ "log write failed") (Some Error);
         Done ].
Proof. repeat split; vm_compute; reflexivity. Qed.

(** C3 (code defect).  On the same body the [<think>] opened by the first
    token is never closed: the frames hold one [<think>] and no
    [</think>], because the [catch] block throws in [flushToolBuffer]
    before it reaches [closeThinkWrappers]. *)
Theorem think_left_open :
  frames (run quietHooks defaults (Some inheritedNameBody))
  = [ Chunk "grok-4-mini-thinking-tahoe" ("<think>" ++ nl ++ "hi") None ]
  /\ emitted "<think>" (frames (run quietHooks defaults (Some inheritedNameBody))) = 1%nat
  /\ emitted "</think>" (frames (run quietHooks defaults (Some inheritedNameBody))) = 0%nat.
Proof. repeat split; vm_compute; reflexivity. Qed.

(** C9 (code defect).  With a [null] body the stream is the chunk
    [Empty response] with [finish_reason] [error], then [DONE], closed, and
    [onFinish] is not called, whatever the hooks and settings.  But the
    other ways to end do not all call [onFinish] once: on the body with the
    card named [constructor] it is not called at all, and when [onFinish]
    throws at the end of the body it is called twice. *)
Theorem onFinish_not_once
    (platform : Platform) (hooks : Hooks) (settings : GrokSettings)
    (globalCfg : GlobalSettings) (origin : string) (startTime : Z) :
  (let r := createOpenAiStreamFromGrokNdjson platform hooks settings globalCfg origin
              startTime None in
   frames r = [ Chunk "grok-4-mini-thinking-tahoe" "Empty response" (Some Error); Done ]
   /\ finishCalls (state r) = []
   /\ closed (state r) = true
   /\ failure r = None)
  /\ List.length (finishCalls (state (run quietHooks defaults (Some inheritedNameBody))))
     = 0%nat
  /\ List.length (finishCalls (state (run failingFinish defaults (Some [endOfStream]))))
     = 2%nat.
Proof.
  split; [repeat split|split; vm_compute; reflexivity].
Qed.

(** C4 (code defect).  A first-response timeout of [0] is not disabled: it
    makes the timeout of the first read [0], [readWithTimeout] times out
    without reading, and the stream is stopped at once with the synthetic
    stop and [DONE], whatever the body holds and whatever the other
    settings are. *)
Theorem first_timeout_zero_stops_the_stream
    (platform : Platform) (onMeta_ : option (GrokConversationMeta -> Outcome unit))
    (tags : option string) (thinking search poster : option bool)
    (chunkSeconds totalSeconds : option Z)
    (globalCfg : GlobalSettings) (origin : string) (startTime : Z)
    (reads : list Read) :
  let settings :=
    {| filtered_tags := tags; show_thinking := thinking; show_search := search;
       stream_first_response_timeout := Some 0%Z;
       stream_chunk_timeout := chunkSeconds;
       stream_total_timeout := totalSeconds;
       video_poster_preview := poster |} in
  let r := createOpenAiStreamFromGrokNdjson platform
             {| onMeta := onMeta_; onFinish := None |} settings globalCfg origin
             startTime (Some reads) in
  firstTimeoutMs settings = 0%Z
  /\ frames r = [ Chunk "grok-4-mini-thinking-tahoe" "" (Some Stop); Done ]
  /\ closed (state r) = true.
Proof.
  intros settings r. split; [reflexivity|].
  unfold r, createOpenAiStreamFromGrokNdjson.
  rewrite loop_without_read.
  - unfold attempt, stopAndClose, flushStop, flushToolBuffer, onParser, seq, gets.
    cbn. destruct thinking as [[|]|]; cbn; split; reflexivity.
  - unfold tripped. cbn [firstReceived lastChunkTime]. rewrite Z.sub_diag.
    assert (H0 : firstTimeoutMs settings = 0%Z) by reflexivity. rewrite H0.
    replace (totalTimeoutMs settings <? 0)%Z with false
      by (symmetry; apply Z.ltb_ge; unfold totalTimeoutMs; lia).
    cbn [negb andb orb Z.ltb Z.compare]. now rewrite andb_false_r.
  - unfold perReadTimeout. cbn [firstReceived].
    assert (H0 : firstTimeoutMs settings = 0%Z) by reflexivity. rewrite H0.
    apply Z.leb_le. destruct (0 <? totalTimeoutMs settings)%Z; lia.
Qed.

(** *** A card that upstream splits over two tokens *)

(** The first character of a card, and the rest of it. *)
Definition cardHead : string := "<".
Definition cardTail : string := sliceFrom 1 ToolUsageCardProofs.searchCard.

(** [JSON.parse] on the lines of these tokens and on the arguments of the
    card. *)
Definition deltaJson (text : string) : option value :=
  match
    lookup text
      [ (tokenLine false cardHead, tokenFrame false cardHead);
        (tokenLine false cardTail, tokenFrame false cardTail);
        (tokenLine false ToolUsageCardProofs.searchCard,
         tokenFrame false ToolUsageCardProofs.searchCard) ]
  with
  | Some v => Some v
  | None => ToolUsageCardProofs.argsJson text
  end.

Definition deltaPlatform : Platform :=
  {| JSON_parse := deltaJson; URL_parse := fun _ => None; btoaUtf8 := fun s => s |}.

(** The stream on a body of one line for each token. *)
Definition runDeltas (tokens : list string) : Stream :=
  createOpenAiStreamFromGrokNdjson deltaPlatform quietHooks defaults noBaseUrl
    "https://gateway.example" 1700000000000
    (Some [immediate (join "" (map (fun t => tokenLine false t ++ nl) tokens));
           endOfStream]).

(** In one token the card is taken out of the content; in two tokens, the
    first ending inside the marker [<xai:], its opening tag is sent to the
    client as content. *)
Example split_card_leaks_markup :
  cardHead ++ cardTail = ToolUsageCardProofs.searchCard
  /\ frames (runDeltas [ToolUsageCardProofs.searchCard])
     = [ Chunk "grok-4-mini-thinking-tahoe" "" (Some Stop); Done ]
  /\ frames (runDeltas [cardHead; cardTail])
     = [ Chunk "grok-4-mini-thinking-tahoe" "<" None;
         Chunk "grok-4-mini-thinking-tahoe" "xai:tool_usage_card>" None;
         Chunk "grok-4-mini-thinking-tahoe" "" (Some Stop);
         Done ].
Proof. repeat split; vm_compute; reflexivity. Qed.

(** *** Triples on the stream monad

    One postcondition for a return and one for a throw. *)

Definition triple {A : Type} (P : State -> Prop) (c : M A)
    (Q : A -> State -> Prop) (E : State -> Prop) : Prop :=
  forall s, P s ->
    match c s with
    | (Returned a, s') => Q a s'
    | (Thrown _, s') => E s'
    end.

Lemma triple_seq {A B : Type} (P : State -> Prop) (x : M A) (k : A -> M B)
    (R : A -> State -> Prop) (Q : B -> State -> Prop) (E : State -> Prop) :
  triple P x R E -> (forall a, triple (R a) (k a) Q E) -> triple P (seq x k) Q E.
Proof.
  intros Hx Hk s Hs. unfold seq. specialize (Hx s Hs).
  destruct (x s) as [[a|m] s']; [exact (Hk a s' Hx)|exact Hx].
Qed.


(** A computation that keeps an invariant, however it leaves. *)
Definition keeps {A : Type} (I : State -> Prop) (c : M A) : Prop :=
  triple I c (fun _ => I) I.

Lemma keeps_ret {A : Type} (I : State -> Prop) (a : A) : keeps I (ret a).
Proof. intros s Hs. exact Hs. Qed.

Lemma keeps_gets {A : Type} (I : State -> Prop) (f : State -> A) : keeps I (gets f).
Proof. intros s Hs. exact Hs. Qed.

Lemma keeps_outcome {A : Type} (I : State -> Prop) (o : Outcome A) :
  keeps I (fun s => (o, s)).
Proof. intros s Hs. destruct o; exact Hs. Qed.

Lemma keeps_seq {A B : Type} (I : State -> Prop) (x : M A) (k : A -> M B) :
  keeps I x -> (forall a, keeps I (k a)) -> keeps I (seq x k).
Proof. intros Hx Hk. exact (triple_seq _ _ _ _ _ _ Hx Hk). Qed.

Lemma keeps_modify (I : State -> Prop) (f : State -> State) :
  (forall s, I s -> I (f s)) -> keeps I (modify f).
Proof. intros Hf s Hs. exact (Hf s Hs). Qed.

Lemma after_keeps {A B : Type} (I : State -> Prop) (x : M A) (k : A -> M B)
    (Q : B -> State -> Prop) :
  keeps I x -> (forall a, triple I (k a) Q I) -> triple I (seq x k) Q I.
Proof. intros Hx Hk. exact (triple_seq _ _ _ _ _ _ Hx Hk). Qed.

Create HintDb keeps.

#[export] Hint Resolve keeps_ret keeps_gets keeps_outcome : keeps.

(** One step through a computation; [update] proves that an update of the
    locals keeps the invariant. *)
Ltac keeps_step update :=
  cbv zeta;
  lazymatch goal with
  | |- keeps _ (seq _ _) => apply keeps_seq; [|intro]
  | |- keeps _ (when _ _) => unfold when
  | |- keeps _ (modify _) => apply keeps_modify; update
  | |- keeps _ (if ?b then _ else _) => destruct b
  | |- keeps _ (match ?x with _ => _ end) => destruct x
  | |- keeps _ _ => solve [auto with keeps]
  end.

(** *** The two loops, for any invariant

    [I] holds while the stream runs, [T] once it has ended. *)

Section Skeleton.

Variable platform : Platform.
Variable hooks : Hooks.
Variable settings : GrokSettings.
Variable globalCfg : GlobalSettings.
Variable origin : string.
Variable startTime : Z.

Variables I T : State -> Prop.

(** What a frame handler leaves: the stream goes on, or it has ended. *)
Definition flowPost (flow : Flow) (s : State) : Prop :=
  match flow with
  | Next => I s
  | Finished => T s
  end.

Hypothesis noteMeta_keeps : forall data, keeps I (noteMeta hooks data).

Hypothesis handleFrame_ends :
  forall now data,
    triple I (handleFrame platform hooks settings globalCfg origin startTime now data)
      flowPost I.

Hypothesis stopAndClose_ends :
  forall now,
    triple I (stopAndClose platform hooks settings startTime now) (fun _ => T) I.

Hypothesis onException_ends :
  forall now message,
    triple I (onException platform hooks settings startTime now message)
      (fun _ => T) I.

(** What the inner loop leaves. *)
Definition drainPost (d : Drained * Timing) (s : State) : Prop :=
  match fst d with
  | Pending _ => I s
  | Ended => T s
  end.

Lemma drain_ends (fuel : nat) (now : Z) (buffer : string) (t : Timing) :
  triple I
    (drain platform hooks settings globalCfg origin startTime fuel now buffer t)
    drainPost I.
Proof.
  revert buffer t. induction fuel as [|fuel IH]; intros buffer t.
  - cbn [drain]. destruct (indexOf nl buffer); intros s Hs; exact Hs.
  - cbn [drain]. destruct (indexOf nl buffer) as [idx|]; [|intros s Hs; exact Hs].
    cbv zeta. destruct (negb _); [apply IH|].
    destruct (JSON_parse platform _) as [data|]; [|apply IH].
    apply after_keeps; [apply noteMeta_keeps|intros _].
    eapply triple_seq; [apply handleFrame_ends|].
    intros [|]; [apply IH|]. intros s Hs. exact Hs.
Qed.

(** How the [try] block leaves the stream. *)
Definition triedPost (r : Tried * State) : Prop :=
  match fst r with
  | Completed => T (snd r)
  | Caught _ _ => I (snd r)
  end.

Lemma attempt_stop (now : Z) (s : State) :
  I s ->
  triedPost (attempt now (stopAndClose platform hooks settings startTime now)
               completed s).
Proof.
  intros Hs. pose proof (stopAndClose_ends now s Hs) as H.
  unfold attempt, triedPost.
  destruct (stopAndClose _ _ _ _ _ s) as [[flow|m] s']; exact H.
Qed.

Lemma loop_ends (reads : list Read) :
  forall (now : Z) (buffer : string) (t : Timing) (s : State),
    I s ->
    triedPost (loop platform hooks settings globalCfg origin startTime
                 reads now buffer t s).
Proof.
  induction reads as [|r rest IH]; intros now buffer t s Hs.
  - cbn [loop]. cbv zeta.
    repeat (destruct (_ && _); [now apply attempt_stop|]).
    destruct (readWithTimeout _ _ _); now apply attempt_stop.
  - cbn [loop]. cbv zeta.
    repeat (destruct (_ && _); [now apply attempt_stop|]).
    destruct (readWithTimeout _ _ _) as [now'|now' [chunk| | |m]].
    + now apply attempt_stop.
    + unfold attempt.
      pose proof (drain_ends (String.length (buffer ++ chunk)) now'
                    (buffer ++ chunk) t s Hs) as H.
      destruct (drain _ _ _ _ _ _ _ _ _ _ s) as [[[[buffer'|] t']|m] s'].
      * now apply IH.
      * exact H.
      * exact H.
    + now apply IH.
    + now apply attempt_stop.
    + exact Hs.
Qed.

(** The stream of a body that is not [null]: it has ended, or [start]
    rejected with the invariant still there. *)
Lemma stream_ends (reads : list Read) :
  I initialState ->
  let r := createOpenAiStreamFromGrokNdjson platform hooks settings globalCfg origin
             startTime (Some reads) in
  match failure r with
  | None => T (state r)
  | Some _ => I (state r)
  end.
Proof.
  intros H0. cbv zeta. unfold createOpenAiStreamFromGrokNdjson.
  pose proof (loop_ends reads startTime ""
                {| firstReceived := false; lastChunkTime := startTime |}
                initialState H0) as H.
  destruct (loop _ _ _ _ _ _ _ _ _ _ _) as [[|e now] s]; [exact H|].
  pose proof (onException_ends now e s H) as H'.
  destruct (onException _ _ _ _ _ _ s) as [[u|e'] s']; exact H'.
Qed.

End Skeleton.

(** *** One [DONE], and it is last *)

(** No [DONE] yet, not closed, [onFinish] not called. *)
Definition running (s : State) : Prop :=
  closed s = false /\ doneFrames (enqueued s) = 0%nat /\ finishCalls s = [].

(** One [DONE], the last frame; [onFinish] called [n] times. *)
Definition doneLast (isClosed : bool) (n : nat) (s : State) : Prop :=
  closed s = isClosed
  /\ List.length (finishCalls s) = n
  /\ exists chunks, enqueued s = (chunks ++ [Done])%list /\ doneFrames chunks = 0%nat.

(** How often [onFinish] is to be called: once when there is one. *)
Definition finishCount (hooks : Hooks) : nat :=
  match onFinish hooks with Some _ => 1%nat | None => 0%nat end.

Lemma doneFrames_app (xs ys : list Frame) :
  doneFrames (xs ++ ys) = (doneFrames xs + doneFrames ys)%nat.
Proof. unfold doneFrames. now rewrite filter_app, length_app. Qed.

Lemma running_enqueueChunk (content : string) (finish_reason : option FinishReason) :
  keeps running (enqueueChunk content finish_reason).
Proof.
  intros s (Hc & Hd & Hn). unfold enqueueChunk, seq, gets, enqueue, modify, running.
  cbn -[doneFrames]. rewrite doneFrames_app, Hd. auto.
Qed.

#[export] Hint Resolve running_enqueueChunk : keeps.

(** An update of the locals leaves the frames, [closed] and the calls of
    [onFinish] as they are. *)
Ltac same_state := intros ? ?; assumption.

Ltac quiet := repeat keeps_step same_state.

Section ExactlyOneDone.

Variable platform : Platform.
Variable hooks : Hooks.
Variable settings : GrokSettings.
Variable globalCfg : GlobalSettings.
Variable origin : string.
Variable startTime : Z.

Lemma running_emitTextDelta text lines isThinking messageTag :
  keeps running (emitTextDelta settings text lines isThinking messageTag).
Proof. unfold emitTextDelta. quiet. Qed.

Lemma running_onParser call : keeps running (onParser settings call).
Proof.
  intros s Hs. unfold onParser.
  destruct (ToolUsageCard.result _); exact Hs.
Qed.

#[local] Hint Resolve running_emitTextDelta running_onParser : keeps.

Lemma running_flushToolBuffer isThinkingFrame :
  keeps running (flushToolBuffer platform settings isThinkingFrame).
Proof. unfold flushToolBuffer. quiet. Qed.

Lemma running_closeThinkWrappers : keeps running (closeThinkWrappers settings).
Proof. unfold closeThinkWrappers. quiet. Qed.

Lemma running_updateMeta part : keeps running (updateMeta hooks part).
Proof. unfold updateMeta. quiet. Qed.

#[local] Hint Resolve running_flushToolBuffer running_closeThinkWrappers
  running_updateMeta : keeps.

Lemma running_noteMeta data : keeps running (noteMeta hooks data).
Proof. unfold noteMeta. quiet. Qed.

(** [onFinish], when there is one, returns. *)
Hypothesis onFinish_returns :
  forall f r, onFinish hooks = Some f -> f r = Returned tt.

(** The stream has ended: closed, one [DONE] and it is last, [onFinish]
    called once. *)
Definition ended : State -> Prop := doneLast true (finishCount hooks).

Lemma enqueue_done :
  triple running (enqueue makeDone) (fun _ => doneLast false 0) running.
Proof.
  intros s (Hc & Hd & Hn). unfold enqueue, modify, doneLast. cbn -[doneFrames].
  rewrite Hn. repeat split; trivial. now exists (enqueued s).
Qed.

Lemma finish_once (now : Z) :
  triple (doneLast false 0) (finish hooks startTime now)
    (fun _ => doneLast false (finishCount hooks)) running.
Proof.
  intros s (Hc & Hn & Hd). unfold finish, finishCount.
  pose proof onFinish_returns as Hret.
  destruct (onFinish hooks) as [f|].
  - unfold seq, gets, modify. rewrite (Hret f _ eq_refl).
    unfold doneLast. cbn -[doneFrames]. rewrite length_app, Hn. auto.
  - unfold ret, doneLast. auto.
Qed.

Lemma close_ends :
  triple (doneLast false (finishCount hooks)) close (fun _ => ended) running.
Proof.
  intros s (Hc & Hn & Hd). unfold close, modify, ended, doneLast.
  cbn -[doneFrames]. auto.
Qed.

(** [enqueue(makeDone()); onFinish; controller.close()]. *)
Lemma done_finish_close (now : Z) :
  triple running (enqueue makeDone ;; finish hooks startTime now ;; close)%stream
    (fun _ => ended) running.
Proof.
  eapply triple_seq; [apply enqueue_done|intro].
  eapply triple_seq; [apply finish_once|intro].
  apply close_ends.
Qed.

(** The same, followed by [return]. *)
Lemma done_finish_close_return (now : Z) :
  triple running
    (enqueue makeDone ;; finish hooks startTime now ;; close ;; ret Finished)%stream
    (flowPost running ended) running.
Proof.
  eapply triple_seq; [apply enqueue_done|intro].
  eapply triple_seq; [apply finish_once|intro].
  eapply triple_seq; [apply close_ends|intro].
  intros s Hs. exact Hs.
Qed.

Lemma goes_on : triple running (ret Next) (flowPost running ended) running.
Proof. intros s Hs. exact Hs. Qed.

Ltac through := repeat (apply after_keeps; [solve [quiet]|intro]).

Lemma stopAndClose_once (now : Z) :
  triple running (stopAndClose platform hooks settings startTime now)
    (fun _ => ended) running.
Proof.
  unfold stopAndClose, flushStop.
  eapply triple_seq.
  - through. apply enqueue_done.
  - intro. eapply triple_seq; [apply finish_once|intro].
    eapply triple_seq; [apply close_ends|intro].
    intros s Hs. exact Hs.
Qed.

Lemma onErrorFrame_once (now : Z) (message : value) :
  triple running (onErrorFrame platform hooks settings startTime now message)
    (flowPost running ended) running.
Proof. unfold onErrorFrame. through. apply done_finish_close_return. Qed.

Lemma onVideo_once (videoResp : value) :
  triple running (onVideo platform settings globalCfg origin videoResp)
    (flowPost running ended) running.
Proof. unfold onVideo. cbv zeta. through. apply goes_on. Qed.

Lemma onImage_once (now : Z) (grok : value) (rawToken : option value) :
  triple running
    (onImage platform hooks settings globalCfg origin startTime now grok rawToken)
    (flowPost running ended) running.
Proof.
  unfold onImage. cbv zeta.
  destruct (truthy _).
  - destruct (normalizeGeneratedAssetUrls _ _); [apply goes_on|].
    through. apply done_finish_close_return.
  - destruct rawToken as [[]|]; try apply goes_on.
    through. apply goes_on.
Qed.

Lemma onText_once (grok : value) (rawToken : option value) :
  triple running (onText platform settings grok rawToken)
    (flowPost running ended) running.
Proof. unfold onText. cbv zeta. through. apply goes_on. Qed.

Lemma handleFrame_once (now : Z) (data : value) :
  triple running
    (handleFrame platform hooks settings globalCfg origin startTime now data)
    (flowPost running ended) running.
Proof.
  unfold handleFrame. cbv zeta.
  destruct (truthy (optProp "message" _)); [apply onErrorFrame_once|].
  destruct (negb _); [apply goes_on|].
  apply after_keeps; [quiet|intro].
  destruct (truthy (prop "streamingVideoGenerationResponse" _));
    [apply onVideo_once|].
  apply after_keeps; [quiet|intro].
  apply after_keeps; [quiet|intros image].
  destruct image; [apply onImage_once|apply onText_once].
Qed.

Lemma onException_once (now : Z) (message : string) :
  triple running (onException platform hooks settings startTime now message)
    (fun _ => ended) running.
Proof. unfold onException. through. apply done_finish_close. Qed.

Lemma initialState_running : running initialState.
Proof. repeat split. Qed.

Lemma stream_ends_once (reads : list Read) :
  let r := createOpenAiStreamFromGrokNdjson platform hooks settings globalCfg origin
             startTime (Some reads) in
  match failure r with
  | None => ended (state r)
  | Some _ => running (state r)
  end.
Proof.
  apply stream_ends.
  - exact running_noteMeta.
  - exact handleFrame_once.
  - exact stopAndClose_once.
  - exact onException_once.
  - exact initialState_running.
Qed.

End ExactlyOneDone.

(** *** The think wrappers at the end *)

(** No think wrapper is open: neither the one of the thinking tokens nor
    the one of the video progress. *)
Definition wrappersClosed (s : State) : Prop :=
  thinkTagOpen s = false /\ videoProgressStarted s = false.

(** Wrappers are only opened when thinking is shown. *)
Definition wrappersWhen (shown : bool) (s : State) : Prop :=
  shown = false -> wrappersClosed s.


Ltac wrappers_update :=
  intros ?s ?Hs;
  first [ assumption
        | intros ?Hb; discriminate
        | intros ?Hb;
          match goal with Hs : wrappersWhen _ _ |- _ => destruct (Hs Hb) end;
          split; first [assumption | reflexivity] ].

Ltac wrappers := repeat keeps_step wrappers_update.

Lemma wrappersWhen_enqueue (shown : bool) (f : Frame) :
  keeps (wrappersWhen shown) (enqueue f).
Proof. unfold enqueue. wrappers. Qed.

Lemma wrappersClosed_enqueue (f : Frame) : keeps wrappersClosed (enqueue f).
Proof. unfold enqueue. quiet. Qed.

#[export] Hint Resolve wrappersWhen_enqueue wrappersClosed_enqueue : keeps.

Lemma wrappersWhen_enqueueChunk (shown : bool) (content : string)
    (finish_reason : option FinishReason) :
  keeps (wrappersWhen shown) (enqueueChunk content finish_reason).
Proof. unfold enqueueChunk. wrappers. Qed.

Lemma wrappersClosed_enqueueChunk (content : string)
    (finish_reason : option FinishReason) :
  keeps wrappersClosed (enqueueChunk content finish_reason).
Proof. unfold enqueueChunk. quiet. Qed.

#[export] Hint Resolve wrappersWhen_enqueueChunk wrappersClosed_enqueueChunk : keeps.

Section ThinkWrappers.

Variable platform : Platform.
Variable hooks : Hooks.
Variable settings : GrokSettings.
Variable globalCfg : GlobalSettings.
Variable origin : string.
Variable startTime : Z.

Lemma wrappers_emitTextDelta text lines isThinking messageTag :
  keeps (wrappersWhen (showThinking settings))
    (emitTextDelta settings text lines isThinking messageTag).
Proof. unfold emitTextDelta. wrappers. Qed.

Lemma wrappers_onParser call :
  keeps (wrappersWhen (showThinking settings)) (onParser settings call).
Proof.
  intros s Hs. unfold onParser.
  destruct (ToolUsageCard.result _); exact Hs.
Qed.

#[local] Hint Resolve wrappers_emitTextDelta wrappers_onParser : keeps.

Lemma wrappers_flushToolBuffer isThinkingFrame :
  keeps (wrappersWhen (showThinking settings))
    (flushToolBuffer platform settings isThinkingFrame).
Proof. unfold flushToolBuffer. wrappers. Qed.

Lemma wrappers_updateMeta part :
  keeps (wrappersWhen (showThinking settings)) (updateMeta hooks part).
Proof. unfold updateMeta. wrappers. Qed.

#[local] Hint Resolve wrappers_flushToolBuffer wrappers_updateMeta : keeps.



Lemma wrappersClosed_finish (now : Z) :
  keeps wrappersClosed (finish hooks startTime now).
Proof. unfold finish. quiet. Qed.

Lemma wrappersClosed_close : keeps wrappersClosed close.
Proof. unfold close. quiet. Qed.

#[local] Hint Resolve wrappersClosed_finish wrappersClosed_close : keeps.













End ThinkWrappers.

(** X1.  Whenever [start] resolves on a body that is not [null], and
    [onFinish], if there is one, returns each time it is called, the
    controller is closed, the frames are chunks followed by one [DONE],
    which is the last frame, and [onFinish] has been called once.  (The
    calls of the controller do not throw in a run that resolves: once the
    consumer has cancelled the stream each of them throws, every path of
    [start] ends with [controller.close()], and an error thrown in the
    [try] block leads to the [enqueue] of the [catch] block, whose error
    nothing catches.) *)
Theorem createOpenAiStreamFromGrokNdjson_ends_once
    (platform : Platform) (hooks : Hooks) (settings : GrokSettings)
    (globalCfg : GlobalSettings) (origin : string) (startTime : Z)
    (reads : list Read) :
  (forall f r, onFinish hooks = Some f -> f r = Returned tt) ->
  let r := createOpenAiStreamFromGrokNdjson platform hooks settings globalCfg origin
             startTime (Some reads) in
  failure r = None ->
  closed (state r) = true
  /\ List.length (finishCalls (state r)) = finishCount hooks
  /\ exists chunks,
       frames r = (chunks ++ [Done])%list /\ doneFrames chunks = 0%nat.
Proof.
  intros Hret r Hr.
  pose proof (stream_ends_once platform hooks settings globalCfg origin startTime
                Hret reads) as H.
  cbv zeta in H. fold r in H. rewrite Hr in H. exact H.
Qed.

Lemma quietHooks_return :
  forall f r, onFinish quietHooks = Some f -> f r = Returned tt.
Proof. intros f r H. injection H as <-. reflexivity. Defined.

Lemma createOpenAiStreamFromGrokNdjson_ends_once_witness :
  let r := run quietHooks defaults (Some [immediate twoLines; endOfStream]) in
  closed (state r) = true
  /\ List.length (finishCalls (state r)) = 1%nat
  /\ exists chunks, frames r = (chunks ++ [Done])%list /\ doneFrames chunks = 0%nat.
Proof.
  generalize (createOpenAiStreamFromGrokNdjson_ends_once streamPlatform quietHooks
                defaults noBaseUrl "https://gateway.example" 1700000000000
                [immediate twoLines; endOfStream] quietHooks_return).
  vm_compute. intros H. exact (H eq_refl).
Defined.



End GrokStreamProofs.


(* ===================================================================== *)
(** ** The conversation store: tenants, reads and statistics             *)
(* ===================================================================== *)

Module StoreMore.

Import JsString Conversations ConversationsProofs.
Local Open Scope Z_scope.

(** *** Tenants *)

(** The rows of the other scopes, in table order. *)
Definition others (s : string) (db : Table) : Table :=
  filter (fun r => negb (String.eqb (scope r) s)) db.

Lemma others_filter (s : string) (f : ConversationRow -> bool) (db : Table) :
  (forall r, f r = false -> scope r = s) ->
  others s (filter f db) = others s db.
Proof.
  intros Hf. unfold others. rewrite filter_filter. apply filter_ext_in.
  intros r _. destruct (f r) eqn:E; [reflexivity|].
  rewrite (Hf r E), String.eqb_refl. reflexivity.
Qed.

Lemma has_pk_scope (s id : string) (r : ConversationRow) :
  has_pk s id r = true -> scope r = s.
Proof. intros H. apply has_pk_iff in H. now inversion H. Qed.

(** X8.  The operations that take a scope leave the rows of every other
    scope as they are, in the same order, and return rows of their own
    scope only. *)
Theorem other_scopes_untouched
    (db : Table) (s id hash tok : string) (keep atMs : Z) :
  others s (fst (getConversationById db s id atMs)) = others s db
  /\ others s (fst (findConversationByHistoryHash db s hash atMs)) = others s db
  /\ others s (deleteConversationById db s id) = others s db
  /\ others s (fst (trimConversationsForToken db s tok keep)) = others s db
  /\ (forall r, snd (getConversationById db s id atMs) = Some r -> scope r = s)
  /\ (forall r, snd (findConversationByHistoryHash db s hash atMs) = Some r ->
                scope r = s).
Proof.
  repeat split.
  - unfold getConversationById. cbn [fst]. apply others_filter. intros r H.
    apply negb_false_iff, andb_true_iff in H. now apply has_pk_scope with id.
  - unfold findConversationByHistoryHash. cbv zeta.
    destruct (negb (nonEmpty (trim hash))); cbn [fst]; [reflexivity|].
    apply others_filter. intros r H.
    apply negb_false_iff, andb_true_iff in H. now apply String.eqb_eq.
  - unfold deleteConversationById, delete_by_pk. apply others_filter. intros r H.
    apply negb_false_iff in H. now apply has_pk_scope with id.
  - unfold trimConversationsForToken. cbv zeta.
    destruct (_ <=? _); cbn [fst]; [reflexivity|].
    rewrite batch_delete_filter. apply others_filter. intros r H.
    apply negb_false_iff in H. unfold hit in H. apply existsb_exists in H.
    destruct H as [k [Hk Hr]]. apply in_map_iff in Hk. destruct Hk as [i [<- _]].
    now apply has_pk_scope with i.
  - intros r H. unfold getConversationById in H. cbn [snd] in H.
    apply find_some in H. destruct H as [_ H]. apply andb_true_iff in H.
    now apply has_pk_scope with id.
  - intros r H. unfold findConversationByHistoryHash in H. cbv zeta in H.
    destruct (negb (nonEmpty (trim hash))); cbn [snd] in H; [discriminate|].
    destruct (order_by_desc _ _) as [|x l] eqn:E; [discriminate|].
    cbn in H. injection H as ->.
    assert (Hin : In r (order_by_desc updated_at
              (filter (fun r0 => String.eqb (scope r0) s
                                 && String.eqb (history_hash r0) (trim hash)
                                 && (atMs <? expires_at r0))
                 (filter (fun r0 => negb (String.eqb (scope r0) s
                                          && (expires_at r0 <=? atMs))) db))))
      by (rewrite E; now left).
    unfold order_by_desc in Hin.
    apply (Permutation_in r (Permutation_sym (order_by_asc_perm _ _))) in Hin.
    apply filter_In in Hin. destruct Hin as [_ Hin].
    apply andb_true_iff in Hin. destruct Hin as [Hin _].
    apply andb_true_iff in Hin. destruct Hin as [Hin _].
    now apply String.eqb_eq.
Qed.

(** *** Lookup by history hash *)

Lemma order_by_desc_head (key : ConversationRow -> Z) (l : list ConversationRow)
    (r : ConversationRow) :
  hd_error (order_by_desc key l) = Some r ->
  In r l /\ forall r', In r' l -> key r' <= key r.
Proof.
  intros H. unfold order_by_desc in *.
  pose proof (order_by_asc_perm (fun x => - key x) l) as Hp.
  pose proof (order_by_asc_sorted (fun x => - key x) l) as Hs.
  destruct (order_by_asc (fun x => - key x) l) as [|x t]; [discriminate|].
  cbn in H. injection H as ->. split.
  - apply (Permutation_in r (Permutation_sym Hp)). now left.
  - intros r' Hr'. apply (Permutation_in r' Hp) in Hr'.
    destruct Hr' as [<-|Hr']; [lia|].
    inversion Hs as [|? ? _ Hall]; subst.
    rewrite Forall_forall in Hall. specialize (Hall r' Hr'). cbv beta in Hall. lia.
Qed.

Lemma order_by_desc_none (key : ConversationRow -> Z) (l : list ConversationRow) :
  hd_error (order_by_desc key l) = None -> l = [].
Proof.
  intros H. unfold order_by_desc in *.
  pose proof (order_by_asc_perm (fun x => - key x) l) as Hp.
  destruct (order_by_asc (fun x => - key x) l) as [|x t]; [|discriminate].
  now apply Permutation_sym, Permutation_nil in Hp.
Qed.

(** X9.  [findConversationByHistoryHash] does nothing and returns no row
    for a blank hash.  Otherwise it deletes the expired rows of the scope
    and no other row, and the row it returns is a row of the scope that has
    not expired, carries the trimmed hash and has the greatest [updated_at]
    among such rows; it returns none only when there is no such row. *)
Theorem findConversationByHistoryHash_most_recent
    (db : Table) (s historyHash : string) (atMs : Z) :
  let db' := fst (findConversationByHistoryHash db s historyHash atMs) in
  let found := snd (findConversationByHistoryHash db s historyHash atMs) in
  let wanted r := scope r = s /\ history_hash r = trim historyHash
                  /\ atMs < expires_at r in
  (trim historyHash = EmptyString -> db' = db /\ found = None)
  /\ (trim historyHash <> EmptyString ->
       (forall r, In r db' <-> In r db /\ (scope r = s -> atMs < expires_at r))
       /\ (forall r, found = Some r ->
              In r db /\ wanted r
              /\ forall r', In r' db -> wanted r' -> updated_at r' <= updated_at r)
       /\ (found = None -> forall r, In r db -> ~ wanted r)).
Proof.
  cbv zeta. unfold findConversationByHistoryHash. cbv zeta.
  destruct (trim historyHash) as [|c h] eqn:Eh; cbn [nonEmpty negb fst snd].
  - split; [auto|]. intros H. now contradiction H.
  - split; [discriminate|]. intros _.
    set (hash := String c h).
    set (db' := filter (fun r => negb (String.eqb (scope r) s
                                       && (expires_at r <=? atMs))) db).
    set (hits := filter (fun r => String.eqb (scope r) s
                                  && String.eqb (history_hash r) hash
                                  && (atMs <? expires_at r)) db').
    assert (Hkept : forall r, In r db'
                              <-> In r db /\ (scope r = s -> atMs < expires_at r)).
    { intros r. unfold db'. rewrite filter_In, negb_true_iff, andb_false_iff.
      rewrite String.eqb_neq, Z.leb_gt. split; intros [Hin H]; (split; [exact Hin|]).
      - intros Hs. destruct H as [H|H]; [contradiction|lia].
      - destruct (String.eqb_spec (scope r) s) as [E|E]; [right; apply H, E|now left]. }
    assert (Hhits : forall r, In r hits
                    <-> In r db /\ scope r = s /\ history_hash r = hash
                        /\ atMs < expires_at r).
    { intros r. unfold hits. rewrite filter_In, Hkept, !andb_true_iff.
      rewrite !String.eqb_eq, Z.ltb_lt. tauto. }
    split; [exact Hkept|]. split.
    + intros r Hr. apply order_by_desc_head in Hr. destruct Hr as [Hin Hmax].
      apply Hhits in Hin. split; [tauto|]. split; [tauto|].
      intros r' Hr' Hw. apply Hmax. apply Hhits. tauto.
    + intros Hnone r Hin Hw. apply order_by_desc_none in Hnone.
      assert (Hr : In r hits) by (apply Hhits; tauto).
      fold hits in Hnone. rewrite Hnone in Hr. exact Hr.
Qed.

(** *** Delete, and the round trip through the table *)

(** X10.  [deleteConversationById] removes the rows of the key and no
    other; a read of the key then finds nothing, and a second delete changes
    nothing. *)
Theorem deleteConversationById_removes
    (db : Table) (s id : string) (atMs : Z) :
  (forall r, In r (deleteConversationById db s id) <-> In r db /\ pk r <> (s, id))
  /\ snd (getConversationById (deleteConversationById db s id) s id atMs) = None
  /\ deleteConversationById (deleteConversationById db s id) s id
     = deleteConversationById db s id.
Proof.
  assert (Hmem : forall r, In r (deleteConversationById db s id)
                           <-> In r db /\ pk r <> (s, id)).
  { intros r. unfold deleteConversationById, delete_by_pk.
    rewrite filter_In, negb_true_iff, <- not_true_iff_false, has_pk_iff. tauto. }
  split; [exact Hmem|]. split.
  - unfold getConversationById. cbn [snd].
    destruct (find _ _) as [r|] eqn:E; [|reflexivity]. exfalso.
    apply find_some in E. destruct E as [Hin H].
    apply andb_true_iff in H. destruct H as [Hk _]. apply has_pk_iff in Hk.
    apply filter_In in Hin. destruct Hin as [Hin _].
    apply Hmem in Hin. tauto.
  - unfold deleteConversationById, delete_by_pk. rewrite filter_filter.
    apply filter_ext. intros r. now destruct (has_pk s id r).
Qed.

Lemma read_of_key (db : Table) (s id : string) (atMs : Z) :
  (forall r, snd (getConversationById db s id atMs) = Some r ->
             In r db /\ pk r = (s, id) /\ atMs < expires_at r)
  /\ (snd (getConversationById db s id atMs) = None ->
       forall r, In r db -> pk r = (s, id) -> expires_at r <= atMs).
Proof.
  unfold getConversationById. cbn [snd]. split.
  - intros r Hfound. apply find_some in Hfound. destruct Hfound as [Hin H].
    apply andb_true_iff in H. destruct H as [Hk Hlive].
    apply filter_In in Hin. apply has_pk_iff in Hk. apply Z.ltb_lt in Hlive. tauto.
  - intros Hnone r Hin Hk.
    destruct (Z.le_gt_cases (expires_at r) atMs) as [Hle|Hgt]; [exact Hle|].
    exfalso. apply has_pk_iff in Hk.
    assert (Hin' : In r (filter (fun r => negb (has_pk s id r && (expires_at r <=? atMs)))
                           db)).
    { apply filter_In. split; [exact Hin|]. rewrite Hk. cbn [andb].
      apply negb_true_iff, Z.leb_gt. lia. }
    pose proof (find_none _ _ Hnone r Hin') as H. cbv beta in H.
    rewrite Hk in H. cbn [andb] in H. apply Z.ltb_ge in H. lia.
Qed.

Lemma upsert_row_present (nowMs : Z) (db : Table) (row : UpsertConversationInput) :
  exists r, In r (upsertConversation nowMs db row)
    /\ pk r = (in_scope row, in_openai_conversation_id row)
    /\ grok_conversation_id r = in_grok_conversation_id row
    /\ last_response_id r = in_last_response_id row
    /\ share_link_id r = trimmedOrEmpty (in_share_link_id row)
    /\ token r = in_token row
    /\ history_hash r = trimmedOrEmpty (in_history_hash row)
    /\ updated_at r = finiteOr (in_updated_at row) nowMs
    /\ expires_at r = in_expires_at row.
Proof.
  unfold upsertConversation, insert_on_conflict_update.
  set (new := bound_row nowMs row).
  destruct (existsb _ db) eqn:E.
  - apply existsb_exists in E. destruct E as [old [Hold Hk]].
    exists (do_update old new). split.
    + apply in_map_iff. exists old. split; [|exact Hold]. now rewrite Hk.
    + apply has_pk_iff in Hk. rewrite do_update_pk. repeat split. exact Hk.
  - exists new. split; [apply in_or_app; right; now left|]. repeat split.
Qed.

(** X11.  A row written by [upsertConversation] is the row a read of its
    key returns, as long as it has not expired at the time of the read: the
    read gives the bound values (the two optional texts trimmed,
    [updated_at] defaulting to [nowMs()]).  A row written already expired is
    not returned. *)
Theorem upsertConversation_then_getConversationById
    (nowMs : Z) (db : Table) (row : UpsertConversationInput) (atMs : Z) :
  pk_unique db ->
  let found :=
    snd (getConversationById (upsertConversation nowMs db row)
           (in_scope row) (in_openai_conversation_id row) atMs) in
  (atMs < in_expires_at row ->
   exists r, found = Some r
     /\ grok_conversation_id r = in_grok_conversation_id row
     /\ last_response_id r = in_last_response_id row
     /\ share_link_id r
        = trim (match in_share_link_id row with Some v => v | None => EmptyString end)
     /\ token r = in_token row
     /\ history_hash r
        = trim (match in_history_hash row with Some v => v | None => EmptyString end)
     /\ updated_at r = match in_updated_at row with Some v => v | None => nowMs end
     /\ expires_at r = in_expires_at row)
  /\ (in_expires_at row <= atMs -> found = None).
Proof.
  intros Hu. cbv zeta.
  set (db2 := upsertConversation nowMs db row).
  assert (Hu2 : pk_unique db2) by (now apply insert_on_conflict_update_pk_unique).
  destruct (upsert_row_present nowMs db row) as [r (Hin & Hk & Hfields)].
  fold db2 in Hin.
  set (s := in_scope row) in *. set (id := in_openai_conversation_id row) in *.
  destruct (read_of_key db2 s id atMs) as (Hsome & Hnone).
  split.
  - intros Hlive. exists r. split; [|exact Hfields].
    destruct (snd (getConversationById db2 s id atMs)) as [r'|] eqn:E.
    + destruct (Hsome r' eq_refl) as (Hin' & Hk' & _).
      f_equal. apply (pk_inj db2 r' r Hu2 Hin' Hin). congruence.
    + exfalso. specialize (Hnone eq_refl r Hin Hk).
      destruct Hfields as (_ & _ & _ & _ & _ & _ & He). lia.
  - intros Hexp.
    destruct (snd (getConversationById db2 s id atMs)) as [r'|] eqn:E; [|reflexivity].
    exfalso. destruct (Hsome r' eq_refl) as (Hin' & Hk' & Hlive).
    assert (r' = r) by (apply (pk_inj db2 r' r Hu2 Hin' Hin); congruence).
    subst r'. destruct Hfields as (_ & _ & _ & _ & _ & _ & He). lia.
Qed.

Lemma upsertConversation_then_getConversationById_witness :
  exists r,
    snd (getConversationById (upsertConversation 500 sample_table sample_input)
           "k:ab" "c2" 600) = Some r
    /\ grok_conversation_id r = "g-new"%string
    /\ last_response_id r = "r-new"%string
    /\ share_link_id r = "sl"%string
    /\ token r = "tokC"%string
    /\ history_hash r = ""%string
    /\ updated_at r = 500
    /\ expires_at r = 900.
Proof.
  apply (proj1 (upsertConversation_then_getConversationById
                  500 sample_table sample_input 600 sample_table_pk_unique)).
  reflexivity.
Defined.

(** *** The sweep of expired rows *)

(** X12.  [cleanupExpiredConversations] reports [0] exactly when no row has
    expired, and then leaves the table as it is; when it reports fewer rows
    than its batch size, no expired row is left. *)
Theorem cleanupExpiredConversations_sweeps
    (db : Table) (limit atMs : Z) :
  pk_unique db ->
  let db' := fst (cleanupExpiredConversations db limit atMs) in
  let n := snd (cleanupExpiredConversations db limit atMs) in
  (n = 0 <-> forall r, In r db -> atMs < expires_at r)
  /\ (n = 0 -> db' = db)
  /\ (n < cleanupBatch limit -> forall r, In r db' -> atMs < expires_at r).
Proof.
  intros Hu. cbv zeta.
  set (F := filter (expired atMs) db).
  set (S := order_by_asc expires_at F).
  assert (HpermS : Permutation F S) by apply order_by_asc_perm.
  set (b := Z.to_nat (cleanupBatch limit)).
  assert (Hb : Z.of_nat b = cleanupBatch limit /\ (1 <= b)%nat).
  { unfold b, cleanupBatch. lia. }
  set (del := firstn b S).
  assert (Hres : cleanupExpiredConversations db limit atMs
                 = (match del with
                    | [] => db
                    | _ => batch_delete (map pk del) db
                    end, Z.of_nat (List.length del))).
  { unfold cleanupExpiredConversations. fold F. fold S. fold b. fold del.
    destruct del; reflexivity. }
  rewrite Hres. cbn [fst snd].
  assert (HF : forall r, In r F <-> In r db /\ expires_at r <= atMs).
  { intros r. unfold F, expired. now rewrite filter_In, Z.leb_le. }
  assert (Hempty : del = [] <-> F = []).
  { split.
    - intros Hd. destruct S as [|x t] eqn:ES.
      + now apply Permutation_sym, Permutation_nil in HpermS.
      + exfalso. unfold del in Hd. destruct b; [lia|]. discriminate Hd.
    - intros HFn. unfold del. rewrite HFn in HpermS.
      apply Permutation_nil in HpermS. rewrite HpermS. apply firstn_nil. }
  assert (Hzero : Z.of_nat (List.length del) = 0
                  <-> forall r, In r db -> atMs < expires_at r).
  { split.
    - intros Hn r Hr. destruct (Z.lt_ge_cases atMs (expires_at r)) as [H|H]; [exact H|].
      exfalso. assert (Hd : del = []) by (destruct del; [reflexivity|cbn in Hn; lia]).
      apply Hempty in Hd. assert (HrF : In r F) by (apply HF; split; [exact Hr|lia]).
      rewrite Hd in HrF. exact HrF.
    - intros Hall. assert (HFn : F = []).
      { apply filter_none. intros r Hr. unfold expired. apply Z.leb_gt.
        now apply Hall. }
      apply Hempty in HFn. now rewrite HFn. }
  split; [exact Hzero|]. split.
  - intros Hn. destruct del; [reflexivity|cbn in Hn; lia].
  - intros Hlt r Hr.
    destruct (Z.lt_ge_cases atMs (expires_at r)) as [H|H]; [exact H|]. exfalso.
    assert (Hall : del = S).
    { unfold del. apply firstn_all2.
      assert (Hlen : List.length (firstn b S) = Nat.min b (List.length S))
        by apply length_firstn.
      fold del in Hlen. lia. }
    assert (Hincl : incl del db).
    { intros x Hx. rewrite Hall in Hx.
      apply (Permutation_in x (Permutation_sym HpermS)) in Hx. now apply HF in Hx. }
    assert (Hnd : NoDup del).
    { rewrite Hall. apply (Permutation_NoDup HpermS). apply NoDup_filter.
      now apply pk_unique_NoDup. }
    destruct (batch_delete_rows db del (fun _ => true) Hu Hincl Hnd) as [Hmem _].
    assert (Hrdb : In r db /\ ~ In r del).
    { destruct del as [|d0 dl] eqn:Ed.
      - split; [exact Hr|intros []].
      - apply Hmem. exact Hr. }
    destruct Hrdb as [Hrdb Hnot]. apply Hnot. rewrite Hall.
    apply (Permutation_in r HpermS). apply HF. split; [exact Hrdb|lia].
Qed.

Lemma cleanupExpiredConversations_sweeps_witness :
  (snd (cleanupExpiredConversations sample_table 5 250) = 0
   <-> forall r, In r sample_table -> 250 < expires_at r)
  /\ (snd (cleanupExpiredConversations sample_table 5 250) = 0 ->
       fst (cleanupExpiredConversations sample_table 5 250) = sample_table)
  /\ (snd (cleanupExpiredConversations sample_table 5 250) < cleanupBatch 5 ->
       forall r, In r (fst (cleanupExpiredConversations sample_table 5 250)) ->
                 250 < expires_at r).
Proof.
  exact (cleanupExpiredConversations_sweeps sample_table 5 250 sample_table_pk_unique).
Defined.

Example sweep_sample :
  cleanupExpiredConversations sample_table 5 250
  = ([sample_row "c2" "tokA" 30 300], 3).
Proof. reflexivity. Qed.

(** *** Statistics *)

















Example stats_sample :
  getConversationStats sample_table 0 120
  = {| active_total := 3; expired_total := 1;
       top_tokens := [ {| token_suffix := "tokA"; count := 2 |};
                       {| token_suffix := "tokB"; count := 1 |} ] |}.
Proof. reflexivity. Qed.

End StoreMore.


(* ===================================================================== *)
(** ** The history hash: what it depends on                              *)
(* ===================================================================== *)

Module HistoryMore.

Import JsString History HistoryProofs.
Local Open Scope string_scope.

(** *** What the hash depends on *)

Lemma partsFor_app (textOf : GenericMessage -> string) (r : string)
    (a b : list GenericMessage) :
  partsFor textOf r (a ++ b) = (partsFor textOf r a ++ partsFor textOf r b)%list.
Proof. unfold partsFor. now rewrite filter_app, map_app. Qed.

Lemma partsFor_other (textOf : GenericMessage -> string) (r : string)
    (m : GenericMessage) :
  roleIs r m = false -> partsFor textOf r [m] = [].
Proof. intros H. unfold partsFor. cbn [filter]. now rewrite H. Qed.

Lemma nonEmpty_true (s : string) : s <> "" -> nonEmpty s = true.
Proof. destruct s; [congruence|reflexivity]. Qed.

(** X14.  The key of a conversation so far is the key under which its next
    turn is looked up: when the history [h] holds an assistant message and
    [u] is a user message with text, the hash of [h] followed by [u] with
    [excludeLastUser] is the hash of [h] without it.  Without an assistant
    message [excludeLastUser] changes nothing. *)
Theorem computeHistoryHash_continuation
    (h : list GenericMessage) (u : GenericMessage) :
  orEmpty (role u) = "user" ->
  trim (extractText (content u)) <> "" ->
  (existsb (roleIs "assistant") h = true ->
   computeHistoryHash (h ++ [u]) true = computeHistoryHash h false)
  /\ (existsb (roleIs "assistant") h = false ->
      computeHistoryHash (h ++ [u]) true = computeHistoryHash (h ++ [u]) false).
Proof.
  intros Hrole Htext. rewrite !computeHistoryHash_parts. unfold hashOfParts. cbv zeta.
  assert (Hsys : partsFor trimmedText "system" [u] = []).
  { apply partsFor_other. unfold roleIs. now rewrite Hrole. }
  assert (Husr : partsFor trimmedText "user" [u]
                 = ["user:" ++ trim (extractText (content u))]).
  { unfold partsFor, roleIs, trimmedText. cbn [filter]. rewrite Hrole.
    rewrite (nonEmpty_true _ Htext). reflexivity. }
  assert (Hass : existsb (roleIs "assistant") [u] = false).
  { cbn. unfold roleIs. now rewrite Hrole. }
  rewrite !partsFor_app, Hsys, Husr, app_nil_r, existsb_app, Hass, orb_false_r.
  split; intros Ha; rewrite Ha; cbn [andb].
  - replace (notNil (partsFor trimmedText "user" h ++ _)) with true
      by (now destruct (partsFor trimmedText "user" h)).
    now rewrite removelast_last.
  - reflexivity.
Qed.

Lemma computeHistoryHash_continuation_witness :
  computeHistoryHash
    ([msg "system" "S"; msg "user" "U1"; msg "assistant" "A1"] ++ [msg "user" " U2 "])
    true
  = computeHistoryHash [msg "system" "S"; msg "user" "U1"; msg "assistant" "A1"] false.
Proof.
  apply (computeHistoryHash_continuation
           [msg "system" "S"; msg "user" "U1"; msg "assistant" "A1"]
           (msg "user" " U2 ")); [reflexivity|discriminate|reflexivity].
Defined.

(** X15.  Without [excludeLastUser] the hash sees the system texts and the
    user texts only: a message of any other role can be taken out, and the
    messages can be put in the order of all system messages followed by all
    user messages, without changing the hash. *)
Theorem computeHistoryHash_roles_and_order (messages : list GenericMessage) :
  (forall before m after,
     messages = (before ++ m :: after)%list ->
     roleIs "system" m = false -> roleIs "user" m = false ->
     computeHistoryHash messages false = computeHistoryHash (before ++ after) false)
  /\ computeHistoryHash messages false
     = computeHistoryHash
         (filter (roleIs "system") messages ++ filter (roleIs "user") messages) false.
Proof.
  split.
  - intros before m after -> Hs Hu.
    rewrite !computeHistoryHash_parts. unfold hashOfParts. cbv zeta. cbn [andb].
    change (m :: after) with ([m] ++ after)%list.
    now rewrite !partsFor_app, !partsFor_other, !app_nil_l by assumption.
  - rewrite !computeHistoryHash_parts. unfold hashOfParts. cbv zeta. cbn [andb].
    assert (Hkeep : forall r l, partsFor trimmedText r (filter (roleIs r) l)
                                = partsFor trimmedText r l).
    { intros r l. unfold partsFor. f_equal.
      induction l as [|x l IH]; [reflexivity|]. cbn [filter].
      destruct (roleIs r x) eqn:E; cbn [filter andb]; rewrite ?E; cbn [andb];
        now rewrite IH. }
    assert (Hdrop : forall r r' l, String.eqb r r' = false ->
                      partsFor trimmedText r (filter (roleIs r') l) = []).
    { intros r r' l Hne. unfold partsFor.
      replace (filter _ (filter (roleIs r') l)) with (@nil GenericMessage);
        [reflexivity|].
      symmetry. induction l as [|x l IH]; [reflexivity|]. cbn [filter].
      destruct (roleIs r' x) eqn:E; [|exact IH]. cbn [filter].
      unfold roleIs in E |- *. apply String.eqb_eq in E. rewrite E.
      rewrite String.eqb_sym, Hne. exact IH. }
    rewrite !partsFor_app, !Hkeep.
    rewrite (Hdrop "system" "user") by reflexivity.
    rewrite (Hdrop "user" "system") by reflexivity.
    now rewrite app_nil_r.
Qed.

End HistoryMore.


(* ===================================================================== *)
(** ** The gRPC-Web codec: bodies of several frames                      *)
(* ===================================================================== *)

Module GrpcMore.

Import JsString GrpcWeb GrpcWebProofs.
Local Open Scope Z_scope.

(** *** A frame anywhere in the body *)

Lemma at_app (pre rest : Bytes) (k : nat) :
  at_ (pre ++ rest) (List.length pre + k) = at_ rest k.
Proof.
  unfold at_. rewrite app_nth2 by lia. f_equal. f_equal. lia.
Qed.

Lemma frameLength_app (pre : Bytes) (flag b1 b2 b3 b4 : Byte.byte) (rest : Bytes) :
  frameLength (pre ++ flag :: b1 :: b2 :: b3 :: b4 :: rest) (List.length pre)
  = headerLength b1 b2 b3 b4.
Proof.
  unfold frameLength. rewrite !at_app. unfold headerLength, at_.
  cbn [nth]. reflexivity.
Qed.

(** One turn of the loop on a frame header at [offset = length pre]. *)
Lemma walk_header (p : Platform) (fuel : nat) (pre : Bytes)
    (flag b1 b2 b3 b4 : Byte.byte) (rest : Bytes)
    (ms : list Bytes) (ts : list (string * string)) :
  walk p (S fuel) (pre ++ flag :: b1 :: b2 :: b3 :: b4 :: rest) (List.length pre) ms ts
  = let body := (pre ++ flag :: b1 :: b2 :: b3 :: b4 :: rest)%list in
    let length := headerLength b1 b2 b3 b4 in
    if (length <? 0) || (Z.of_nat (List.length rest) <? length)
    then Walked ms ts
    else
      let payload := firstn (Z.to_nat length) rest in
      let offset := (List.length pre + 5 + Z.to_nat length)%nat in
      if negb (Z.land (byteToZ flag) 128 =? 0) then
        walk p fuel body offset ms (assign ts (parseTrailerBlock p payload))
      else if negb (Z.land (byteToZ flag) 1 =? 0) then
        Unsupported "grpc-web compressed frame is not supported"
      else walk p fuel body offset (ms ++ [payload]) ts.
Proof.
  cbn [walk]. rewrite frameLength_app.
  replace (at_ (pre ++ flag :: b1 :: b2 :: b3 :: b4 :: rest) (List.length pre))
    with (byteToZ flag)
    by (pose proof (at_app pre (flag :: b1 :: b2 :: b3 :: b4 :: rest) 0) as E;
        rewrite Nat.add_0_r in E; rewrite E; reflexivity).
  rewrite length_app. cbn [List.length].
  replace (Z.of_nat (List.length pre) + 5
           <=? Z.of_nat (List.length pre + S (S (S (S (S (List.length rest)))))))
    with true by (symmetry; apply Z.leb_le; lia).
  cbv zeta.
  replace (Z.of_nat (List.length pre + S (S (S (S (S (List.length rest))))))
           <? Z.of_nat (List.length pre + 5) + headerLength b1 b2 b3 b4)
    with (Z.of_nat (List.length rest) <? headerLength b1 b2 b3 b4).
  2:{ destruct (Z.ltb_spec (Z.of_nat (List.length rest)) (headerLength b1 b2 b3 b4));
      symmetry; [apply Z.ltb_lt|apply Z.ltb_ge]; lia. }
  replace (skipn (List.length pre + 5) (pre ++ flag :: b1 :: b2 :: b3 :: b4 :: rest))
    with rest.
  2:{ rewrite skipn_app, skipn_all2 by lia.
      replace (List.length pre + 5 - List.length pre)%nat with 5%nat by lia.
      reflexivity. }
  reflexivity.
Qed.

(** *** A sequence of data frames *)

(** The frames of the payloads, one after the other. *)
Definition framesOf (payloads : list Bytes) : Bytes :=
  flat_map encodeGrpcWebFrame payloads.

Definition small (payload : Bytes) : Prop := Z.of_nat (List.length payload) < 2 ^ 31.

Lemma encodeGrpcWebFrame_length (payload : Bytes) :
  List.length (encodeGrpcWebFrame payload) = (5 + List.length payload)%nat.
Proof. reflexivity. Qed.

Lemma walk_data_frame (p : Platform) (fuel : nat) (pre payload rest : Bytes)
    (ms : list Bytes) (ts : list (string * string)) :
  small payload ->
  walk p (S fuel) (pre ++ encodeGrpcWebFrame payload ++ rest) (List.length pre) ms ts
  = walk p fuel (pre ++ encodeGrpcWebFrame payload ++ rest)
      (List.length (pre ++ encodeGrpcWebFrame payload)) (ms ++ [payload]) ts.
Proof.
  intros Hn. pose proof (encoded_header_length payload Hn) as Hh. cbv zeta in Hh.
  unfold encodeGrpcWebFrame. cbv zeta. cbn [app].
  rewrite walk_header, Hh. cbv zeta.
  replace (Z.of_nat (List.length payload) <? 0) with false
    by (symmetry; apply Z.ltb_ge; lia).
  replace (Z.of_nat (List.length (payload ++ rest)) <? Z.of_nat (List.length payload))
    with false by (symmetry; apply Z.ltb_ge; rewrite length_app; lia).
  cbn [orb]. change (byteToZ Byte.x00) with 0.
  cbn [Z.land Z.eqb negb].
  rewrite Nat2Z.id, firstn_app, firstn_all, Nat.sub_diag, firstn_O, app_nil_r.
  rewrite length_app. cbn [List.length].
  replace (List.length pre + 5 + List.length payload)%nat
    with (List.length pre + S (S (S (S (S (List.length payload))))))%nat by lia.
  reflexivity.
Qed.

Lemma walk_frames (p : Platform) (payloads : list Bytes) :
  Forall small payloads ->
  forall (fuel : nat) (pre rest : Bytes) (ms : list Bytes) (ts : list (string * string)),
    walk p (List.length payloads + fuel) (pre ++ framesOf payloads ++ rest)
      (List.length pre) ms ts
    = walk p fuel (pre ++ framesOf payloads ++ rest)
        (List.length (pre ++ framesOf payloads)) (ms ++ payloads) ts.
Proof.
  induction 1 as [|payload payloads Hn _ IH]; intros fuel pre rest ms ts.
  - cbn [framesOf flat_map List.length Nat.add app]. now rewrite !app_nil_r.
  - cbn [framesOf flat_map List.length Nat.add]. fold (framesOf payloads).
    rewrite <- (app_assoc (encodeGrpcWebFrame payload)).
    rewrite (walk_data_frame p _ pre payload (framesOf payloads ++ rest) ms ts Hn).
    rewrite (app_assoc pre (encodeGrpcWebFrame payload)).
    rewrite IH. rewrite <- !app_assoc. cbn [app]. reflexivity.
Qed.

Lemma framesOf_length (payloads : list Bytes) :
  (List.length payloads <= List.length (framesOf payloads))%nat.
Proof.
  induction payloads as [|x l IH]; [reflexivity|].
  cbn [framesOf flat_map]. fold (framesOf l).
  rewrite length_app, encodeGrpcWebFrame_length. cbn [List.length]. lia.
Qed.

(** No base64 decoding of a body that begins with a flag byte. *)
Lemma binary_body (p : Platform) (flag : Byte.byte) (rest : Bytes) :
  isBase64Char flag = false ->
  maybeDecodeGrpcWebText p (flag :: rest) EmptyString = flag :: rest.
Proof.
  intros Hf. unfold maybeDecodeGrpcWebText.
  change (includes "grpc-web-text" (toLowerCase EmptyString)) with false.
  unfold isProbablyBase64Body. cbn [firstn forallb]. rewrite Hf. reflexivity.
Qed.

Lemma framesOf_body (p : Platform) (payloads : list Bytes) (rest : Bytes) :
  payloads <> [] ->
  maybeDecodeGrpcWebText p (framesOf payloads ++ rest) EmptyString
  = (framesOf payloads ++ rest)%list.
Proof.
  destruct payloads as [|x l]; [congruence|]. intros _.
  cbn [framesOf flat_map]. unfold encodeGrpcWebFrame. cbv zeta. cbn [app].
  now apply binary_body.
Qed.

(** X16.  A body made of the frames of several payloads, each shorter than
    [2 ^ 31] bytes, parses back to these payloads, in order. *)
Theorem parseGrpcWebResponse_frames (p : Platform) (payloads : list Bytes) :
  Forall (fun payload => Z.of_nat (List.length payload) < 2 ^ 31) payloads ->
  parseGrpcWebResponse p (flat_map encodeGrpcWebFrame payloads) None None
  = Returned {| messages := payloads; trailers := [];
                grpc_status := None; grpc_message := EmptyString |}.
Proof.
  intros Hs. fold (framesOf payloads). unfold parseGrpcWebResponse. cbn [readHeader].
  destruct payloads as [|x l] eqn:E; [reflexivity|]. rewrite <- E in *.
  assert (Hne : payloads <> []) by (rewrite E; discriminate).
  pose proof (framesOf_body p payloads [] Hne) as Hb. rewrite app_nil_r in Hb.
  rewrite Hb. cbv zeta.
  pose proof (framesOf_length payloads) as Hl.
  replace (S (List.length (framesOf payloads)))
    with (List.length payloads + S (List.length (framesOf payloads)
                                     - List.length payloads))%nat by lia.
  pose proof (walk_frames p payloads Hs
                (S (List.length (framesOf payloads) - List.length payloads))
                [] [] [] []) as Hw.
  cbn [app List.length] in Hw. rewrite app_nil_r in Hw. rewrite Hw.
  rewrite walk_at_end by reflexivity. reflexivity.
Qed.

Lemma parseGrpcWebResponse_frames_witness :
  parseGrpcWebResponse samplePlatform
    (flat_map encodeGrpcWebFrame [[Byte.x68; Byte.x69]; []; [Byte.x21]]) None None
  = Returned {| messages := [[Byte.x68; Byte.x69]; []; [Byte.x21]]; trailers := [];
                grpc_status := None; grpc_message := EmptyString |}.
Proof.
  apply parseGrpcWebResponse_frames.
  repeat constructor.
Defined.

(** *** Bodies that do not end on a frame boundary *)

Lemma walk_short (p : Platform) (fuel : nat) (body : Bytes) (offset : nat)
    (ms : list Bytes) (ts : list (string * string)) :
  (List.length body < offset + 5)%nat ->
  walk p fuel body offset ms ts = Walked ms ts.
Proof.
  intros H. destruct fuel; cbn [walk];
    replace (Z.of_nat offset + 5 <=? Z.of_nat (List.length body)) with false
      by (symmetry; apply Z.leb_gt; lia);
    reflexivity.
Qed.

(** The loop after the frames of [payloads], with what is left of the
    fuel. *)
Lemma parse_after_frames (p : Platform) (payloads : list Bytes) (rest : Bytes) :
  payloads <> [] -> Forall small payloads ->
  exists fuel,
    parseGrpcWebResponse p (framesOf payloads ++ rest) None None
    = match walk p (S fuel) (framesOf payloads ++ rest)
              (List.length (framesOf payloads)) payloads [] with
      | OutOfFuel => Thrown "out of fuel"
      | Unsupported m => Thrown m
      | Walked ms ts =>
          Returned {| messages := ms; trailers := ts;
                      grpc_status := parseGrpcStatus p (orEmpty (getProp "grpc-status" ts));
                      grpc_message := orEmpty (getProp "grpc-message" ts) |}
      end.
Proof.
  intros Hne Hs.
  exists (List.length (framesOf payloads ++ rest) - List.length payloads)%nat.
  unfold parseGrpcWebResponse. cbn [readHeader].
  rewrite (framesOf_body p payloads rest Hne). cbv zeta.
  pose proof (framesOf_length payloads) as Hl.
  replace (S (List.length (framesOf payloads ++ rest)))
    with (List.length payloads
          + S (List.length (framesOf payloads ++ rest) - List.length payloads))%nat
    by (rewrite length_app; lia).
  pose proof (walk_frames p payloads Hs
                (S (List.length (framesOf payloads ++ rest) - List.length payloads))
                [] rest [] []) as Hw.
  cbn [app List.length] in Hw. rewrite Hw. clear Hw.
  destruct (walk _ _ _ _ _ _) as [ms ts| |]; try reflexivity.
  cbv zeta. cbn [readHeader nonEmpty].
  repeat match goal with |- context [if ?b then _ else _] => destruct b end;
    reflexivity.
Qed.

(** X17.  A last frame that is cut short, in its header or in its payload,
    is dropped without an error: the messages before it are returned. *)
Theorem parseGrpcWebResponse_truncated_frame
    (p : Platform) (payloads : list Bytes) (cut : Bytes) (k : nat) :
  payloads <> [] ->
  Forall (fun payload => Z.of_nat (List.length payload) < 2 ^ 31) payloads ->
  Z.of_nat (List.length cut) < 2 ^ 31 ->
  (k < 5 + List.length cut)%nat ->
  parseGrpcWebResponse p
    (flat_map encodeGrpcWebFrame payloads ++ firstn k (encodeGrpcWebFrame cut))
    None None
  = Returned {| messages := payloads; trailers := [];
                grpc_status := None; grpc_message := EmptyString |}.
Proof.
  intros Hne Hs Hc Hk. fold (framesOf payloads).
  destruct (parse_after_frames p payloads (firstn k (encodeGrpcWebFrame cut)) Hne Hs)
    as [fuel ->].
  assert (Hshort : forall tail, (List.length tail < 5)%nat ->
            walk p (S fuel) (framesOf payloads ++ tail)
              (List.length (framesOf payloads)) payloads []
            = Walked payloads []).
  { intros tail Ht. apply walk_short. rewrite length_app. lia. }
  pose proof (encoded_header_length cut Hc) as Hh. cbv zeta in Hh.
  unfold encodeGrpcWebFrame. cbv zeta.
  destruct k as [|[|[|[|[|j]]]]];
    try (cbn [firstn]; rewrite Hshort by (cbn [List.length]; lia); reflexivity).
  cbn [firstn]. rewrite walk_header, Hh. cbv zeta.
  replace (Z.of_nat (List.length (firstn j cut)) <? Z.of_nat (List.length cut))
    with true by (symmetry; apply Z.ltb_lt; rewrite length_firstn; lia).
  rewrite orb_true_r. reflexivity.
Qed.

Lemma parseGrpcWebResponse_truncated_frame_witness :
  parseGrpcWebResponse samplePlatform
    (flat_map encodeGrpcWebFrame [[Byte.x68; Byte.x69]]
     ++ firstn 6 (encodeGrpcWebFrame [Byte.x21; Byte.x21]))
    None None
  = Returned {| messages := [[Byte.x68; Byte.x69]]; trailers := [];
                grpc_status := None; grpc_message := EmptyString |}.
Proof.
  apply (parseGrpcWebResponse_truncated_frame samplePlatform
           [[Byte.x68; Byte.x69]] [Byte.x21; Byte.x21] 6);
    [discriminate|repeat constructor|reflexivity|cbn; lia].
Defined.

(** *** Compressed frames *)

(** The frame of [payload] with the compression flag [0x01]. *)
Definition compressedFrame (payload : Bytes) : Bytes :=
  Byte.x01 :: tl (encodeGrpcWebFrame payload).

(** X18.  A complete frame with the compression flag makes
    [parseGrpcWebResponse] throw, whatever follows it; the messages of the
    frames before it are not returned. *)
Theorem parseGrpcWebResponse_compressed_frame
    (p : Platform) (payloads : list Bytes) (payload rest : Bytes) :
  Forall (fun payload => Z.of_nat (List.length payload) < 2 ^ 31) payloads ->
  Z.of_nat (List.length payload) < 2 ^ 31 ->
  parseGrpcWebResponse p
    (flat_map encodeGrpcWebFrame payloads ++ compressedFrame payload ++ rest)
    None None
  = Thrown "grpc-web compressed frame is not supported".
Proof.
  intros Hs Hc. fold (framesOf payloads).
  pose proof (encoded_header_length payload Hc) as Hh. cbv zeta in Hh.
  assert (Hstep : forall fuel pre ms ts,
            walk p (S fuel) (pre ++ compressedFrame payload ++ rest)
              (List.length pre) ms ts
            = Unsupported "grpc-web compressed frame is not supported").
  { intros fuel pre ms ts. unfold compressedFrame, encodeGrpcWebFrame. cbv zeta.
    cbn [tl app]. rewrite walk_header, Hh. cbv zeta.
    replace (Z.of_nat (List.length payload) <? 0) with false
      by (symmetry; apply Z.ltb_ge; lia).
    replace (Z.of_nat (List.length (payload ++ rest)) <? Z.of_nat (List.length payload))
      with false by (symmetry; apply Z.ltb_ge; rewrite length_app; lia).
    reflexivity. }
  destruct payloads as [|x l] eqn:E.
  - cbn [framesOf flat_map app]. unfold parseGrpcWebResponse. cbn [readHeader].
    assert (Hb : maybeDecodeGrpcWebText p (compressedFrame payload ++ rest) EmptyString
                 = (compressedFrame payload ++ rest)%list)
      by (now apply binary_body).
    rewrite Hb. cbv zeta. now rewrite (Hstep _ [] [] []).
  - rewrite <- E in *. assert (Hne : payloads <> []) by (rewrite E; discriminate).
    destruct (parse_after_frames p payloads (compressedFrame payload ++ rest) Hne Hs)
      as [fuel ->].
    now rewrite Hstep.
Qed.

Lemma parseGrpcWebResponse_compressed_frame_witness :
  parseGrpcWebResponse samplePlatform
    (flat_map encodeGrpcWebFrame [[Byte.x68; Byte.x69]]
     ++ compressedFrame [Byte.x21] ++ [Byte.x00])
    None None
  = Thrown "grpc-web compressed frame is not supported".
Proof.
  apply (parseGrpcWebResponse_compressed_frame samplePlatform
           [[Byte.x68; Byte.x69]] [Byte.x21] [Byte.x00]);
    [repeat constructor|reflexivity].
Defined.

(** *** Status and message: trailers, then headers *)

Lemma getProp_setProp_same (key value : string) (o : list (string * string)) :
  getProp key (setProp key value o) = Some value.
Proof.
  induction o as [|[k v] o IH]; cbn [setProp getProp].
  - now rewrite String.eqb_refl.
  - destruct (String.eqb k key) eqn:E; cbn [getProp]; rewrite E; [reflexivity|exact IH].
Qed.

Lemma getProp_setProp_other (key key' value : string) (o : list (string * string)) :
  key <> key' -> getProp key (setProp key' value o) = getProp key o.
Proof.
  intros Hne. induction o as [|[k v] o IH]; cbn [setProp getProp].
  - destruct (String.eqb_spec key' key); [congruence|reflexivity].
  - destruct (String.eqb_spec k key') as [->|E]; cbn [getProp].
    + destruct (String.eqb_spec key' key); [congruence|reflexivity].
    + destruct (String.eqb k key); [reflexivity|exact IH].
Qed.

Lemma decodeGrpcMessage_empty (p : Platform) : decodeGrpcMessage p "" = EmptyString.
Proof. reflexivity. Qed.

(** The last step of [parseGrpcWebResponse], from the trailers the loop
    collected. *)
Definition statusOf (p : Platform) (ts : list (string * string))
    (headers : option (list (string * string))) : option Z :=
  if truthy (getProp "grpc-status" ts)
  then parseGrpcStatus p (orEmpty (getProp "grpc-status" ts))
  else parseGrpcStatus p (readHeader headers "grpc-status").

Definition messageOf (p : Platform) (ts : list (string * string))
    (headers : option (list (string * string))) : string :=
  if truthy (getProp "grpc-message" ts)
  then orEmpty (getProp "grpc-message" ts)
  else decodeGrpcMessage p (readHeader headers "grpc-message").

Lemma nonEmpty_false (s : string) : nonEmpty s = false -> s = EmptyString.
Proof. destruct s; [reflexivity|discriminate]. Qed.

Lemma truthy_false (x : option string) : truthy x = false -> orEmpty x = EmptyString.
Proof. destruct x as [s|]; [apply nonEmpty_false|reflexivity]. Qed.

Lemma parse_walked (p : Platform) (body : Bytes)
    (headers : option (list (string * string))) (contentType : option string)
    (ms : list Bytes) (ts : list (string * string)) :
  let ct := match contentType with
            | Some c => c
            | None => readHeader headers "content-type"
            end in
  let decoded := maybeDecodeGrpcWebText p body ct in
  walk p (S (List.length decoded)) decoded 0 [] [] = Walked ms ts ->
  exists r,
    parseGrpcWebResponse p body headers contentType = Returned r
    /\ messages r = ms
    /\ grpc_status r = statusOf p ts headers
    /\ grpc_message r = messageOf p ts headers
    /\ (forall key, key <> "grpc-status"%string -> key <> "grpc-message"%string ->
                    getProp key (trailers r) = getProp key ts).
Proof.
  cbv zeta. intros Hw. unfold parseGrpcWebResponse. cbv zeta. rewrite Hw.
  eexists. split; [reflexivity|]. cbn [messages grpc_status grpc_message trailers].
  unfold statusOf, messageOf.
  set (hs := readHeader headers "grpc-status").
  set (hm := readHeader headers "grpc-message").
  assert (Hfinish : forall (A B C : Prop) (D : string -> Prop),
            A -> B -> C -> (forall key, D key) -> A /\ B /\ C /\ forall key, D key)
    by (intros; tauto).
  destruct (truthy (getProp "grpc-status" ts)) eqn:Es;
    destruct (nonEmpty hs) eqn:Ehs;
    destruct (truthy (getProp "grpc-message" ts)) eqn:Em;
    destruct (nonEmpty hm) eqn:Ehm;
    repeat first
      [ rewrite getProp_setProp_same
      | rewrite (getProp_setProp_other "grpc-message" "grpc-status") by discriminate
      | rewrite (getProp_setProp_other "grpc-status" "grpc-message") by discriminate
      | rewrite Es | rewrite Em
      | progress cbn [negb orEmpty] ];
    try rewrite (truthy_false _ Es); try rewrite (truthy_false _ Em);
    try rewrite (nonEmpty_false _ Ehs); try rewrite (nonEmpty_false _ Ehm);
    (apply Hfinish; try reflexivity;
     intros key H1 H2; rewrite ?getProp_setProp_other by assumption; reflexivity).
Qed.

(** X19.  With an empty body the status and the message are those of the
    headers: [grpc_status] is the integer of the trimmed [grpc-status]
    header ([null] when it is absent, empty or no integer), [grpc_message]
    the decoded [grpc-message] header, and there is no message. *)
Theorem parseGrpcWebResponse_empty_body
    (p : Platform) (headers : option (list (string * string)))
    (contentType : option string) :
  textDecode p [] = EmptyString ->
  exists r,
    parseGrpcWebResponse p [] headers contentType = Returned r
    /\ messages r = []
    /\ grpc_status r = parseGrpcStatus p (readHeader headers "grpc-status")
    /\ grpc_message r = decodeGrpcMessage p (readHeader headers "grpc-message").
Proof.
  intros Hd.
  assert (Hbody : forall ct, maybeDecodeGrpcWebText p [] ct = []).
  { intros ct. unfold maybeDecodeGrpcWebText. cbv zeta. rewrite Hd.
    cbn [stripWhiteSpace nonEmpty negb isProbablyBase64Body andb].
    now destruct (negb _ && _). }
  destruct (parse_walked p [] headers contentType [] []) as (r & Hr & Hm & Hs & Hg & _).
  { cbv zeta. now rewrite Hbody. }
  exists r. repeat split; assumption.
Qed.

(** A platform that decodes bytes as Latin-1 text and reads the integers
    [0] to [16], the gRPC status codes. *)
Definition statusCodes : list (string * Z) :=
  [ ("0", 0); ("1", 1); ("2", 2); ("3", 3); ("4", 4); ("5", 5); ("6", 6);
    ("7", 7); ("8", 8); ("9", 9); ("10", 10); ("11", 11); ("12", 12);
    ("13", 13); ("14", 14); ("15", 15); ("16", 16) ]%string.

Fixpoint lookupCode (s : string) (codes : list (string * Z)) : option Z :=
  match codes with
  | [] => None
  | (k, v) :: rest => if String.eqb k s then Some v else lookupCode s rest
  end.

Definition latin1Platform : Platform :=
  {| textDecode := string_of_list_byte;
     atob := fun _ => None;
     decodeURIComponent := fun s => Some s;
     integerOf := fun s => lookupCode s statusCodes |}.

Lemma parseGrpcWebResponse_empty_body_witness :
  exists r,
    parseGrpcWebResponse latin1Platform []
      (Some [("Grpc-Status", " 7 "); ("grpc-message", "denied")]%string) None
    = Returned r
    /\ messages r = []
    /\ grpc_status r = Some 7
    /\ grpc_message r = "denied"%string.
Proof.
  destruct (parseGrpcWebResponse_empty_body latin1Platform
              (Some [("Grpc-Status", " 7 "); ("grpc-message", "denied")]%string) None
              eq_refl) as (r & Hr & Hm & Hs & Hg).
  exists r. repeat split; assumption.
Defined.

(** *** A trailer frame *)

(** The frame of [text] with the trailer flag [0x80]. *)
Definition trailerFrame (text : Bytes) : Bytes :=
  Byte.x80 :: tl (encodeGrpcWebFrame text).

Definition uniqueKeys (o : list (string * string)) : Prop := NoDup (map fst o).

Lemma setProp_keys (key value : string) (o : list (string * string)) :
  map fst (setProp key value o)
  = if existsb (String.eqb key) (map fst o) then map fst o
    else (map fst o ++ [key])%list.
Proof.
  induction o as [|[k v] o IH]; cbn [setProp map fst existsb]; [reflexivity|].
  rewrite (String.eqb_sym key k).
  destruct (String.eqb k key); cbn [map fst orb]; [reflexivity|].
  rewrite IH. now destruct (existsb _ _).
Qed.

Lemma setProp_unique (key value : string) (o : list (string * string)) :
  uniqueKeys o -> uniqueKeys (setProp key value o).
Proof.
  unfold uniqueKeys. intros Hu. rewrite setProp_keys.
  destruct (existsb _ _) eqn:E; [exact Hu|].
  apply NoDup_rev in Hu. rewrite <- rev_involutive. apply NoDup_rev.
  rewrite rev_app_distr. cbn [rev app]. constructor; [|exact Hu].
  rewrite <- in_rev. intros Hin.
  assert (existsb (String.eqb key) (map fst o) = true).
  { apply existsb_exists. exists key. split; [exact Hin|apply String.eqb_refl]. }
  congruence.
Qed.

Lemma parseTrailerBlock_unique (p : Platform) (payload : Bytes) :
  uniqueKeys (parseTrailerBlock p payload).
Proof.
  unfold parseTrailerBlock.
  assert (H : forall lines o, uniqueKeys o ->
                uniqueKeys (fold_left (parseTrailerLine p) lines o)).
  { induction lines as [|l lines IH]; intros o Ho; [exact Ho|]. cbn [fold_left].
    apply IH. unfold parseTrailerLine. destruct (indexOf ":" l); [|exact Ho].
    cbv zeta. destruct (negb _); [exact Ho|]. now apply setProp_unique. }
  apply H. constructor.
Qed.

Lemma setProp_fresh (key value : string) (o : list (string * string)) :
  ~ In key (map fst o) -> setProp key value o = (o ++ [(key, value)])%list.
Proof.
  induction o as [|[k v] o IH]; cbn [setProp map fst In app]; intros H; [reflexivity|].
  destruct (String.eqb_spec k key) as [E|E]; [tauto|].
  rewrite IH by tauto. reflexivity.
Qed.

Lemma assign_unique (source : list (string * string)) :
  uniqueKeys source ->
  forall target,
    (forall k, In k (map fst target) -> ~ In k (map fst source)) ->
    assign target source = (target ++ source)%list.
Proof.
  unfold assign, uniqueKeys.
  induction source as [|[k v] src IH]; intros Hu target Hd; cbn [fold_left].
  - now rewrite app_nil_r.
  - cbn [map fst] in Hu. inversion Hu as [|? ? Hk Hu']; subst. cbn [fst snd].
    rewrite setProp_fresh.
    + rewrite IH; [now rewrite <- app_assoc|exact Hu'|].
      intros k' Hk'. rewrite map_app, in_app_iff in Hk'. cbn [map fst In] in Hk'.
      destruct Hk' as [Hk'|[<-|[]]]; [|exact Hk].
      intros Hin. apply (Hd k' Hk'). now right.
    + intros Hin. apply (Hd k Hin). now left.
Qed.

Lemma binary_body_typed (p : Platform) (flag : Byte.byte) (rest : Bytes)
    (ct : string) :
  includes "grpc-web-text" (toLowerCase ct) = false ->
  isBase64Char flag = false ->
  maybeDecodeGrpcWebText p (flag :: rest) ct = flag :: rest.
Proof.
  intros Hct Hf. unfold maybeDecodeGrpcWebText. cbv zeta. rewrite Hct.
  unfold isProbablyBase64Body. cbn [firstn forallb]. rewrite Hf. reflexivity.
Qed.

(** X20.  When the frames of the payloads are followed by a trailer frame,
    the payloads are the messages, and the status and the message are those
    of the trailer block; a header is used only when the block has no such
    entry or an empty one. *)
Theorem parseGrpcWebResponse_trailer_frame
    (p : Platform) (payloads : list Bytes) (text : Bytes)
    (headers : option (list (string * string))) (ct : string) :
  Forall (fun payload => Z.of_nat (List.length payload) < 2 ^ 31) payloads ->
  Z.of_nat (List.length text) < 2 ^ 31 ->
  includes "grpc-web-text" (toLowerCase ct) = false ->
  let block := parseTrailerBlock p text in
  exists r,
    parseGrpcWebResponse p
      (flat_map encodeGrpcWebFrame payloads ++ trailerFrame text) headers (Some ct)
    = Returned r
    /\ messages r = payloads
    /\ grpc_status r
       = (if truthy (getProp "grpc-status" block)
          then parseGrpcStatus p (orEmpty (getProp "grpc-status" block))
          else parseGrpcStatus p (readHeader headers "grpc-status"))
    /\ grpc_message r
       = (if truthy (getProp "grpc-message" block)
          then orEmpty (getProp "grpc-message" block)
          else decodeGrpcMessage p (readHeader headers "grpc-message")).
Proof.
  intros Hs Ht Hct block. fold (framesOf payloads).
  set (body := (framesOf payloads ++ trailerFrame text)%list).
  assert (Hbody : maybeDecodeGrpcWebText p body ct = body).
  { unfold body. destruct payloads as [|x l].
    - cbn [framesOf flat_map app]. now apply binary_body_typed.
    - cbn [framesOf flat_map]. unfold encodeGrpcWebFrame at 1. cbv zeta. cbn [app].
      now apply binary_body_typed. }
  assert (Hwalk : walk p (S (List.length body)) body 0 [] [] = Walked payloads block).
  { pose proof (framesOf_length payloads) as Hl.
    assert (Hlen : List.length body
                   = (List.length (framesOf payloads) + (5 + List.length text))%nat).
    { unfold body. rewrite length_app. reflexivity. }
    replace (S (List.length body))
      with (List.length payloads + S (S (List.length body - List.length payloads - 1)))%nat
      by lia.
    pose proof (walk_frames p payloads Hs
                  (S (S (List.length body - List.length payloads - 1)))
                  [] (trailerFrame text) [] []) as Hw.
    cbn [app List.length] in Hw. fold body in Hw. rewrite Hw. clear Hw.
    pose proof (encoded_header_length text Ht) as Hh. cbv zeta in Hh.
    unfold body, trailerFrame, encodeGrpcWebFrame. cbv zeta. cbn [tl].
    rewrite walk_header, Hh. cbv zeta.
    replace (Z.of_nat (List.length text) <? 0) with false
      by (symmetry; apply Z.ltb_ge; lia).
    rewrite Z.ltb_irrefl. cbn [orb].
    change (negb (Z.land (byteToZ Byte.x80) 128 =? 0)) with true. cbv iota.
    rewrite Nat2Z.id, firstn_all.
    rewrite walk_at_end by (rewrite length_app; cbn [List.length]; lia).
    rewrite assign_unique; [reflexivity|apply parseTrailerBlock_unique|].
    intros k []. }
  destruct (parse_walked p body headers (Some ct) payloads block)
    as (r & Hr & Hm & Hst & Hg & _).
  { cbv zeta. now rewrite Hbody. }
  exists r. repeat split; assumption.
Qed.

Definition bytesOf (s : string) : Bytes := list_byte_of_string s.

Lemma parseGrpcWebResponse_trailer_frame_witness :
  exists r,
    parseGrpcWebResponse latin1Platform
      (flat_map encodeGrpcWebFrame [[Byte.x68; Byte.x69]]
       ++ trailerFrame (bytesOf ("Grpc-Status: 7" ++ String CR nl ++ "grpc-message:denied")))
      (Some [("grpc-status", "0")]%string) (Some "application/grpc-web+proto"%string)
    = Returned r
    /\ messages r = [[Byte.x68; Byte.x69]]
    /\ grpc_status r = Some 7
    /\ grpc_message r = "denied"%string.
Proof.
  destruct (parseGrpcWebResponse_trailer_frame latin1Platform
              [[Byte.x68; Byte.x69]]
              (bytesOf ("Grpc-Status: 7" ++ String CR nl ++ "grpc-message:denied"))
              (Some [("grpc-status", "0")]%string) "application/grpc-web+proto")
    as (r & Hr & Hm & Hs & Hg);
    [repeat constructor|reflexivity|reflexivity|].
  exists r. repeat split; assumption.
Defined.

(** *** The loop ends *)

(** Each turn moves [offset] on by five or more, so the loop is over
    before as many turns as the body has bytes. *)
Lemma walk_ends (p : Platform) (fuel : nat) (body : Bytes) :
  forall (offset : nat) (ms : list Bytes) (ts : list (string * string)),
    (List.length body < offset + fuel)%nat ->
    (exists ms' ts', walk p fuel body offset ms ts = Walked ms' ts')
    \/ walk p fuel body offset ms ts
       = Unsupported "grpc-web compressed frame is not supported".
Proof.
  induction fuel as [|fuel IH]; intros offset ms ts H.
  - left. exists ms, ts. cbn [walk].
    replace (Z.of_nat offset + 5 <=? Z.of_nat (List.length body)) with false
      by (symmetry; apply Z.leb_gt; lia).
    reflexivity.
  - cbn [walk].
    destruct (Z.of_nat offset + 5 <=? Z.of_nat (List.length body));
      [|left; exists ms, ts; reflexivity].
    cbv zeta.
    destruct ((frameLength body offset <? 0)
              || (Z.of_nat (List.length body)
                  <? Z.of_nat (offset + 5) + frameLength body offset));
      [left; exists ms, ts; reflexivity|].
    destruct (negb (Z.land (at_ body offset) 128 =? 0)); [apply IH; lia|].
    destruct (negb (Z.land (at_ body offset) 1 =? 0)); [right; reflexivity|].
    apply IH. lia.
Qed.

(** X21.  [parseGrpcWebResponse] throws on nothing but a compressed data
    frame: on every body, headers and content type it returns a result or
    throws that one error, however short, cut or ill-formed the body is. *)
Theorem parseGrpcWebResponse_only_error
    (p : Platform) (body : Bytes) (headers : option (list (string * string)))
    (contentType : option string) :
  (exists r, parseGrpcWebResponse p body headers contentType = Returned r)
  \/ parseGrpcWebResponse p body headers contentType
     = Thrown "grpc-web compressed frame is not supported".
Proof.
  unfold parseGrpcWebResponse. cbv zeta.
  match goal with
  | |- context [walk p (S (List.length ?b)) ?b 0 [] []] =>
      destruct (walk_ends p (S (List.length b)) b 0 [] []) as [(ms & ts & ->)| ->];
        [lia| |]
  end.
  - left. eexists. reflexivity.
  - right. reflexivity.
Qed.

End GrpcMore.


(* ===================================================================== *)
(** ** The tool-usage card parser: its buffer                            *)
(* ===================================================================== *)

Module CardMore.

Import JsString Json ToolUsageCard ToolUsageCardProofs.
Local Open Scope string_scope.

(** *** What the parser holds back, and what it lets through *)

Lemma sliceTo_sliceFrom (n : nat) (s : string) : sliceTo n s ++ sliceFrom n s = s.
Proof.
  revert s. induction n as [|n IH]; intros [|c r]; cbn; try reflexivity.
  now rewrite IH.
Qed.

Lemma length_sliceFrom (n : nat) (s : string) :
  String.length (sliceFrom n s) = (String.length s - n)%nat.
Proof.
  revert s. induction n as [|n IH]; intros [|c r]; cbn; try reflexivity; apply IH.
Qed.

Lemma toLowerCase_sliceFrom (n : nat) (s : string) :
  toLowerCase (sliceFrom n s) = sliceFrom n (toLowerCase s).
Proof.
  revert s. induction n as [|n IH]; intros [|c r]; cbn; try reflexivity. apply IH.
Qed.

Lemma length_toLowerCase (s : string) : String.length (toLowerCase s) = String.length s.
Proof. induction s as [|c r IH]; cbn; [reflexivity|now rewrite IH]. Qed.

Lemma string_append_assoc (a b c : string) : (a ++ b) ++ c = a ++ (b ++ c).
Proof. induction a as [|x a IH]; cbn; [reflexivity|now rewrite IH]. Qed.

Lemma join_cons (p : string) (rest : list string) : join "" (p :: rest) = p ++ join "" rest.
Proof. destruct rest; cbn [join append]; [now rewrite append_empty|reflexivity]. Qed.

Lemma join_snoc (parts : list string) (p : string) :
  join "" (parts ++ [p]) = join "" parts ++ p.
Proof.
  induction parts as [|q parts IH]; [reflexivity|].
  change ((q :: parts) ++ [p])%list with (q :: (parts ++ [p]))%list.
  now rewrite !join_cons, IH, string_append_assoc.
Qed.

(** A needle that is not in a string is not in its tails. *)
Lemma indexOf_tail (needle : string) (n : nat) (s : string) :
  indexOf needle s = None -> indexOf needle (sliceFrom n s) = None.
Proof.
  revert s. induction n as [|n IH]; intros s H; [destruct s; exact H|].
  destruct s as [|c r]; [exact H|]. cbn [sliceFrom]. apply IH.
  cbn [indexOf] in H. destruct (startsWith needle (String c r)); [discriminate H|].
  destruct (indexOf needle r); [discriminate H|reflexivity].
Qed.

(** [lastIndexOf] points at an occurrence. *)
Lemma lastIndexOf_startsWith (needle s : string) (i : nat) :
  lastIndexOf needle s = Some i -> startsWith needle (sliceFrom i s) = true.
Proof.
  revert i. induction s as [|c r IH]; intros i H; cbn [lastIndexOf] in H.
  - destruct (startsWith needle "") eqn:E; [|discriminate H].
    injection H as <-. exact E.
  - destruct (lastIndexOf needle r) as [j|].
    + injection H as <-. cbn [sliceFrom]. now apply IH.
    + destruct (startsWith needle (String c r)) eqn:E; [|discriminate H].
      injection H as <-. exact E.
Qed.

Lemma findCardStart_tail (n : nat) (buffer : string) :
  findCardStart buffer = None -> findCardStart (sliceFrom n buffer) = None.
Proof.
  unfold findCardStart. cbv zeta. rewrite toLowerCase_sliceFrom. intros H.
  destruct (indexOf TOOL_USAGE_OPEN (toLowerCase buffer)) as [u|] eqn:Eu;
    destruct (indexOf TOOL_NAME_OPEN (toLowerCase buffer)) as [m|] eqn:Em;
    try discriminate H.
  now rewrite (indexOf_tail _ n _ Eu), (indexOf_tail _ n _ Em).
Qed.

(** A fragment is a non-empty head of the buffer. *)
Lemma extractCardFragment_head (buffer fragment : string) (end_ : nat) :
  extractCardFragment buffer = Some (fragment, end_) ->
  fragment = sliceTo end_ buffer /\ (0 < end_)%nat.
Proof.
  unfold extractCardFragment. cbv zeta. intros H.
  destruct (startsWith TOOL_USAGE_OPEN (toLowerCase buffer)).
  - destruct (indexOf TOOL_USAGE_CLOSE (toLowerCase buffer)) as [i|]; [|discriminate H].
    injection H as <- <-. split; [reflexivity|]. cbn [TOOL_USAGE_CLOSE String.length]. lia.
  - destruct (startsWith TOOL_NAME_OPEN (toLowerCase buffer)); [|discriminate H].
    destruct (indexOf TOOL_NAME_CLOSE (toLowerCase buffer)) as [i|]; [|discriminate H].
    destruct (indexOfFrom TOOL_ARGS_CLOSE (toLowerCase buffer) _) as [j|];
      [|discriminate H].
    injection H as <- <-. split; [reflexivity|].
    match goal with |- context [if ?b then _ else _] => destruct b end;
      cbn [TOOL_ARGS_CLOSE String.length]; lia.
Qed.

(** What [consume] may leave in the buffer: nothing, a card that is not
    complete yet at its very start, or at most 64 characters that begin
    with [<xai:] and hold no start of a card. *)
Definition heldBack (buffer : string) : Prop :=
  buffer = ""
  \/ (findCardStart buffer = Some 0%nat /\ extractCardFragment buffer = None)
  \/ (findCardStart buffer = None
      /\ startsWith PARTIAL_MARKER (toLowerCase buffer) = true
      /\ (String.length buffer <= 64)%nat).

Section Loop.

Variable JSON_parse : string -> option value.
Variable opts : ToolUsageCardConsumeOptions.
Variable fallback : string.

Lemma consumeLoop_spec (fuel : nat) :
  forall (buffer : string) (outText outLines : list string)
         (r : ToolUsageCardConsumeResult),
    (String.length buffer < fuel)%nat ->
    result (consumeLoop JSON_parse fuel opts fallback buffer outText outLines)
    = Returned r ->
    heldBack (parserBuffer (consumeLoop JSON_parse fuel opts fallback buffer
                              outText outLines))
    /\ (exists more, lines r = (outLines ++ more)%list)
    /\ (emitLines opts = true -> lines r = outLines ->
        text r ++ parserBuffer (consumeLoop JSON_parse fuel opts fallback buffer
                                  outText outLines)
        = join "" outText ++ buffer).
Proof.
  induction fuel as [|fuel IH]; intros buffer outText outLines r Hfuel H; [lia|].
  cbn [consumeLoop] in *.
  destruct buffer as [|c b].
  { cbn [nonEmpty negb result parserBuffer] in *. injection H as <-.
    cbn [text lines]. split; [left; reflexivity|].
    split; [exists []; now rewrite app_nil_r|]. intros _ _. reflexivity. }
  cbn [nonEmpty negb] in *. set (buffer := String c b) in *.
  assert (Hne : (0 < String.length buffer)%nat) by (cbn; lia).
  destruct (findCardStart buffer) as [[|start]|] eqn:Estart.
  - (* a card starts the buffer *)
    destruct (extractCardFragment buffer) as [[fragment end_]|] eqn:Efrag.
    + destruct (extractCardFragment_head _ _ _ Efrag) as [-> Hend].
      assert (Hshort : (String.length (sliceFrom end_ buffer) < fuel)%nat)
        by (rewrite length_sliceFrom; lia).
      destruct (parseCard JSON_parse (sliceTo end_ buffer) fallback) as [[card|]|m].
      * destruct (IH _ _ _ r Hshort H) as (Hheld & [more Hmore] & _).
        split; [exact Hheld|]. split.
        -- destruct (emitLines opts); [|exists more; exact Hmore].
           exists ((formatCardLine card :: more))%list.
           now rewrite Hmore, <- app_assoc.
        -- intros Hemit Hlines. rewrite Hemit in Hmore. rewrite Hlines in Hmore.
           apply (f_equal (@List.length string)) in Hmore.
           rewrite !length_app in Hmore. cbn [List.length] in Hmore. lia.
      * destruct (IH _ _ _ r Hshort H) as (Hheld & Hmore & Hkeep).
        split; [exact Hheld|]. split; [exact Hmore|].
        intros Hemit Hlines. rewrite (Hkeep Hemit Hlines), join_snoc, string_append_assoc.
        now rewrite sliceTo_sliceFrom.
      * discriminate H.
    + cbn [result parserBuffer] in *. injection H as <-. cbn [text lines].
      split; [right; left; split; assumption|].
      split; [exists []; now rewrite app_nil_r|]. intros _ _. reflexivity.
  - (* text before the card *)
    assert (Hshort : (String.length (sliceFrom (S start) buffer) < fuel)%nat)
      by (rewrite length_sliceFrom; lia).
    destruct (IH _ _ _ r Hshort H) as (Hheld & Hmore & Hkeep).
    split; [exact Hheld|]. split; [exact Hmore|].
    intros Hemit Hlines. rewrite (Hkeep Hemit Hlines), join_snoc, string_append_assoc.
    now rewrite sliceTo_sliceFrom.
  - (* no card in sight *)
    unfold findPartialStart in *. cbv zeta in *.
    destruct (lastIndexOf PARTIAL_MARKER (toLowerCase buffer)) as [idx|] eqn:Elast.
    + destruct (64 <? String.length (toLowerCase buffer) - idx)%nat eqn:Efar.
      * cbn [result parserBuffer] in *. injection H as <-. cbn [text lines].
        split; [left; reflexivity|]. split; [exists []; now rewrite app_nil_r|].
        intros _ _. now rewrite join_snoc, append_empty.
      * apply Nat.ltb_ge in Efar. rewrite length_toLowerCase in Efar.
        pose proof (lastIndexOf_startsWith _ _ _ Elast) as Hmark.
        destruct idx as [|idx]; cbn [result parserBuffer] in *; injection H as <-;
          cbn [text lines].
        -- split.
           { right; right. split; [exact Estart|]. split; [exact Hmark|lia]. }
           split; [exists []; now rewrite app_nil_r|]. intros _ _. reflexivity.
        -- split.
           { right; right. split; [now apply findCardStart_tail|].
             rewrite toLowerCase_sliceFrom, length_sliceFrom.
             split; [exact Hmark|lia]. }
           split; [exists []; now rewrite app_nil_r|]. intros _ _.
           change (String c (sliceTo idx b)) with (sliceTo (S idx) buffer).
           now rewrite join_snoc, string_append_assoc, sliceTo_sliceFrom.
    + cbn [result parserBuffer] in *. injection H as <-. cbn [text lines].
      split; [left; reflexivity|]. split; [exists []; now rewrite app_nil_r|].
      intros _ _. now rewrite join_snoc, append_empty.
Qed.

End Loop.

Lemma consume_spec (JSON_parse : string -> option value) (buffer input : string)
    (opts : ToolUsageCardConsumeOptions) (r : ToolUsageCardConsumeResult) :
  result (consume JSON_parse buffer input opts) = Returned r ->
  heldBack (parserBuffer (consume JSON_parse buffer input opts))
  /\ (emitLines opts = true -> lines r = [] ->
      text r ++ parserBuffer (consume JSON_parse buffer input opts) = buffer ++ input).
Proof.
  unfold consume. cbv zeta. intros H.
  assert (E : (if nonEmpty input then buffer ++ input else buffer) = buffer ++ input)
    by (destruct input; [now rewrite append_empty|reflexivity]).
  rewrite E in *.
  destruct (consumeLoop_spec JSON_parse opts _ _ _ [] [] r (Nat.lt_succ_diag_r _) H)
    as (Hheld & _ & Hkeep).
  split; [exact Hheld|]. intros Hemit Hlines. apply (Hkeep Hemit Hlines).
Qed.

(** X22.  On text of code units below 256, which is what a [string] holds
    here and where [toLowerCase] keeps every character at its index:
    whenever [consume] returns, what it keeps in the parser's buffer is
    nothing, or a card that starts the buffer and is not complete yet, or at
    most 64 characters that begin with [<xai:] and hold no start of a card.
    The loop ends on every such buffer.  (Nothing is said of text with
    U+0130, which [toLowerCase] makes longer, so that the indices the parser
    takes in the lower-cased buffer are no longer those of the buffer.) *)
Theorem consume_holds_back
    (JSON_parse : string -> option value) (buffer input : string)
    (opts : ToolUsageCardConsumeOptions) (r : ToolUsageCardConsumeResult) :
  result (consume JSON_parse buffer input opts) = Returned r ->
  heldBack (parserBuffer (consume JSON_parse buffer input opts)).
Proof. intros H. apply (consume_spec _ _ _ _ _ H). Qed.

Lemma consume_holds_back_witness :
  heldBack (parserBuffer (consume argsJson "" "see <xai:tool_usage_card><xai:tool_na"
                            withLines)).
Proof.
  apply (consume_holds_back argsJson "" "see <xai:tool_usage_card><xai:tool_na" withLines
           {| text := "see "; lines := [] |}).
  vm_compute. reflexivity.
Defined.

Example held_back_sample :
  consume argsJson "" "see <xai:tool_usage_card><xai:tool_na" withLines
  = {| result := Returned {| text := "see "; lines := [] |};
       parserBuffer := "<xai:tool_usage_card><xai:tool_na" |}
  /\ consume argsJson "" "1 < 2, <xa" withLines
     = {| result := Returned {| text := "1 < 2, <xa"; lines := [] |};
          parserBuffer := "" |}
  /\ consume argsJson "" "wait <XAI:" withLines
     = {| result := Returned {| text := "wait "; lines := [] |};
          parserBuffer := "<XAI:" |}.
Proof. repeat split; vm_compute; reflexivity. Qed.

(** X23.  With [emitLines] on, a call that gives no card line has removed
    nothing: the text [consume] returns followed by what it holds back is
    the old buffer followed by the input, and [replaceToolUsageCardsInText]
    returns its input as it is. *)
Theorem no_card_line_no_text_lost
    (JSON_parse : string -> option value) (opts : ToolUsageCardConsumeOptions) :
  emitLines opts = true ->
  (forall buffer input r,
     result (consume JSON_parse buffer input opts) = Returned r ->
     lines r = [] ->
     text r ++ parserBuffer (consume JSON_parse buffer input opts) = buffer ++ input)
  /\ (forall input r,
        replaceToolUsageCardsInText JSON_parse input opts = Returned r ->
        lines r = [] ->
        text r = input).
Proof.
  intros Hemit. split.
  - intros buffer input r H Hlines. now apply (consume_spec _ _ _ _ _ H).
  - intros input r. unfold replaceToolUsageCardsInText. cbv zeta.
    destruct (result (consume JSON_parse "" input opts)) as [first|] eqn:E1;
      cbn [bind]; [|discriminate].
    destruct (consume_spec _ _ _ _ _ E1) as [_ Hkeep1].
    set (held := parserBuffer (consume JSON_parse "" input opts)) in *.
    unfold flush. cbv zeta.
    destruct (result (consume JSON_parse held "" opts)) as [tail|] eqn:E2.
    2:{ rewrite E2. cbn [bind]. discriminate. }
    destruct (consume_spec _ _ _ _ _ E2) as [_ Hkeep2].
    intros H Hlines.
    assert (Htail : exists t, r = {| text := text first ++ t;
                                     lines := (lines first ++ lines tail)%list |}
                              /\ t = text tail
                                     ++ parserBuffer (consume JSON_parse held "" opts)).
    { destruct (nonEmpty (parserBuffer (consume JSON_parse held "" opts))) eqn:En;
        cbn [andb] in H.
      - cbn [result bind text lines] in H. injection H as <-.
        eexists. split; reflexivity.
      - rewrite E2 in H. cbn [bind] in H. injection H as <-.
        destruct (parserBuffer (consume JSON_parse held "" opts)); [|discriminate En].
        exists (text tail). split; [reflexivity|].
        now rewrite append_empty. }
    destruct Htail as (t & -> & ->). cbn [text lines] in *.
    apply app_eq_nil in Hlines. destruct Hlines as [Hl1 Hl2].
    rewrite (Hkeep2 Hemit Hl2), append_empty. apply (Hkeep1 Hemit Hl1).
Qed.

Lemma no_card_line_no_text_lost_witness :
  text {| text := "kept a < b, "; lines := [] |}
  ++ parserBuffer (consume argsJson "kept " "a < b, <xai:to" withLines)
  = "kept " ++ "a < b, <xai:to"
  /\ text {| text := "<b>1 < 2</b> <xai:tool_name>"; lines := [] |}
     = "<b>1 < 2</b> <xai:tool_name>".
Proof.
  destruct (no_card_line_no_text_lost argsJson withLines eq_refl) as [Hconsume Hreplace].
  split.
  - apply (Hconsume "kept " "a < b, <xai:to" {| text := "kept a < b, "; lines := [] |}).
    + vm_compute. reflexivity.
    + reflexivity.
  - apply (Hreplace "<b>1 < 2</b> <xai:tool_name>"
             {| text := "<b>1 < 2</b> <xai:tool_name>"; lines := [] |}).
    + vm_compute. reflexivity.
    + reflexivity.
Defined.

End CardMore.


(* ===================================================================== *)
(** ** The reader of a whole body                                        *)
(* ===================================================================== *)

Module Collecting.

Import JsString Json GrokStream GrokStreamProofs.
Local Open Scope string_scope.

(** *** The reader of a whole body, [parseOpenAiFromGrokNdjson] *)

(** The lines its loop runs over. *)
Definition bodyLines (text : string) : list string :=
  filter nonEmpty (map trim (splitOn LF text)).

(** Whether [JSON.parse] accepts a line. *)
Definition parses (platform : Platform) (line : string) : bool :=
  match JSON_parse platform line with Some _ => true | None => false end.

Definition noMeta : GrokConversationMeta :=
  {| grokConversationId := ""; lastResponseId := "" |}.

(** What [extractMetaFromLine] reads in a line, nothing when the line is
    no JSON. *)
Definition lineMeta (platform : Platform) (line : string) : GrokConversationMeta :=
  match JSON_parse platform line with
  | Some data =>
      match extractMetaFromLine data with
      | Returned m => m
      | Thrown _ => noMeta
      end
  | None => noMeta
  end.

(** The last string of the list that is not empty. *)
Fixpoint lastNonEmpty (xs : list string) : string :=
  match xs with
  | [] => ""
  | x :: rest => orElse (lastNonEmpty rest) x
  end.

(** A frame that carries a response with neither an error, a video nor a
    [modelResponse]: all the loop takes from it is its token. *)
Definition tokenOnly (data : value) : bool :=
  let grok := optProp "response" (prop "result" data) in
  match data with JNull => false | _ => true end
  && negb (truthy (optProp "message" (prop "error" data)))
  && truthy grok
  && negb (truthy (optProp "modelResponse" grok))
  && match optProp "videoUrl" (optProp "streamingVideoGenerationResponse" grok) with
     | Some (JStr (String _ _)) => false
     | _ => true
     end.

(** [grok.token] of the frame in a line, when it is a string. *)
Definition tokenOf (platform : Platform) (line : string) : string :=
  match JSON_parse platform line with
  | Some data =>
      match optProp "token" (optProp "response" (prop "result" data)) with
      | Some (JStr t) => t
      | _ => ""
      end
  | None => ""
  end.

(** The test of [tokenParts.push]. *)
Definition keptToken (settings : GrokSettings) (token : string) : bool :=
  nonEmpty token
  && negb (existsb (fun t => includes t token) (filteredTags settings)).

Lemma empty_of_nonEmpty (s : string) : nonEmpty s = false -> s = "".
Proof. destruct s; [reflexivity|discriminate]. Qed.

Lemma orElse_empty (a : string) : orElse a "" = a.
Proof. destruct a; reflexivity. Qed.

Lemma orElse_assoc (a b c : string) : orElse (orElse a b) c = orElse a (orElse b c).
Proof. destruct a; reflexivity. Qed.

Section Reader.

Variable platform : Platform.
Variable settings : GrokSettings.
Variable globalCfg : GlobalSettings.
Variable origin : string.
Variable requestedModel : string.

Local Abbreviation collectLine := (collectLine platform settings globalCfg origin requestedModel).
Local Abbreviation collectLines := (collectLines platform settings globalCfg origin requestedModel).
Local Abbreviation collectModelResponse :=
  (collectModelResponse platform settings globalCfg origin).
Local Abbreviation parse onMeta :=
  (parseOpenAiFromGrokNdjson platform onMeta settings globalCfg origin requestedModel).

Definition fresh : Collected :=
  {| model := requestedModel; latestMessage := ""; latestToolLines := [];
     tokenParts := []; mergedContent := None; toolRolloutId := "";
     collectedMeta := noMeta |}.

Lemma collectLines_app (st : Collected) (xs ys : list string) :
  collectLines st (xs ++ ys) = bind (collectLines st xs) (fun st' => collectLines st' ys).
Proof.
  revert st. induction xs as [|x xs IH]; intros st; [reflexivity|].
  cbn [app GrokStream.collectLines].
  destruct (collectLine st x) as [st'|m]; cbn [bind]; [apply IH|reflexivity].
Qed.

Lemma collectLines_parsable (st : Collected) (ls : list string) :
  collectLines st ls = collectLines st (filter (parses platform) ls).
Proof.
  revert st. induction ls as [|l ls IH]; intros st; [reflexivity|].
  cbn [filter GrokStream.collectLines]. unfold parses at 1.
  destruct (JSON_parse platform l) as [data|] eqn:E.
  - cbn [GrokStream.collectLines].
    destruct (collectLine st l) as [st'|m]; cbn [bind]; [apply IH|reflexivity].
  - unfold GrokStream.collectLine. rewrite E. cbn [bind]. apply IH.
Qed.

(** What the function does once the loop has returned. *)
Lemma parse_unfold (onMeta : option (GrokConversationMeta -> Outcome unit))
    (text : string) :
  parse onMeta text
  = bind (collectLines fresh (filter (parses platform) (bodyLines text)))
      (fun st =>
         let content :=
           match mergedContent st with Some c => c | None => latestMessage st end in
         let content :=
           if negb (nonEmpty content)
              && match tokenParts st with [] => false | _ => true end
           then join "" (tokenParts st) else content in
         let content :=
           match latestToolLines st with
           | [] => content
           | toolLines =>
               let toolBlock := join nl toolLines in
               if nonEmpty content
               then "<think>" ++ nl ++ toolBlock ++ nl ++ "</think>" ++ nl ++ content
               else "<think>" ++ nl ++ toolBlock ++ nl ++ "</think>"
           end in
         match onMeta with
         | Some f =>
             bind (f (collectedMeta st)) (fun _ =>
             Returned {| completionModel := model st; completionContent := content;
                         reportedMeta := Some (collectedMeta st) |})
         | None =>
             Returned {| completionModel := model st; completionContent := content;
                         reportedMeta := None |}
         end).
Proof.
  unfold parseOpenAiFromGrokNdjson. fold (bodyLines text). fold fresh.
  rewrite <- collectLines_parsable. reflexivity.
Qed.

(** X24.  [parseOpenAiFromGrokNdjson] only sees the lines that
    [JSON.parse] accepts: two bodies whose parsable, trimmed, non-blank
    lines are the same give the same outcome, whatever blank lines, white
    space around lines or unparsable lines they differ by. *)
Theorem parseOpenAiFromGrokNdjson_unparsable_lines_ignored
    (onMeta : option (GrokConversationMeta -> Outcome unit)) (text1 text2 : string) :
  filter (parses platform) (bodyLines text1) = filter (parses platform) (bodyLines text2) ->
  parse onMeta text1 = parse onMeta text2.
Proof. intros H. rewrite !parse_unfold, H. reflexivity. Qed.

(** X25.  A body with no line that [JSON.parse] accepts, the empty body
    among them, is no error: the completion has the requested model and the
    empty content, and [onMeta], when given, is called with both ids empty,
    its outcome deciding whether the call returns. *)
Theorem parseOpenAiFromGrokNdjson_nothing_parsable
    (f : GrokConversationMeta -> Outcome unit) (text : string) :
  (forall l, In l (bodyLines text) -> JSON_parse platform l = None) ->
  parse None text
  = Returned {| completionModel := requestedModel; completionContent := "";
                reportedMeta := None |}
  /\ parse (Some f) text
     = bind (f noMeta)
         (fun _ => Returned {| completionModel := requestedModel;
                               completionContent := "";
                               reportedMeta := Some noMeta |}).
Proof.
  intros H.
  assert (E : filter (parses platform) (bodyLines text) = []).
  { induction (bodyLines text) as [|l ls IH]; [reflexivity|].
    cbn [filter]. unfold parses at 1. rewrite (H l (or_introl eq_refl)).
    apply IH. intros l' Hl'. apply H. right. exact Hl'. }
  rewrite !parse_unfold, E. split; reflexivity.
Qed.

Lemma collectLine_error_frame (st : Collected) (l : string) (data msg : value) :
  JSON_parse platform l = Some data ->
  optProp "message" (prop "error" data) = Some msg ->
  truthy (Some msg) = true ->
  collectLine st l = Thrown (toString msg).
Proof.
  intros Hp Hm Ht. unfold GrokStream.collectLine. rewrite Hp.
  destruct data as [| | | | |props]; try discriminate Hm.
  unfold extractMetaFromLine.
  destruct (objectOnly (prop "result" (JObj props))); cbn [bind];
    rewrite Hm, Ht; reflexivity.
Qed.

Lemma collectLines_throwing (st : Collected) (ls : list string) (l : string) :
  In l ls ->
  (forall st', exists m, collectLine st' l = Thrown m) ->
  exists m, collectLines st ls = Thrown m.
Proof.
  intros Hin Hl. revert st. induction ls as [|x xs IH]; intros st; [destruct Hin|].
  cbn [GrokStream.collectLines]. destruct Hin as [->|Hin].
  - destruct (Hl st) as [m Hm]. rewrite Hm. exists m. reflexivity.
  - destruct (collectLine st x) as [st'|m]; cbn [bind];
      [apply (IH Hin)|exists m; reflexivity].
Qed.

(** X26.  A body that holds, on any line, a frame whose [error.message] is
    truthy never gives a completion: the call throws, whatever the other
    lines hold and before [onMeta] is called.  When that line is the first
    one [JSON.parse] accepts, the error's text is [String(error.message)]. *)
Theorem parseOpenAiFromGrokNdjson_error_frame
    (onMeta : option (GrokConversationMeta -> Outcome unit))
    (text l : string) (data msg : value) :
  In l (bodyLines text) ->
  JSON_parse platform l = Some data ->
  optProp "message" (prop "error" data) = Some msg ->
  truthy (Some msg) = true ->
  exists m,
    parse onMeta text = Thrown m
    /\ (forall rest, filter (parses platform) (bodyLines text) = l :: rest ->
        m = toString msg).
Proof.
  intros Hin Hp Hm Ht.
  pose proof (collectLine_error_frame) as Hline.
  assert (Hin' : In l (filter (parses platform) (bodyLines text))).
  { apply filter_In. split; [exact Hin|]. unfold parses. rewrite Hp. reflexivity. }
  destruct (collectLines_throwing fresh _ l Hin') as [m Hthrow].
  { intros st'. exists (toString msg). apply (Hline st' l data msg Hp Hm Ht). }
  exists m. rewrite parse_unfold, Hthrow. split; [reflexivity|].
  intros rest Hrest. rewrite Hrest in Hthrow. cbn [GrokStream.collectLines] in Hthrow.
  rewrite (Hline fresh l data msg Hp Hm Ht) in Hthrow. cbn [bind] in Hthrow.
  congruence.
Qed.

(** The loop keeps the ids of [meta] unless the line brings new ones. *)
Lemma collectModelResponse_meta (st st' : Collected) (modelResp : value) :
  collectModelResponse st modelResp = Returned st' ->
  collectedMeta st' = collectedMeta st.
Proof.
  unfold GrokStream.collectModelResponse. intros H.
  destruct (prop "error" modelResp) as [[| | |e| |]|]; cbn [bind] in H;
    try destruct (nonEmpty e); try discriminate H; cbn [bind] in H.
  all: destruct (prop "model" modelResp) as [[| | |m| |]|];
    try destruct (nonEmpty m).
  all: destruct (prop "message" modelResp) as [[| | |message| |]|]; cbn [bind] in H.
  all: try match type of H with
           | context [ToolUsageCard.replaceToolUsageCardsInText ?a ?b ?c] =>
               destruct (ToolUsageCard.replaceToolUsageCardsInText a b c) as [parsed|];
                 cbn [bind] in H; [|discriminate H];
                 destruct (nonEmpty message
                           || match ToolUsageCard.lines parsed with
                              | [] => false | _ => true end); cbn [bind] in H
           end.
  all: destruct (normalizeGeneratedAssetUrls platform
                   (prop "generatedImageUrls" modelResp));
    injection H as <-; reflexivity.
Qed.

Lemma collectLine_meta (st st' : Collected) (l : string) :
  collectLine st l = Returned st' ->
  grokConversationId (collectedMeta st')
  = orElse (grokConversationId (lineMeta platform l))
      (grokConversationId (collectedMeta st))
  /\ lastResponseId (collectedMeta st')
     = orElse (lastResponseId (lineMeta platform l)) (lastResponseId (collectedMeta st)).
Proof.
  unfold GrokStream.collectLine, lineMeta. intros H.
  destruct (JSON_parse platform l) as [data|].
  2:{ injection H as <-. split; reflexivity. }
  destruct (extractMetaFromLine data) as [lm|]; cbn [bind] in H; [|discriminate H].
  destruct (truthy (optProp "message" (prop "error" data))); [discriminate H|].
  destruct (negb (truthy (optProp "response" (prop "result" data)))).
  { injection H as <-. split; reflexivity. }
  match type of H with
  | context [optProp "videoUrl" ?v] => destruct (optProp "videoUrl" v) as [[| | |[|c u]| |]|]
  end.
  all: try (injection H as <-; split; reflexivity).
  all: match type of H with
       | (if ?b then _ else _) = _ => destruct b
       end;
    [ injection H as <-; split; reflexivity
    | apply collectModelResponse_meta in H; rewrite H; split; reflexivity ].
Qed.

Lemma collectLines_meta (st st' : Collected) (ls : list string) :
  collectLines st ls = Returned st' ->
  grokConversationId (collectedMeta st')
  = orElse (lastNonEmpty (map (fun l => grokConversationId (lineMeta platform l)) ls))
      (grokConversationId (collectedMeta st))
  /\ lastResponseId (collectedMeta st')
     = orElse (lastNonEmpty (map (fun l => lastResponseId (lineMeta platform l)) ls))
         (lastResponseId (collectedMeta st)).
Proof.
  revert st. induction ls as [|l ls IH]; intros st H.
  - injection H as <-. split; reflexivity.
  - cbn [GrokStream.collectLines] in H.
    destruct (collectLine st l) as [st1|] eqn:E; cbn [bind] in H; [|discriminate H].
    destruct (collectLine_meta _ _ _ E) as [Hc Hr].
    destruct (IH _ H) as [Hc' Hr'].
    cbn [map lastNonEmpty]. rewrite Hc', Hr', Hc, Hr, !orElse_assoc.
    split; reflexivity.
Qed.

(** X27.  When the call returns, the ids [onMeta] was called with are,
    each on its own, the last non-empty one that [extractMetaFromLine] read
    over all the lines of the body, the lines without a response among
    them; and [onMeta] had returned. *)
Theorem parseOpenAiFromGrokNdjson_meta
    (f : GrokConversationMeta -> Outcome unit) (text : string) (c : Completion) :
  parse (Some f) text = Returned c ->
  let meta :=
    {| grokConversationId :=
         lastNonEmpty (map (fun l => grokConversationId (lineMeta platform l))
                         (bodyLines text));
       lastResponseId :=
         lastNonEmpty (map (fun l => lastResponseId (lineMeta platform l))
                         (bodyLines text)) |} in
  reportedMeta c = Some meta /\ f meta = Returned tt.
Proof.
  intros H meta. rewrite parse_unfold, <- collectLines_parsable in H.
  destruct (collectLines fresh (bodyLines text)) as [st|] eqn:E; cbn [bind] in H;
    [|discriminate H].
  destruct (collectLines_meta _ _ _ E) as [Hc Hr]. cbn [fresh collectedMeta noMeta
    grokConversationId lastResponseId] in Hc, Hr. rewrite orElse_empty in Hc, Hr.
  assert (Hm : collectedMeta st = meta).
  { unfold meta. rewrite <- Hc, <- Hr. destruct (collectedMeta st). reflexivity. }
  rewrite Hm in H.
  destruct (f meta) as [[]|] eqn:Ef; cbn [bind] in H; [|discriminate H].
  injection H as <-. split; reflexivity.
Qed.

(** A token-only frame leaves everything but the tokens, the rollout id
    and the meta as it was. *)
Lemma collectLine_tokenOnly (st : Collected) (l : string) (data : value) :
  JSON_parse platform l = Some data ->
  tokenOnly data = true ->
  exists rollout meta,
    collectLine st l
    = Returned
        {| model := model st; latestMessage := latestMessage st;
           latestToolLines := latestToolLines st;
           tokenParts := (tokenParts st
                          ++ if keptToken settings (tokenOf platform l)
                             then [tokenOf platform l] else [])%list;
           mergedContent := mergedContent st; toolRolloutId := rollout;
           collectedMeta := meta |}.
Proof.
  intros Hp Ht. unfold tokenOnly in Ht.
  repeat (apply andb_prop in Ht; destruct Ht as [Ht ?]).
  unfold GrokStream.collectLine, tokenOf, keptToken. rewrite Hp.
  assert (Hmeta : exists lm, extractMetaFromLine data = Returned lm).
  { unfold extractMetaFromLine. destruct data; try discriminate Ht;
      destruct (objectOnly _); eexists; reflexivity. }
  destruct Hmeta as [lm ->]. cbn [bind].
  match goal with
  | H : negb (truthy (optProp "message" _)) = true |- _ =>
      apply negb_true_iff in H; rewrite H
  end.
  destruct (optProp "response" (prop "result" data)) as [grok|];
    [|match goal with H : truthy None = true |- _ => discriminate H end].
  assert (Hopt : forall name, optProp name (Some grok) = prop name grok).
  { intros name. destruct grok; reflexivity. }
  rewrite !Hopt in *.
  match goal with H : truthy (Some grok) = true |- _ => rewrite H end.
  match goal with
  | H : negb (truthy (prop "modelResponse" grok)) = true |- _ =>
      apply negb_true_iff in H; rewrite H
  end.
  cbn [negb].
  set (token := match prop "token" grok with Some (JStr t) => t | _ => "" end).
  match goal with
  | H : match optProp "videoUrl" ?v with _ => _ end = true |- _ =>
      destruct (optProp "videoUrl" v) as [[| | |[|c u]| |]|]; try discriminate H
  end.
  all: destruct (nonEmpty token
                 && negb (existsb (fun t => includes t token) (filteredTags settings)));
    try rewrite app_nil_r; eexists; eexists; reflexivity.
Qed.

Lemma collectLines_tokenOnly (st : Collected) (ls : list string) :
  (forall l, In l ls ->
     exists data, JSON_parse platform l = Some data /\ tokenOnly data = true) ->
  exists rollout meta,
    collectLines st ls
    = Returned
        {| model := model st; latestMessage := latestMessage st;
           latestToolLines := latestToolLines st;
           tokenParts := (tokenParts st
                          ++ filter (keptToken settings) (map (tokenOf platform) ls))%list;
           mergedContent := mergedContent st; toolRolloutId := rollout;
           collectedMeta := meta |}.
Proof.
  revert st. induction ls as [|l ls IH]; intros st H.
  - exists (toolRolloutId st), (collectedMeta st). cbn. rewrite app_nil_r.
    destruct st; reflexivity.
  - destruct (H l (or_introl eq_refl)) as [data [Hp Ht]].
    destruct (collectLine_tokenOnly st l data Hp Ht) as [r1 [m1 E1]].
    cbn [GrokStream.collectLines]. rewrite E1. cbn [bind].
    edestruct IH as [r2 [m2 E2]]; [intros l' Hl'; apply H; right; exact Hl'|].
    rewrite E2. cbn [model latestMessage latestToolLines tokenParts mergedContent].
    exists r2, m2. cbn [map filter].
    destruct (keptToken settings (tokenOf platform l)); rewrite <- app_assoc; reflexivity.
Qed.

(** X28.  When every line that parses is a frame with a response that
    carries no error, no video and no [modelResponse], the content of the
    completion is the tokens of the lines put together in order, those that
    are empty or include a filtered tag left out; the model is the
    requested one. *)
Theorem parseOpenAiFromGrokNdjson_tokens_only (text : string) :
  (forall l data, In l (bodyLines text) -> JSON_parse platform l = Some data ->
     tokenOnly data = true) ->
  parse None text
  = Returned
      {| completionModel := requestedModel;
         completionContent :=
           join "" (filter (keptToken settings)
                      (map (tokenOf platform) (filter (parses platform) (bodyLines text))));
         reportedMeta := None |}.
Proof.
  intros H. rewrite parse_unfold.
  destruct (collectLines_tokenOnly fresh (filter (parses platform) (bodyLines text)))
    as [r [m E]].
  { intros l Hl. apply filter_In in Hl. destruct Hl as [Hin Hp]. unfold parses in Hp.
    destruct (JSON_parse platform l) as [data|] eqn:Ed; [|discriminate Hp].
    exists data. split; [reflexivity|]. apply (H l data Hin Ed). }
  rewrite E. cbn [bind fresh model latestMessage latestToolLines tokenParts mergedContent
    app nonEmpty negb andb].
  destruct (filter (keptToken settings) _); reflexivity.
Qed.

End Reader.

(** *** Bodies to run it on *)

(** An error frame, a frame with both ids and no response token, and a
    later frame that only brings a response id. *)
Definition errorLine : string :=
  ToolUsageCardProofs.member "error"
    (ToolUsageCardProofs.member "message" (quoted "upstream overloaded")).
Definition errorFrame : value :=
  JObj [("error", JObj [("message", JStr "upstream overloaded")])].

Definition idsLine : string :=
  ToolUsageCardProofs.member "result"
    ("{" ++ quoted "conversation" ++ ":"
         ++ ToolUsageCardProofs.member "conversationId" (quoted "c1")
         ++ "," ++ quoted "userResponse" ++ ":"
         ++ ToolUsageCardProofs.member "responseId" (quoted "r1") ++ "}").
Definition idsFrame : value :=
  JObj [("result",
         JObj [("conversation", JObj [("conversationId", JStr "c1")]);
               ("userResponse", JObj [("responseId", JStr "r1")])])].

Definition laterLine : string :=
  ToolUsageCardProofs.member "result"
    (ToolUsageCardProofs.member "response"
       (ToolUsageCardProofs.member "responseId" (quoted "r2"))).
Definition laterFrame : value :=
  JObj [("result", JObj [("response", JObj [("responseId", JStr "r2")])])].

Definition bodyJson (text : string) : option value :=
  match lookup text [(errorLine, errorFrame); (idsLine, idsFrame); (laterLine, laterFrame)]
  with
  | Some v => Some v
  | None => sampleJson text
  end.

Definition bodyPlatform : Platform :=
  {| JSON_parse := bodyJson; URL_parse := fun _ => None; btoaUtf8 := fun s => s |}.

Definition collect (onMeta : option (GrokConversationMeta -> Outcome unit))
    (text : string) : Outcome Completion :=
  parseOpenAiFromGrokNdjson bodyPlatform onMeta defaults noBaseUrl
    "https://gateway.example" "grok-4" text.

(** [twoLines] with a blank line, white space and a line that is no JSON. *)
Definition twoLinesNoisy : string :=
  "  " ++ tokenLine true "hi" ++ nl ++ nl ++ "upstream says hello" ++ nl
       ++ tokenLine false " world" ++ "  ".

Definition errorBody : string :=
  "upstream says hello" ++ nl ++ errorLine ++ nl ++ tokenLine true "hi" ++ nl.

Definition idsBody : string :=
  idsLine ++ nl ++ tokenLine true "hi" ++ nl ++ laterLine ++ nl.

Lemma parseOpenAiFromGrokNdjson_unparsable_lines_ignored_witness :
  collect None twoLines = collect None twoLinesNoisy.
Proof.
  apply (parseOpenAiFromGrokNdjson_unparsable_lines_ignored bodyPlatform defaults
           noBaseUrl "https://gateway.example" "grok-4" None twoLines twoLinesNoisy).
  vm_compute. reflexivity.
Defined.

Lemma parseOpenAiFromGrokNdjson_nothing_parsable_witness :
  collect None "upstream says hello"
  = Returned {| completionModel := "grok-4"; completionContent := "";
                reportedMeta := None |}
  /\ collect (Some (fun _ => Returned tt)) "upstream says hello"
     = bind (Returned tt)
         (fun _ => Returned {| completionModel := "grok-4"; completionContent := "";
                               reportedMeta := Some noMeta |}).
Proof.
  apply (parseOpenAiFromGrokNdjson_nothing_parsable bodyPlatform defaults noBaseUrl
           "https://gateway.example" "grok-4" (fun _ => Returned tt)
           "upstream says hello").
  intros l Hl. vm_compute in Hl. destruct Hl as [<-|[]]. vm_compute. reflexivity.
Defined.

Lemma parseOpenAiFromGrokNdjson_error_frame_witness :
  exists m,
    collect None errorBody = Thrown m
    /\ (forall rest,
          filter (parses bodyPlatform) (bodyLines errorBody) = errorLine :: rest ->
          m = toString (JStr "upstream overloaded")).
Proof.
  apply (parseOpenAiFromGrokNdjson_error_frame bodyPlatform defaults noBaseUrl
           "https://gateway.example" "grok-4" None errorBody errorLine errorFrame
           (JStr "upstream overloaded")).
  - vm_compute. right. left. reflexivity.
  - vm_compute. reflexivity.
  - vm_compute. reflexivity.
  - vm_compute. reflexivity.
Defined.

Lemma parseOpenAiFromGrokNdjson_meta_witness :
  let meta :=
    {| grokConversationId :=
         lastNonEmpty (map (fun l => grokConversationId (lineMeta bodyPlatform l))
                         (bodyLines idsBody));
       lastResponseId :=
         lastNonEmpty (map (fun l => lastResponseId (lineMeta bodyPlatform l))
                         (bodyLines idsBody)) |} in
  reportedMeta
    {| completionModel := "grok-4"; completionContent := "hi";
       reportedMeta := Some {| grokConversationId := "c1"; lastResponseId := "r2" |} |}
  = Some meta
  /\ (fun _ : GrokConversationMeta => Returned tt) meta = Returned tt.
Proof.
  apply (parseOpenAiFromGrokNdjson_meta bodyPlatform defaults noBaseUrl
           "https://gateway.example" "grok-4" (fun _ => Returned tt) idsBody).
  vm_compute. reflexivity.
Defined.

Lemma parseOpenAiFromGrokNdjson_tokens_only_witness :
  collect None twoLines
  = Returned
      {| completionModel := "grok-4";
         completionContent :=
           join "" (filter (keptToken defaults)
                      (map (tokenOf bodyPlatform)
                         (filter (parses bodyPlatform) (bodyLines twoLines))));
         reportedMeta := None |}.
Proof.
  apply (parseOpenAiFromGrokNdjson_tokens_only bodyPlatform defaults noBaseUrl
           "https://gateway.example" "grok-4" twoLines).
  intros l data Hl Hp. vm_compute in Hl.
  destruct Hl as [<-|[<-|[]]]; vm_compute in Hp; injection Hp as <-;
    vm_compute; reflexivity.
Defined.

Example tokens_only_sample :
  collect None twoLines
  = Returned {| completionModel := "grok-4"; completionContent := "hi world";
                reportedMeta := None |}.
Proof. vm_compute. reflexivity. Qed.

Example meta_sample :
  collect (Some (fun _ => Returned tt)) idsBody
  = Returned {| completionModel := "grok-4"; completionContent := "hi";
                reportedMeta :=
                  Some {| grokConversationId := "c1"; lastResponseId := "r2" |} |}.
Proof. vm_compute. reflexivity. Qed.

End Collecting.


(* ===================================================================== *)
(** ** Account settings                                                  *)
(* ===================================================================== *)

Module AccountSettingsProofs.

Import JsString GrpcWeb AccountSettings.
Local Open Scope string_scope.
Local Open Scope Z_scope.

(** *** One gRPC step *)

Lemma stepResult_step (st : AccountSettingsStep) (o : bool) (code g : option Z)
    (e : option string) :
  step (stepResult st o code g e) = st.
Proof. reflexivity. Qed.



(** *** The flow *)

Definition flowSteps : list AccountSettingsStep := [accept_tos; set_birth; nsfw].

Definition flowUrls : list string :=
  [ACCEPT_TOS_URL; SET_BIRTH_DATE_URL; UPDATE_FEATURE_CONTROLS_URL].

Lemma callGrpcStep_step (w : World) (st : AccountSettingsStep)
    (address pathname cookie origin referer : string) (payload : Bytes) :
  step (fst (callGrpcStep w st address pathname cookie origin referer payload)) = st.
Proof.
  unfold callGrpcStep. cbv zeta. cbn [fst].
  match goal with
  | |- context [match ?x with Returned _ => _ | Thrown _ => _ end] =>
      destruct x as [[response parsed]|message]
  end; [|reflexivity].
  now destruct (negb _).
Qed.

Lemma setBirthDate_step (w : World) (cookie : string) (birthDate : option string) :
  step (fst (setBirthDate w cookie birthDate)) = set_birth.
Proof.
  unfold setBirthDate. cbv zeta. cbn [fst].
  match goal with
  | |- context [match ?x with Returned _ => _ | Thrown _ => _ end] =>
      destruct x as [response|message]
  end; [|reflexivity].
  now destruct (negb _ && negb _).
Qed.

(** X30.  [runAccountSettingsFlow] runs the steps [accept-tos],
    [set-birth], [nsfw] in this order and stops at the first one that is
    not [ok]: it reports from one to three steps, all but the last of them
    [ok], it has sent one request for each step reported and none for a
    later step, and the flow is [ok] only when all three steps were made and
    are [ok].  It never throws. *)
Theorem runAccountSettingsFlow_stops_at_first_failure
    (w : World) (cookie : string) (birthDate : option string) :
  let flow := fst (runAccountSettingsFlow w cookie birthDate) in
  let sent := snd (runAccountSettingsFlow w cookie birthDate) in
  let n := List.length (steps flow) in
  (1 <= n <= 3)%nat
  /\ map step (steps flow) = firstn n flowSteps
  /\ map url sent = firstn n flowUrls
  /\ Forall (fun s => ok s = true) (removelast (steps flow))
  /\ flow_ok flow = (n =? 3)%nat && forallb ok (steps flow).
Proof.
  cbv zeta. unfold runAccountSettingsFlow.
  pose proof (callGrpcStep_step w accept_tos ACCEPT_TOS_URL PATH_ACCEPT_TOS cookie
                "https://accounts.x.ai" "https://accounts.x.ai/accept-tos"
                [Byte.x10; Byte.x01]) as Htos.
  pose proof (setBirthDate_step w cookie birthDate) as Hbirth.
  pose proof (callGrpcStep_step w nsfw UPDATE_FEATURE_CONTROLS_URL
                PATH_UPDATE_FEATURE_CONTROLS cookie "https://grok.com"
                "https://grok.com/?_s=data" buildNsfwPayload) as Hnsfw.
  fold (setTosAcceptedVersion w cookie) in Htos.
  fold (updateUserFeatureControls w cookie) in Hnsfw.
  assert (Hs1 : map url (snd (setTosAcceptedVersion w cookie)) = [ACCEPT_TOS_URL])
    by reflexivity.
  assert (Hs2 : map url (snd (setBirthDate w cookie birthDate)) = [SET_BIRTH_DATE_URL])
    by reflexivity.
  assert (Hs3 : map url (snd (updateUserFeatureControls w cookie))
                = [UPDATE_FEATURE_CONTROLS_URL]) by reflexivity.
  destruct (setTosAcceptedVersion w cookie) as [tos sent1].
  destruct (setBirthDate w cookie birthDate) as [birth sent2].
  destruct (updateUserFeatureControls w cookie) as [last sent3].
  cbn [fst snd] in *.
  destruct (ok tos) eqn:E1; cbn [negb].
  2:{ cbn [fst snd steps flow_ok List.length map firstn removelast flowSteps flowUrls].
      rewrite Htos, Hs1. repeat split; try lia. constructor. }
  destruct (ok birth) eqn:E2; cbn [negb].
  2:{ cbn [fst snd steps flow_ok List.length map firstn removelast flowSteps flowUrls].
      rewrite map_app, Htos, Hbirth, Hs1, Hs2. repeat split; try lia.
      constructor; [exact E1|constructor]. }
  cbn [fst snd steps flow_ok List.length map firstn removelast flowSteps flowUrls
         forallb Nat.eqb andb].
  rewrite !map_app, Htos, Hbirth, Hnsfw, Hs1, Hs2, Hs3, E1, E2.
  repeat split; try lia.
  - constructor; [exact E1|]. constructor; [exact E2|constructor].
  - cbn [andb]. now rewrite andb_true_r.
Qed.

(** *** A flow on the wire *)

(** A server that accepts the terms, then refuses the birth date. *)
Definition refusingBirth : World :=
  {| platform :=
       {| textDecode := string_of_list_byte;
          atob := fun _ => None;
          decodeURIComponent := fun s => Some s;
          integerOf := fun s => if String.eqb s "0" then Some 0 else None |};
     getDynamicHeaders := fun _ => [("User-Agent", "test")];
     fetch := fun request =>
       if String.eqb (url request) ACCEPT_TOS_URL
       then Returned {| responseStatus := 200;
                        responseHeaders := [("grpc-status", "0")];
                        arrayBuffer := Returned [];
                        responseText := Returned "" |}
       else Returned {| responseStatus := 403;
                        responseHeaders := [];
                        arrayBuffer := Returned [];
                        responseText := Returned " too young " |};
     randomBirthDateIso := "1990-01-01T00:00:00.000Z" |}.

Example flow_stops_at_birth :
  let run := runAccountSettingsFlow refusingBirth "sso=abc" None in
  fst run
  = {| flow_ok := false;
       steps := [ {| step := accept_tos; ok := true; status := Some 200;
                     grpc_status := Some 0; error := None |};
                  {| step := set_birth; ok := false; status := Some 403;
                     grpc_status := None; error := Some "HTTP 403: too young" |} ] |}
  /\ map url (snd run) = [ACCEPT_TOS_URL; SET_BIRTH_DATE_URL]
  /\ map body (snd run)
     = [ FrameBody [Byte.x00; Byte.x00; Byte.x00; Byte.x00; Byte.x02; Byte.x10; Byte.x01];
         BirthDateBody "1990-01-01T00:00:00.000Z" ].
Proof. cbv zeta. repeat split; vm_compute; reflexivity. Qed.

End AccountSettingsProofs.
